(** * Supplier invoice automation: the resilient extraction layer

    A shallow embedding of the Python service under [app/]:
    - [app/utils.py]                  the content fingerprint,
    - [app/exceptions.py]             the exception hierarchy,
    - [app/services/cache_service.py] the Redis result cache,
    - [app/services/ai_service.py]    circuit breaker, retry, classifier,
                                      response cleaning and validation,
    - [app/prompts/invoice_prompts.py] the prompt builder,
    - [app/api/v1/endpoints.py]       the [/extract] endpoint.

    Python text is a [string] whose characters are code points below 256;
    integers are [Z]; a [float] is the exact rational it denotes (no
    rounding, no overflow); mutable objects and the outside world are
    threaded explicitly through a state-and-exception monad. *)

From Stdlib Require Import ZArith List Bool Ascii String QArith Lia.
From Stdlib Require Strings.Byte DecimalString.
From stdpp Require Import base gmap strings.
Import ListNotations.

Set Warnings "-register-all".

Local Open Scope Z_scope.
Local Open Scope string_scope.

(** ** Python strings *)

Module PyStr.

(** [str.startswith]. *)
Fixpoint startswith (s p : string) {struct p} : bool :=
  match p with
  | EmptyString => true
  | String a p' =>
      match s with
      | String b s' => Ascii.eqb a b && startswith s' p'
      | EmptyString => false
      end
  end.

(** [needle in hay] on strings. *)
Fixpoint contains (needle hay : string) : bool :=
  startswith hay needle
  || match hay with
     | EmptyString => false
     | String _ hay' => contains needle hay'
     end.

Definition in_range (lo hi : N) (c : ascii) : bool :=
  (N.leb lo (N_of_ascii c) && N.leb (N_of_ascii c) hi)%N.

(** [str.lower] on one code point below 256: the ASCII capitals and the
    Latin-1 capitals (U+00C0..U+00DE without the multiplication sign)
    move up by 32, everything else is fixed. *)
Definition lower_char (c : ascii) : ascii :=
  if in_range 65 90 c || in_range 192 214 c || in_range 216 222 c
  then ascii_of_N (N_of_ascii c + 32)
  else c.

Fixpoint lower (s : string) : string :=
  match s with
  | EmptyString => EmptyString
  | String c s' => String (lower_char c) (lower s')
  end.

(** [str.isspace] on one code point below 256. *)
Definition isspace (c : ascii) : bool :=
  in_range 9 13 c || in_range 28 32 c
  || N.eqb (N_of_ascii c) 133 || N.eqb (N_of_ascii c) 160.

Fixpoint lstrip (s : string) : string :=
  match s with
  | String c s' => if isspace c then lstrip s' else s
  | EmptyString => EmptyString
  end.

Fixpoint rstrip (s : string) : string :=
  match s with
  | EmptyString => EmptyString
  | String c s' =>
      match rstrip s' with
      | EmptyString => if isspace c then EmptyString else String c EmptyString
      | r => String c r
      end
  end.

(** [str.strip()]. *)
Definition strip (s : string) : string := rstrip (lstrip s).

(** Truthiness of a string: [not s] is true exactly for the empty one. *)
Definition nonempty (s : string) : bool :=
  match s with EmptyString => false | _ => true end.

End PyStr.

(** ** Exceptions ([app/exceptions.py] and the built-in ones that occur) *)

Inductive exn_class : Type :=
  | BaseException | CancelledError
  | Exception | ValueError | TypeError | ConnectionError
  | JSONDecodeError | ValidationError
  | AppException | InvalidFileTypeError | OcrError | AiServiceError
  | CacheError | FileProcessingError | CircuitBreakerOpenError.

Definition exn_class_eqb (c d : exn_class) : bool :=
  match c, d with
  | BaseException, BaseException | CancelledError, CancelledError
  | Exception, Exception | ValueError, ValueError | TypeError, TypeError
  | ConnectionError, ConnectionError | JSONDecodeError, JSONDecodeError
  | ValidationError, ValidationError | AppException, AppException
  | InvalidFileTypeError, InvalidFileTypeError | OcrError, OcrError
  | AiServiceError, AiServiceError | CacheError, CacheError
  | FileProcessingError, FileProcessingError
  | CircuitBreakerOpenError, CircuitBreakerOpenError => true
  | _, _ => false
  end.

(** The base class written in each [class] statement. *)
Definition base_of (c : exn_class) : option exn_class :=
  match c with
  | BaseException => None
  | CancelledError => Some BaseException
  | Exception => Some BaseException
  | ValueError | TypeError | ConnectionError | AppException => Some Exception
  | JSONDecodeError | ValidationError => Some ValueError
  | InvalidFileTypeError | OcrError | AiServiceError | CacheError
  | FileProcessingError => Some AppException
  | CircuitBreakerOpenError => Some AiServiceError
  end.

Fixpoint issubclass_fuel (n : nat) (c d : exn_class) : bool :=
  exn_class_eqb c d
  || match n, base_of c with
     | S n', Some b => issubclass_fuel n' b d
     | _, _ => false
     end.

(** The hierarchy is four levels deep. *)
Definition issubclass (c d : exn_class) : bool := issubclass_fuel 4 c d.

(** An exception object: the attributes [AppException.__init__] sets; a
    built-in exception only has its message. *)
Record exn : Type := mk_exn {
  exn_cls : exn_class;
  message : string;
  status_code : option Z;
  detail : option string;
  error_code : option string
}.

Definition isinstance (e : exn) (c : exn_class) : bool :=
  issubclass (exn_cls e) c.

(** [except (C1, C2, ...)]. *)
Definition isinstance_any (e : exn) (cs : list exn_class) : bool :=
  existsb (isinstance e) cs.

(** [str(e)]: [AppException] passes [message] to [Exception.__init__]. *)
Definition str_of_exn (e : exn) : string := message e.

Definition builtin_exn (c : exn_class) (msg : string) : exn :=
  mk_exn c msg None None None.

Definition mk_OcrError (msg : string) (det : option string) : exn :=
  mk_exn OcrError msg (Some 500) det (Some "OCR_ERROR").

Definition mk_AiServiceError (msg : string) (det : option string) : exn :=
  mk_exn AiServiceError msg (Some 500) det (Some "AI_SERVICE_ERROR").

Definition mk_CacheError (msg : string) : exn :=
  mk_exn CacheError msg (Some 500) None (Some "CACHE_ERROR").

Definition mk_FileProcessingError (msg : string) (det : option string) : exn :=
  mk_exn FileProcessingError msg (Some 400) det (Some "FILE_PROCESSING_ERROR").

(** [", ".join(xs)]. *)
Fixpoint join_comma (xs : list string) : string :=
  match xs with
  | [] => ""
  | [x] => x
  | x :: rest => x +:+ ", " +:+ join_comma rest
  end.

Definition mk_InvalidFileTypeError (file_type : string)
    (supported_types : list string) : exn :=
  mk_exn InvalidFileTypeError ("Invalid file type: " +:+ file_type)
         (Some 400)
         (Some ("Supported types: " +:+ join_comma supported_types))
         (Some "INVALID_FILE_TYPE").

(** [CircuitBreakerOpenError]: an [AiServiceError] with status 503 whose
    [error_code] is overwritten after [super().__init__]. *)
Definition mk_CircuitBreakerOpenError (service_name : string) : exn :=
  mk_exn CircuitBreakerOpenError
         (service_name +:+ " is temporarily unavailable")
         (Some 503)
         (Some "Circuit breaker is open due to repeated failures. Please try again later.")
         (Some "CIRCUIT_BREAKER_OPEN").

(** ** The failure classifier ([AIService._is_transient_error]) *)

Definition transient_indicators : list string :=
  [ "503"; "502"; "504"; "500";
    "429";
    "timeout";
    "connection";
    "network";
    "quota exceeded" ].

Definition _is_transient_error (error : exn) : bool :=
  let error_str := PyStr.lower (str_of_exn error) in
  existsb (fun indicator => PyStr.contains indicator error_str)
          transient_indicators.

(** ** Python values

    The dynamically typed data that flows through the service: what
    [json.loads] produces, what [model_dump] returns (which may hold
    [datetime.date] objects), and the raw bytes of an upload. A [dict] is an
    association list in insertion order with distinct keys. *)

Record date : Type := mk_date { year : Z; month : Z; day : Z }.

Inductive pyval : Type :=
  | PNone
  | PBool (b : bool)
  | PInt (z : Z)
  | PFloat (q : Q)
  | PStr (s : string)
  | PBytes (bs : list Byte.byte)
  | PDate (d : date)
  | PList (xs : list pyval)
  | PDict (kvs : list (string * pyval)).

(** [bool(v)]: the truth value Python gives an object in [if v:]. *)
Definition truthy (v : pyval) : bool :=
  match v with
  | PNone => false
  | PBool b => b
  | PInt z => negb (Z.eqb z 0)
  | PFloat q => negb (Qeq_bool q 0)
  | PStr s => PyStr.nonempty s
  | PBytes bs => match bs with [] => false | _ => true end
  | PDate _ => true
  | PList xs => match xs with [] => false | _ => true end
  | PDict kvs => match kvs with [] => false | _ => true end
  end.

Fixpoint dict_get (kvs : list (string * pyval)) (k : string) : option pyval :=
  match kvs with
  | [] => None
  | (k', v) :: rest => if String.eqb k' k then Some v else dict_get rest k
  end.

(** [d[k] = v]: an existing key keeps its position. *)
Fixpoint dict_set (kvs : list (string * pyval)) (k : string) (v : pyval)
  : list (string * pyval) :=
  match kvs with
  | [] => [(k, v)]
  | (k', v') :: rest =>
      if String.eqb k' k then (k', v) :: rest
      else (k', v') :: dict_set rest k v
  end.

(** ** Outcomes and the state-and-exception monad *)

Inductive result (A : Type) : Type :=
  | Ok (a : A)
  | Raise (e : exn).
Arguments Ok {A} a.
Arguments Raise {A} e.

Definition is_ok {A} (r : result A) : bool :=
  match r with Ok _ => true | Raise _ => false end.

(** A computation over a state [S] that returns or raises. *)
Definition M (S A : Type) : Type := S -> result A * S.

Definition ret {S A} (a : A) : M S A := fun s => (Ok a, s).

Definition raise {S A} (e : exn) : M S A := fun s => (Raise e, s).

Definition bind {S A B} (m : M S A) (k : A -> M S B) : M S B :=
  fun s =>
    match m s with
    | (Ok a, s') => k a s'
    | (Raise e, s') => (Raise e, s')
    end.

Declare Scope py_scope.
Delimit Scope py_scope with py.
Notation "'let*' x ':=' m 'in' k" := (bind m (fun x => k))
  (at level 10, x name, m at level 100, k at level 200) : py_scope.
Local Open Scope py_scope.

(** [try: body except <classes> as e: handler e]: the first clause whose
    class tuple matches handles the exception; an exception raised by the
    handler propagates. *)
Fixpoint select_handler {S A} (e : exn)
    (clauses : list (list exn_class * (exn -> M S A))) : option (M S A) :=
  match clauses with
  | [] => None
  | (cs, h) :: rest =>
      if isinstance_any e cs then Some (h e) else select_handler e rest
  end.

Definition try_except {S A} (body : M S A)
    (clauses : list (list exn_class * (exn -> M S A))) : M S A :=
  fun s =>
    match body s with
    | (Ok a, s') => (Ok a, s')
    | (Raise e, s') =>
        match select_handler e clauses with
        | Some h => h s'
        | None => (Raise e, s')
        end
    end.

(** [try: body finally: cleanup], for a cleanup that does not raise. *)
Definition try_finally {S A} (body : M S A) (cleanup : S -> S) : M S A :=
  fun s => let '(r, s') := body s in (r, cleanup s').

(** Run a computation on one component of a pair of states. *)
Definition on_snd {S1 S2 A} (m : M S2 A) : M (S1 * S2) A :=
  fun s => let '(r, s2) := m (snd s) in (r, (fst s, s2)).

(** ** SHA-256 ([hashlib.sha256], FIPS 180-4) on 32-bit words held in [Z] *)

Module SHA256.

Definition w32 (x : Z) : Z := Z.land x 4294967295.

Definition add32 (x y : Z) : Z := w32 (x + y).

Definition rotr (n x : Z) : Z :=
  Z.lor (Z.shiftr x n) (w32 (Z.shiftl x (32 - n))).

Definition Ch (x y z : Z) : Z :=
  Z.lxor (Z.land x y) (Z.land (Z.lxor x 4294967295) z).
Definition Maj (x y z : Z) : Z :=
  Z.lxor (Z.lxor (Z.land x y) (Z.land x z)) (Z.land y z).
Definition Sigma0 (x : Z) : Z :=
  Z.lxor (Z.lxor (rotr 2 x) (rotr 13 x)) (rotr 22 x).
Definition Sigma1 (x : Z) : Z :=
  Z.lxor (Z.lxor (rotr 6 x) (rotr 11 x)) (rotr 25 x).
Definition sigma0 (x : Z) : Z :=
  Z.lxor (Z.lxor (rotr 7 x) (rotr 18 x)) (Z.shiftr x 3).
Definition sigma1 (x : Z) : Z :=
  Z.lxor (Z.lxor (rotr 17 x) (rotr 19 x)) (Z.shiftr x 10).

(** Trial division on the candidates below [n]. *)
Definition is_prime (n : nat) : bool :=
  forallb (fun d => negb (Nat.eqb (Nat.modulo n d) 0)) (seq 2 (n - 2)).

(** The first sixty-four primes, 2 to 311. *)
Definition primes : list Z :=
  map Z.of_nat (filter is_prime (seq 2 310)).

(** The integer cube root of [n], built bit by bit below bit [b]. *)
Fixpoint cube_root (b : nat) (n r : Z) : Z :=
  match b with
  | O => r
  | S b' =>
      let t := r + 2 ^ Z.of_nat b' in
      cube_root b' n (if Z.leb (t * t * t) n then t else r)
  end.

(** The first 32 bits of the fractional part of a cube root and of a
    square root. *)
Definition frac_cbrt (p : Z) : Z := w32 (cube_root 36 (p * 2 ^ 96) 0).
Definition frac_sqrt (p : Z) : Z := w32 (Z.sqrt (p * 2 ^ 64)).

(** The round constants: from the cube roots of the primes. *)
Definition K : list Z := Eval vm_compute in map frac_cbrt primes.

(** The eight working variables / the chaining value. *)
Record regs : Type := mk_regs {
  ra : Z; rb : Z; rc : Z; rd : Z; re : Z; rf : Z; rg : Z; rh : Z
}.

(** The initial hash value: from the square roots of the first eight
    primes. *)
Definition H0 : regs :=
  Eval vm_compute in
    match map frac_sqrt (firstn 8 primes) with
    | [a; b; c; d; e; f; g; h] => mk_regs a b c d e f g h
    | _ => mk_regs 0 0 0 0 0 0 0 0
    end.

Definition byte_val (b : Byte.byte) : Z := Z.of_N (Byte.to_N b).

(** Big-endian bytes of [x], [n] of them. *)
Fixpoint be_bytes (n : nat) (x : Z) : list Z :=
  match n with
  | O => []
  | S n' => Z.land (Z.shiftr x (8 * Z.of_nat n')) 255 :: be_bytes n' x
  end.

(** Message padding: a one bit, zeros up to 56 mod 64, the bit length. *)
Definition pad (msg : list Byte.byte) : list Z :=
  let len := Z.of_nat (length msg) in
  let zeros := Z.to_nat ((55 - len) mod 64) in
  map byte_val msg ++ [128] ++ repeat 0 zeros ++ be_bytes 8 (8 * len).

(** Big-endian 32-bit words of a byte list. *)
Fixpoint words (fuel : nat) (bs : list Z) : list Z :=
  match fuel, bs with
  | S fuel', b0 :: b1 :: b2 :: b3 :: rest =>
      (Z.shiftl b0 24 + Z.shiftl b1 16 + Z.shiftl b2 8 + b3)
        :: words fuel' rest
  | _, _ => []
  end.

(** The message schedule, most recent word first. *)
Fixpoint extend (n : nat) (w : list Z) : list Z :=
  match n with
  | O => w
  | S n' =>
      let wt := add32 (add32 (sigma1 (nth 1 w 0)) (nth 6 w 0))
                      (add32 (sigma0 (nth 14 w 0)) (nth 15 w 0)) in
      extend n' (wt :: w)
  end.

Definition schedule (block : list Z) : list Z :=
  rev (extend 48 (rev block)).

Definition round (r : regs) (kw : Z * Z) : regs :=
  let '(k, w) := kw in
  let t1 := add32 (add32 (add32 (add32 (rh r) (Sigma1 (re r)))
                                (Ch (re r) (rf r) (rg r))) k) w in
  let t2 := add32 (Sigma0 (ra r)) (Maj (ra r) (rb r) (rc r)) in
  mk_regs (add32 t1 t2) (ra r) (rb r) (rc r)
          (add32 (rd r) t1) (re r) (rf r) (rg r).

Definition compress (h : regs) (block : list Z) : regs :=
  let r := fold_left round (combine K (schedule block)) h in
  mk_regs (add32 (ra h) (ra r)) (add32 (rb h) (rb r))
          (add32 (rc h) (rc r)) (add32 (rd h) (rd r))
          (add32 (re h) (re r)) (add32 (rf h) (rf r))
          (add32 (rg h) (rg r)) (add32 (rh h) (rh r)).

(** Consume the padded message sixteen words at a time. *)
Fixpoint blocks (fuel : nat) (h : regs) (ws : list Z) : regs :=
  match fuel, ws with
  | S fuel', _ :: _ => blocks fuel' (compress h (firstn 16 ws)) (skipn 16 ws)
  | _, _ => h
  end.

Definition digest (msg : list Byte.byte) : regs :=
  let bs := pad msg in
  let ws := words (length bs) bs in
  blocks (length ws) H0 ws.

Definition hex_digit (n : Z) : ascii :=
  if Z.ltb n 10 then ascii_of_N (Z.to_N (48 + n))
  else ascii_of_N (Z.to_N (87 + n)).

Definition nibble (x : Z) (i : Z) : ascii :=
  hex_digit (Z.land (Z.shiftr x (4 * i)) 15).

Definition hex8 (x : Z) (tail : string) : string :=
  String (nibble x 7) (String (nibble x 6) (String (nibble x 5)
  (String (nibble x 4) (String (nibble x 3) (String (nibble x 2)
  (String (nibble x 1) (String (nibble x 0) tail))))))).

(** [hashlib.sha256(msg).hexdigest()]. *)
Definition hexdigest (msg : list Byte.byte) : string :=
  let r := digest msg in
  hex8 (ra r) (hex8 (rb r) (hex8 (rc r) (hex8 (rd r)
  (hex8 (re r) (hex8 (rf r) (hex8 (rg r) (hex8 (rh r) ""))))))).

End SHA256.

(** ** The content fingerprint ([app/utils.py]) *)

Definition calculate_file_hash (file_content : pyval) : result string :=
  match file_content with
  | PNone => Raise (builtin_exn ValueError "file_content cannot be None")
  | PBytes bs => Ok (SHA256.hexdigest bs)
  | _ => Raise (builtin_exn ValueError "file_content must be bytes")
  end.

Definition bytes_of_string (s : string) : list Byte.byte := list_byte_of_string s.

(** ** Regular expressions ([re.search]) for the fragment the service uses

    A pattern is a sequence of atoms, matched by backtracking in Python's
    priority order: a greedy atom tries its longest match first, a
    reluctant one its shortest. *)

Module Re.

Inductive atom : Type :=
  | Lit (l : string)                 (* literal text *)
  | Opt (l : string)                 (* (?:l)?   greedy optional literal *)
  | Star (p : ascii -> bool)         (* [p]*     greedy repetition *)
  | GroupLazy (p : ascii -> bool).   (* ([p]*?)  the capturing group *)

Fixpoint drop_prefix (l s : string) : option string :=
  match l, s with
  | EmptyString, _ => Some s
  | String a l', String b s' =>
      if Ascii.eqb a b then drop_prefix l' s' else None
  | String _ _, EmptyString => None
  end.

(** Match [pat] at the start of [s]; [g] is the text captured so far.
    Returns the capture of the first successful alternative. *)
Fixpoint match_here (pat : list atom) (s : string) (g : string)
  {struct pat} : option string :=
  match pat with
  | [] => Some g
  | Lit l :: pat' =>
      match drop_prefix l s with
      | Some s' => match_here pat' s' g
      | None => None
      end
  | Opt l :: pat' =>
      match drop_prefix l s with
      | Some s' =>
          match match_here pat' s' g with
          | Some r => Some r
          | None => match_here pat' s g
          end
      | None => match_here pat' s g
      end
  | Star p :: pat' =>
      (fix greedy (s : string) : option string :=
         match s with
         | String c s' =>
             if p c then
               match greedy s' with
               | Some r => Some r
               | None => match_here pat' s g
               end
             else match_here pat' s g
         | EmptyString => match_here pat' s g
         end) s
  | GroupLazy p :: pat' =>
      (fix reluctant (acc : string) (s : string) : option string :=
         match match_here pat' s acc with
         | Some r => Some r
         | None =>
             match s with
             | String c s' =>
                 if p c then reluctant (acc +:+ String c EmptyString) s'
                 else None
             | EmptyString => None
             end
         end) EmptyString s
  end.

(** [re.search(pat, s)]: the leftmost start position that matches;
    the result is [match.group(1)]. *)
Fixpoint search (pat : list atom) (s : string) : option string :=
  match match_here pat s EmptyString with
  | Some g => Some g
  | None =>
      match s with
      | String _ s' => search pat s'
      | EmptyString => None
      end
  end.

End Re.

(** ** Cleaning the AI response ([clean_ai_response]) *)

(** [r'```(?:json)?\s*(.*?)\s*```'] under [re.DOTALL]. *)
Definition markdown_pattern : list Re.atom :=
  [ Re.Lit "```"; Re.Opt "json"; Re.Star PyStr.isspace;
    Re.GroupLazy (fun _ => true);
    Re.Star PyStr.isspace; Re.Lit "```" ].

Definition clean_ai_response (response_text : string) : string :=
  let cleaned_text := PyStr.strip response_text in
  match Re.search markdown_pattern cleaned_text with
  | Some group1 => PyStr.strip group1
  | None => cleaned_text
  end.

(** ** JSON text ([json.loads], [json.dumps]) *)

Module Json.

Definition chr (n : N) : ascii := ascii_of_N n.
Definition code (c : ascii) : Z := Z.of_N (N_of_ascii c).

Definition dquote : ascii := chr 34.
Definition backslash : ascii := chr 92.

(** The decoder's whitespace: space, tab, line feed, carriage return. *)
Definition is_ws (c : ascii) : bool :=
  let n := code c in
  Z.eqb n 32 || Z.eqb n 9 || Z.eqb n 10 || Z.eqb n 13.

Fixpoint skip_ws (s : string) : string :=
  match s with
  | String c s' => if is_ws c then skip_ws s' else s
  | EmptyString => EmptyString
  end.

Definition is_digit (c : ascii) : bool :=
  Z.leb 48 (code c) && Z.leb (code c) 57.

(** Leading decimal digits of [s]: their value, their number, the rest. *)
Fixpoint digits (s : string) (acc : Z) (n : Z) : Z * Z * string :=
  match s with
  | String c s' =>
      if is_digit c then digits s' (10 * acc + (code c - 48)) (n + 1)
      else (acc, n, s)
  | EmptyString => (acc, n, s)
  end.

(** m * 10^e as a rational. *)
Definition scale10 (m e : Z) : Q :=
  if Z.leb 0 e then inject_Z (m * 10 ^ e)
  else Qred (Qmake m (Z.to_pos (10 ^ (- e)))).

(** A number after its optional minus sign: int without fraction and
    exponent, float otherwise. A leading zero stands alone. *)
Definition parse_number (neg : bool) (s : string)
  : option (pyval * string) :=
  let sign (z : Z) := if neg then - z else z in
  match s with
  | String c0 _ =>
      if is_digit c0 then
        let '(ip, _, r1) :=
          if Z.eqb (code c0) 48
          then (0, 1, match s with String _ t => t | _ => s end)
          else digits s 0 0 in
        let '(fp, fn, r2, has_frac) :=
          match r1 with
          | String d t =>
              if Ascii.eqb d "." then
                let '(f, n, r) := digits t 0 0 in
                if Z.ltb 0 n then (f, n, r, true) else (0, 0, r1, false)
              else (0, 0, r1, false)
          | EmptyString => (0, 0, r1, false)
          end in
        let '(ex, r3, has_exp) :=
          match r2 with
          | String e t =>
              if Ascii.eqb e "e" || Ascii.eqb e "E" then
                let '(eneg, t') :=
                  match t with
                  | String sg u =>
                      if Ascii.eqb sg "-" then (true, u)
                      else if Ascii.eqb sg "+" then (false, u)
                      else (false, t)
                  | EmptyString => (false, t)
                  end in
                let '(x, n, r) := digits t' 0 0 in
                if Z.ltb 0 n
                then ((if eneg then - x else x), r, true)
                else (0, r2, false)
              else (0, r2, false)
          | EmptyString => (0, r2, false)
          end in
        if has_frac || has_exp
        then Some (PFloat (scale10 (sign (ip * 10 ^ fn + fp)) (ex - fn)), r3)
        else Some (PInt (sign ip), r3)
      else None
  | EmptyString => None
  end.

Definition hex_val (c : ascii) : option Z :=
  let n := code c in
  if Z.leb 48 n && Z.leb n 57 then Some (n - 48)
  else if Z.leb 97 n && Z.leb n 102 then Some (n - 87)
  else if Z.leb 65 n && Z.leb n 70 then Some (n - 55)
  else None.

(** The body of a string after its opening quote. Control characters
    are refused (strict mode); a [\uXXXX] escape is decoded when it
    names a code point below 256. *)
Fixpoint parse_string (s : string) : option (string * string) :=
  match s with
  | EmptyString => None
  | String c s' =>
      if Ascii.eqb c dquote then Some (EmptyString, s')
      else if Ascii.eqb c backslash then
        match s' with
        | String e s'' =>
            let simple (ch : ascii) :=
              match parse_string s'' with
              | Some (body, rest) => Some (String ch body, rest)
              | None => None
              end in
            if Ascii.eqb e dquote then simple dquote
            else if Ascii.eqb e backslash then simple backslash
            else if Ascii.eqb e "/" then simple "/"%char
            else if Ascii.eqb e "b" then simple (chr 8)
            else if Ascii.eqb e "f" then simple (chr 12)
            else if Ascii.eqb e "n" then simple (chr 10)
            else if Ascii.eqb e "r" then simple (chr 13)
            else if Ascii.eqb e "t" then simple (chr 9)
            else if Ascii.eqb e "u" then
              match s'' with
              | String h1 (String h2 (String h3 (String h4 t))) =>
                  match hex_val h1, hex_val h2, hex_val h3, hex_val h4 with
                  | Some 0, Some 0, Some a, Some b =>
                      match parse_string t with
                      | Some (body, rest) =>
                          Some (String (chr (Z.to_N (16 * a + b))) body, rest)
                      | None => None
                      end
                  | _, _, _, _ => None
                  end
              | _ => None
              end
            else None
        | EmptyString => None
        end
      else if Z.ltb (code c) 32 then None
      else
        match parse_string s' with
        | Some (body, rest) => Some (String c body, rest)
        | None => None
        end
  end.

(** One value at the start of [s] (no leading whitespace). Each nested
    value and each further element costs one unit of fuel. *)
Fixpoint parse_value (fuel : nat) (s : string) : option (pyval * string) :=
  match fuel with
  | O => None
  | S f =>
      match s with
      | EmptyString => None
      | String c rest =>
          if Ascii.eqb c dquote then
            match parse_string rest with
            | Some (body, r) => Some (PStr body, r)
            | None => None
            end
          else if Ascii.eqb c "{" then
            match skip_ws rest with
            | String "}" r => Some (PDict [], r)
            | r => parse_members f r []
            end
          else if Ascii.eqb c "[" then
            match skip_ws rest with
            | String "]" r => Some (PList [], r)
            | r => parse_elements f r []
            end
          else if Ascii.eqb c "-" then parse_number true rest
          else if is_digit c then parse_number false s
          else
            match Re.drop_prefix "null" s with
            | Some r => Some (PNone, r)
            | None =>
            match Re.drop_prefix "true" s with
            | Some r => Some (PBool true, r)
            | None =>
            match Re.drop_prefix "false" s with
            | Some r => Some (PBool false, r)
            | None => None
            end end end
      end
  end

(** The elements of an array after [[] or a comma, whitespace skipped. *)
with parse_elements (fuel : nat) (s : string) (acc : list pyval)
  : option (pyval * string) :=
  match fuel with
  | O => None
  | S f =>
      match parse_value f s with
      | Some (v, r) =>
          match skip_ws r with
          | String "," r' => parse_elements f (skip_ws r') (acc ++ [v])
          | String "]" r' => Some (PList (acc ++ [v]), r')
          | _ => None
          end
      | None => None
      end
  end

(** The members of an object after [{] or a comma, whitespace skipped.
    A repeated key keeps its first position and takes the last value. *)
with parse_members (fuel : nat) (s : string) (acc : list (string * pyval))
  : option (pyval * string) :=
  match fuel with
  | O => None
  | S f =>
      match s with
      | String c rest =>
          if Ascii.eqb c dquote then
            match parse_string rest with
            | Some (key, r) =>
                match skip_ws r with
                | String ":" r' =>
                    match parse_value f (skip_ws r') with
                    | Some (v, r'') =>
                        match skip_ws r'' with
                        | String "," r3 =>
                            parse_members f (skip_ws r3) (dict_set acc key v)
                        | String "}" r3 => Some (PDict (dict_set acc key v), r3)
                        | _ => None
                        end
                    | None => None
                    end
                | _ => None
                end
            | None => None
            end
          else None
      | EmptyString => None
      end
  end.

(** [json.loads(s)]: one value surrounded by whitespace, or
    [JSONDecodeError]. The non-finite literals [NaN] and [Infinity] have
    no rational value and are refused. *)
Definition loads (s : string) : result pyval :=
  match parse_value (S (String.length s)) (skip_ws s) with
  | Some (v, rest) =>
      match skip_ws rest with
      | EmptyString => Ok v
      | _ => Raise (builtin_exn JSONDecodeError "Extra data")
      end
  | None => Raise (builtin_exn JSONDecodeError "Expecting value")
  end.

End Json.

(** Write JSON text with apostrophes for the double quotes. *)
Fixpoint js (s : string) : string :=
  match s with
  | EmptyString => EmptyString
  | String c s' =>
      String (if Ascii.eqb c "'" then Json.dquote else c) (js s')
  end.

(** [json.dumps] *)

Module JsonDump.

(** [str(z)] for an integer. *)
Definition str_of_Z (z : Z) : string :=
  DecimalString.NilZero.string_of_int (Z.to_int z).

(** Smallest [k <= fuel] with [d] dividing [10^k], else [fuel]. *)
Fixpoint decimal_places (fuel : nat) (k : Z) (d : Z) : Z :=
  match fuel with
  | O => k
  | S f => if Z.eqb ((10 ^ k) mod d) 0 then k else decimal_places f (k + 1) d
  end.

Fixpoint zeros (n : nat) : string :=
  match n with O => EmptyString | S n' => String "0" (zeros n') end.

(** The decimal expansion of a float, always with a fractional part
    ([11.0], [9.99]); exponent notation is not produced. *)
Definition float_repr (q : Q) : string :=
  let q' := Qred q in
  let n := Qnum q' in
  let d := Zpos (Qden q') in
  let k := decimal_places (Pos.size_nat (Qden q')) 0 d in
  let scaled := Z.abs n * 10 ^ k / d in
  let ip := str_of_Z (scaled / 10 ^ k) in
  let fp := str_of_Z (scaled mod 10 ^ k) in
  let frac :=
    if Z.eqb k 0 then "0"
    else zeros (Z.to_nat k - String.length fp) +:+ fp in
  (if Z.ltb n 0 then "-" else "") +:+ ip +:+ "." +:+ frac.

Definition hex_digit (n : Z) : ascii :=
  if Z.ltb n 10 then ascii_of_N (Z.to_N (48 + n))
  else ascii_of_N (Z.to_N (87 + n)).

(** One character of a string under [ensure_ascii=True]. *)
Definition escape_char (c : ascii) : string :=
  let n := Json.code c in
  if Ascii.eqb c Json.dquote then String Json.backslash (String Json.dquote "")
  else if Ascii.eqb c Json.backslash
       then String Json.backslash (String Json.backslash "")
  else if Z.eqb n 10 then String Json.backslash "n"
  else if Z.eqb n 13 then String Json.backslash "r"
  else if Z.eqb n 9 then String Json.backslash "t"
  else if Z.eqb n 8 then String Json.backslash "b"
  else if Z.eqb n 12 then String Json.backslash "f"
  else if Z.ltb n 32 || Z.ltb 126 n
       then String Json.backslash
              (String "u" (String "0" (String "0"
                 (String (hex_digit (n / 16))
                    (String (hex_digit (n mod 16)) "")))))
  else String c "".

Fixpoint escape (s : string) : string :=
  match s with
  | EmptyString => EmptyString
  | String c s' => escape_char c +:+ escape s'
  end.

Definition quote (s : string) : string :=
  String Json.dquote (escape s +:+ String Json.dquote "").

(** [None] stands for [TypeError: Object of type ... is not JSON
    serializable], raised for [bytes] and [date] objects. *)
Fixpoint encode (v : pyval) : option string :=
  match v with
  | PNone => Some "null"
  | PBool true => Some "true"
  | PBool false => Some "false"
  | PInt z => Some (str_of_Z z)
  | PFloat q => Some (float_repr q)
  | PStr s => Some (quote s)
  | PBytes _ => None
  | PDate _ => None
  | PList xs =>
      option_map (String.append "[")
      ((fix elems (xs : list pyval) (first : bool) : option string :=
         match xs with
         | [] => Some "]"
         | x :: rest =>
             match encode x, elems rest false with
             | Some sx, Some sr =>
                 Some ((if first then "" else ", ") +:+ sx +:+ sr)
             | _, _ => None
             end
         end) xs true)
  | PDict kvs =>
      option_map (String.append "{")
      ((fix members (kvs : list (string * pyval)) (first : bool)
         : option string :=
         match kvs with
         | [] => Some "}"
         | (k, x) :: rest =>
             match encode x, members rest false with
             | Some sx, Some sr =>
                 Some ((if first then "" else ", ")
                       +:+ quote k +:+ ": " +:+ sx +:+ sr)
             | _, _ => None
             end
         end) kvs true)
  end.

Definition dumps (v : pyval) : result string :=
  match encode v with
  | Some s => Ok s
  | None =>
      Raise (builtin_exn TypeError "Object is not JSON serializable")
  end.

End JsonDump.

(** ** The schemas ([app/schemas.py]) and their pydantic validation

    Validation runs in pydantic's default (lax) mode: a [str] field takes
    only a string; a [float] field takes a float, an int, a bool or a
    string that spells a number; an [Optional] field also takes [None];
    unknown keys are ignored; a missing field takes its default or is an
    error. Of the inputs a [date] field accepts, [None], a date object and
    an ISO [YYYY-MM-DD] string are modelled. The text of a
    [ValidationError] is not modelled: its message names the first
    offending field. *)

Module Schema.

Record ExtractedItem : Type := mk_item {
  description : string;
  quantity : Q;
  unit_price : Q;
  total_price : Q
}.

(** [InvoiceData] and [ExtractionResponse] declare the same fields. *)
Record InvoiceData : Type := mk_invoice {
  invoice_number : string;
  invoice_date : option date;
  due_date : option date;
  vendor_name : string;
  vendor_address : option string;
  customer_name : option string;
  customer_address : option string;
  subtotal : Q;
  tax : Q;
  total : Q;
  currency : string;
  items : list ExtractedItem
}.

Definition ExtractionResponse : Type := InvoiceData.

Definition invalid {A} (field : string) : result A :=
  Raise (builtin_exn ValidationError field).

(** A string that spells a decimal number: optional sign, digits with
    an optional fraction (one side of the point may be empty), optional
    exponent; surrounding whitespace is dropped. *)
Definition float_of_string (s : string) : option Q :=
  let t := PyStr.strip s in
  let '(neg, t1) :=
    match t with
    | String c r =>
        if Ascii.eqb c "-" then (true, r)
        else if Ascii.eqb c "+" then (false, r) else (false, t)
    | EmptyString => (false, t)
    end in
  let '(ip, inum, r1) := Json.digits t1 0 0 in
  let '(fp, fnum, r2) :=
    match r1 with
    | String c r =>
        if Ascii.eqb c "." then Json.digits r 0 0 else (0, 0, r1)
    | EmptyString => (0, 0, r1)
    end in
  if Z.eqb (inum + fnum) 0 then None else
  let finish (ex : Z) :=
    let m := ip * 10 ^ fnum + fp in
    Some (Json.scale10 (if neg then - m else m) (ex - fnum)) in
  match r2 with
  | EmptyString => finish 0
  | String c r =>
      if Ascii.eqb c "e" || Ascii.eqb c "E" then
        let '(eneg, r') :=
          match r with
          | String sg u =>
              if Ascii.eqb sg "-" then (true, u)
              else if Ascii.eqb sg "+" then (false, u) else (false, r)
          | EmptyString => (false, r)
          end in
        let '(x, n, rest) := Json.digits r' 0 0 in
        match rest with
        | EmptyString =>
            if Z.ltb 0 n then finish (if eneg then - x else x) else None
        | _ => None
        end
      else None
  end.

Definition validate_float (field : string) (v : option pyval) : result Q :=
  match v with
  | Some (PFloat q) => Ok q
  | Some (PInt z) => Ok (inject_Z z)
  | Some (PBool b) => Ok (inject_Z (if b then 1 else 0))
  | Some (PStr s) =>
      match float_of_string s with
      | Some q => Ok q
      | None => invalid field
      end
  | _ => invalid field
  end.

Definition validate_str (field : string) (v : option pyval)
  : result string :=
  match v with
  | Some (PStr s) => Ok s
  | _ => invalid field
  end.

Definition validate_str_default (field : string) (default : string)
    (v : option pyval) : result string :=
  match v with
  | None => Ok default
  | Some (PStr s) => Ok s
  | Some _ => invalid field
  end.

Definition validate_opt_str (field : string) (v : option pyval)
  : result (option string) :=
  match v with
  | None | Some PNone => Ok None
  | Some (PStr s) => Ok (Some s)
  | Some _ => invalid field
  end.

Definition is_leap (y : Z) : bool :=
  (Z.eqb (y mod 4) 0 && negb (Z.eqb (y mod 100) 0)) || Z.eqb (y mod 400) 0.

Definition days_in_month (y m : Z) : Z :=
  if Z.eqb m 2 then (if is_leap y then 29 else 28)
  else if Z.eqb m 4 || Z.eqb m 6 || Z.eqb m 9 || Z.eqb m 11 then 30
  else 31.

(** [YYYY-MM-DD] naming a day of the proleptic Gregorian calendar. *)
Definition date_of_string (s : string) : option date :=
  let '(y, yn, r1) := Json.digits s 0 0 in
  match r1 with
  | String "-" r1' =>
      let '(m, mn, r2) := Json.digits r1' 0 0 in
      match r2 with
      | String "-" r2' =>
          let '(d, dn, r3) := Json.digits r2' 0 0 in
          match r3 with
          | EmptyString =>
              if Z.eqb yn 4 && Z.eqb mn 2 && Z.eqb dn 2
                 && Z.leb 1 y && Z.leb 1 m && Z.leb m 12
                 && Z.leb 1 d && Z.leb d (days_in_month y m)
              then Some (mk_date y m d) else None
          | _ => None
          end
      | _ => None
      end
  | _ => None
  end.

Definition validate_opt_date (field : string) (v : option pyval)
  : result (option date) :=
  match v with
  | None | Some PNone => Ok None
  | Some (PDate d) => Ok (Some d)
  | Some (PStr s) =>
      match date_of_string s with
      | Some d => Ok (Some d)
      | None => invalid field
      end
  | Some _ => invalid field
  end.

Definition rbind {A B} (r : result A) (k : A -> result B) : result B :=
  match r with
  | Ok a => k a
  | Raise e => Raise e
  end.

Definition validate_item (v : pyval) : result ExtractedItem :=
  match v with
  | PDict kvs =>
      rbind (validate_str "items.description" (dict_get kvs "description"))
        (fun d =>
      rbind (validate_float "items.quantity" (dict_get kvs "quantity"))
        (fun q =>
      rbind (validate_float "items.unit_price" (dict_get kvs "unit_price"))
        (fun u =>
      rbind (validate_float "items.total_price" (dict_get kvs "total_price"))
        (fun t => Ok (mk_item d q u t)))))
  | _ => invalid "items"
  end.

Fixpoint validate_item_list (xs : list pyval) : result (list ExtractedItem) :=
  match xs with
  | [] => Ok []
  | x :: rest =>
      rbind (validate_item x) (fun i =>
      rbind (validate_item_list rest) (fun r => Ok (i :: r)))
  end.

Definition validate_items (v : option pyval) : result (list ExtractedItem) :=
  match v with
  | None => Ok []
  | Some (PList xs) => validate_item_list xs
  | Some _ => invalid "items"
  end.

(** The constructor called with [data] unpacked as keyword arguments:
    a [TypeError] when [data] is not a mapping, a [ValidationError] when
    a field is missing or ill-typed. *)
Definition validate (data : pyval) : result InvoiceData :=
  match data with
  | PDict kvs =>
      let get := dict_get kvs in
      rbind (validate_str "invoice_number" (get "invoice_number")) (fun a =>
      rbind (validate_opt_date "invoice_date" (get "invoice_date")) (fun b =>
      rbind (validate_opt_date "due_date" (get "due_date")) (fun c =>
      rbind (validate_str "vendor_name" (get "vendor_name")) (fun d =>
      rbind (validate_opt_str "vendor_address" (get "vendor_address")) (fun e =>
      rbind (validate_opt_str "customer_name" (get "customer_name")) (fun f =>
      rbind (validate_opt_str "customer_address" (get "customer_address")) (fun g =>
      rbind (validate_float "subtotal" (get "subtotal")) (fun h =>
      rbind (validate_float "tax" (get "tax")) (fun i =>
      rbind (validate_float "total" (get "total")) (fun j =>
      rbind (validate_str_default "currency" "USD" (get "currency")) (fun k =>
      rbind (validate_items (get "items")) (fun l =>
      Ok (mk_invoice a b c d e f g h i j k l)))))))))))))
  | _ =>
      Raise (builtin_exn TypeError "argument after double star must be a mapping")
  end.

Definition dump_opt_str (o : option string) : pyval :=
  match o with Some s => PStr s | None => PNone end.

Definition dump_opt_date (o : option date) : pyval :=
  match o with Some d => PDate d | None => PNone end.

Definition dump_item (i : ExtractedItem) : pyval :=
  PDict [ ("description", PStr (description i));
          ("quantity", PFloat (quantity i));
          ("unit_price", PFloat (unit_price i));
          ("total_price", PFloat (total_price i)) ].

(** [model_dump()] in Python mode: dates stay [date] objects. *)
Definition model_dump (r : InvoiceData) : pyval :=
  PDict [ ("invoice_number", PStr (invoice_number r));
          ("invoice_date", dump_opt_date (invoice_date r));
          ("due_date", dump_opt_date (due_date r));
          ("vendor_name", PStr (vendor_name r));
          ("vendor_address", dump_opt_str (vendor_address r));
          ("customer_name", dump_opt_str (customer_name r));
          ("customer_address", dump_opt_str (customer_address r));
          ("subtotal", PFloat (subtotal r));
          ("tax", PFloat (tax r));
          ("total", PFloat (total r));
          ("currency", PStr (currency r));
          ("items", PList (map dump_item (items r))) ].

End Schema.

(** ** The outside world

    Everything the service does not own: the wall clock, the Gemini model,
    the OCR engine, the Redis server and the temporary directory. Each
    collaborator is an oracle indexed by the number of calls made so far,
    so any behaviour over time can be chosen. *)

(** What [model.generate_content(prompt)] followed by [response.text]
    yields: a text (an absent text counts as the empty one, both are
    falsy) or an exception. *)
Inductive gen_reply : Type :=
  | GenText (text : string)
  | GenRaises (e : exn).

Record World : Type := mk_world {
  clock : nat -> Z;              (* k-th [datetime.now()], in microseconds *)
  clock_reads : nat;
  gemini : nat -> string -> gen_reply;
  gemini_calls : nat;
  ocr_engine : nat -> string -> list Byte.byte -> result string;
  ocr_calls : nat;
  redis_up : nat -> bool;        (* does the k-th round trip get through *)
  redis_ops : nat;
  redis_store : gmap string (Z * string);   (* key -> (ttl, value) *)
  slept : list Z;                (* seconds passed to each backoff sleep *)
  temp_files : nat               (* temporary files currently on disk *)
}.

Definition set_clock_reads (n : nat) (w : World) : World :=
  mk_world (clock w) n (gemini w) (gemini_calls w) (ocr_engine w)
           (ocr_calls w) (redis_up w) (redis_ops w) (redis_store w)
           (slept w) (temp_files w).

Definition set_gemini_calls (n : nat) (w : World) : World :=
  mk_world (clock w) (clock_reads w) (gemini w) n (ocr_engine w)
           (ocr_calls w) (redis_up w) (redis_ops w) (redis_store w)
           (slept w) (temp_files w).

Definition set_ocr_calls (n : nat) (w : World) : World :=
  mk_world (clock w) (clock_reads w) (gemini w) (gemini_calls w)
           (ocr_engine w) n (redis_up w) (redis_ops w) (redis_store w)
           (slept w) (temp_files w).

Definition set_redis_ops (n : nat) (w : World) : World :=
  mk_world (clock w) (clock_reads w) (gemini w) (gemini_calls w)
           (ocr_engine w) (ocr_calls w) (redis_up w) n (redis_store w)
           (slept w) (temp_files w).

Definition set_redis_store (m : gmap string (Z * string)) (w : World)
  : World :=
  mk_world (clock w) (clock_reads w) (gemini w) (gemini_calls w)
           (ocr_engine w) (ocr_calls w) (redis_up w) (redis_ops w) m
           (slept w) (temp_files w).

Definition set_slept (l : list Z) (w : World) : World :=
  mk_world (clock w) (clock_reads w) (gemini w) (gemini_calls w)
           (ocr_engine w) (ocr_calls w) (redis_up w) (redis_ops w)
           (redis_store w) l (temp_files w).

Definition set_temp_files (n : nat) (w : World) : World :=
  mk_world (clock w) (clock_reads w) (gemini w) (gemini_calls w)
           (ocr_engine w) (ocr_calls w) (redis_up w) (redis_ops w)
           (redis_store w) (slept w) n.

(** [datetime.now()]. *)
Definition datetime_now : M World Z :=
  fun w => (Ok (clock w (clock_reads w)), set_clock_reads (S (clock_reads w)) w).

(** [model.generate_content(prompt)] and the read of [response.text]. *)
Definition generate_content (prompt : string) : M World string :=
  fun w =>
    let w' := set_gemini_calls (S (gemini_calls w)) w in
    match gemini w (gemini_calls w) prompt with
    | GenText t => (Ok t, w')
    | GenRaises e => (Raise e, w')
    end.

(** The sleep between two attempts. *)
Definition sleep (seconds : Z) : M World unit :=
  fun w => (Ok tt, set_slept (slept w ++ [seconds]) w).

(** One network round trip to the Redis server. *)
Definition redis_roundtrip : M World unit :=
  fun w =>
    let w' := set_redis_ops (S (redis_ops w)) w in
    if redis_up w (redis_ops w) then (Ok tt, w')
    else (Raise (builtin_exn ConnectionError "Error connecting to Redis"), w').

Definition redis_ping : M World unit := redis_roundtrip.

(** [client.get(key)]: the stored value or [None]. *)
Definition redis_get (key : string) : M World (option string) :=
  let* _ := redis_roundtrip in
  fun w => (Ok (snd <$> redis_store w !! key), w).

(** [client.setex(key, ttl, value)]. *)
Definition redis_setex (key : string) (ttl : Z) (value : string)
  : M World bool :=
  let* _ := redis_roundtrip in
  fun w => (Ok true, set_redis_store (<[key := (ttl, value)]> (redis_store w)) w).

(** [client.exists(key)]: the number of keys found. *)
Definition redis_exists (key : string) : M World Z :=
  let* _ := redis_roundtrip in
  fun w => (Ok (match redis_store w !! key with Some _ => 1 | None => 0 end), w).

(** ** Object state next to the world

    A method of an object with mutable attributes runs on the pair of the
    object and the world. *)

Definition self_get {S W} : M (S * W) S := fun s => (Ok (fst s), s).

Definition self_modify {S W} (f : S -> S) : M (S * W) unit :=
  fun s => (Ok tt, (f (fst s), snd s)).

(** Run a method of the attribute selected by [get]/[set]. *)
Definition zoom {G S W A} (get : G -> S) (set : S -> G -> G)
    (m : M (S * W) A) : M (G * W) A :=
  fun s =>
    let '(r, s') := m (get (fst s), snd s) in
    (r, (set (fst s') (fst s), snd s')).

Definition lift_result {S A} (r : result A) : M S A := fun s => (r, s).

(** ** The result cache ([app/services/cache_service.py]) *)

Module CacheService.

(** [_redis_client]: whether the client object has been created. *)
Record t : Type := mk { _redis_client : bool }.

(** [CacheService()]. *)
Definition init : t := mk false.

Definition St : Type := (t * World)%type.

(** The client is stored before the connection is tested. *)
Definition _get_client : M St unit :=
  let* self := self_get in
  if _redis_client self then ret tt
  else
    try_except
      (let* _ := self_modify (fun _ => mk true) in
       on_snd redis_ping)
      [ ([Exception], fun e =>
           raise (mk_CacheError ("Redis connection failed: " +:+ str_of_exn e))) ].

(** [get(key)]: the decoded value, or [None] on a miss and on any
    error. *)
Definition get (key : string) : M St pyval :=
  try_except
    (let* _ := _get_client in
     let* value := on_snd (redis_get key) in
     match value with
     | Some v =>
         if PyStr.nonempty v then lift_result (Json.loads v)
         else ret PNone
     | None => ret PNone
     end)
    [ ([Exception], fun _ => ret PNone) ].

(** [set(key, value)] with the 24-hour time to live. *)
Definition set (key : string) (value : pyval) : M St bool :=
  try_except
    (let* _ := _get_client in
     let* json_value := lift_result (JsonDump.dumps value) in
     let* result := on_snd (redis_setex key 86400 json_value) in
     if result then ret true else ret false)
    [ ([Exception], fun _ => ret false) ].

(** [check(key)]. *)
Definition check (key : string) : M St bool :=
  try_except
    (let* _ := _get_client in
     let* exists_ := on_snd (redis_exists key) in
     ret (negb (Z.eqb exists_ 0)))
    [ ([Exception], fun _ => ret false) ].

End CacheService.

(** ** The circuit breaker ([CircuitBreaker] in [ai_service.py]) *)

Inductive cb_state : Type := CLOSED | OPEN | HALF_OPEN.

Definition cb_state_eqb (a b : cb_state) : bool :=
  match a, b with
  | CLOSED, CLOSED | OPEN, OPEN | HALF_OPEN, HALF_OPEN => true
  | _, _ => false
  end.

Module CircuitBreaker.

Record t : Type := mk {
  failure_threshold : Z;
  timeout : Z;                          (* seconds *)
  expected_exception : list exn_class;
  failure_count : Z;
  last_failure_time : option Z;         (* microseconds *)
  state : cb_state
}.

(** [CircuitBreaker(failure_threshold, timeout, expected_exception)]. *)
Definition init (failure_threshold timeout : Z)
    (expected_exception : list exn_class) : t :=
  mk failure_threshold timeout expected_exception 0 None CLOSED.

Definition set_state (s : cb_state) (self : t) : t :=
  mk (failure_threshold self) (timeout self) (expected_exception self)
     (failure_count self) (last_failure_time self) s.

Definition set_failure_count (n : Z) (self : t) : t :=
  mk (failure_threshold self) (timeout self) (expected_exception self)
     n (last_failure_time self) (state self).

Definition set_last_failure_time (o : option Z) (self : t) : t :=
  mk (failure_threshold self) (timeout self) (expected_exception self)
     (failure_count self) o (state self).

Definition St : Type := (t * World)%type.

(** [timedelta(seconds=n)] in microseconds. *)
Definition timedelta_seconds (n : Z) : Z := n * 1000000.

Definition _should_attempt_reset : M St bool :=
  let* self := self_get in
  match last_failure_time self with
  | None => ret true
  | Some last =>
      let* now := on_snd datetime_now in
      ret (Z.ltb (timedelta_seconds (timeout self)) (now - last))
  end.

Definition _on_success : M St unit :=
  let* _ := self_modify (set_failure_count 0) in
  self_modify (set_state CLOSED).

Definition _on_failure : M St unit :=
  let* _ := self_modify (fun self =>
              set_failure_count (failure_count self + 1) self) in
  let* now := on_snd datetime_now in
  let* _ := self_modify (set_last_failure_time (Some now)) in
  let* self := self_get in
  if Z.leb (failure_threshold self) (failure_count self)
  then self_modify (set_state OPEN)
  else ret tt.

(** The first statement of [call]: fail fast or let the call through. *)
Definition gate : M St unit :=
  let* self := self_get in
  if cb_state_eqb (state self) OPEN then
    let* reset := _should_attempt_reset in
    if reset then self_modify (set_state HALF_OPEN)
    else raise (mk_CircuitBreakerOpenError "AI Service")
  else ret tt.

(** [call(func, ...)]: [func] runs on the world and has no access to the
    breaker. *)
Definition call {A} (func : M World A) : M St A :=
  let* _ := gate in
  let* self := self_get in
  try_except
    (let* result := on_snd func in
     let* _ := _on_success in
     ret result)
    [ (expected_exception self, fun e =>
         let* _ := _on_failure in
         raise e) ].

End CircuitBreaker.

(** ** Retrying ([tenacity.retry] with [reraise=True]) *)

Module Tenacity.

(** [wait_exponential(multiplier, min, max)] at a given attempt. *)
Definition wait_exponential (multiplier min max : Z) (attempt_number : Z)
  : Z :=
  Z.max (Z.max 0 min) (Z.min (multiplier * 2 ^ (attempt_number - 1)) max).

(** Call [fn]; when it raises an exception of a class in [retry_on] and
    attempts are left, sleep and call again; otherwise the exception of
    the last attempt propagates unchanged. [left] counts the attempts
    still allowed, this one included. *)
Fixpoint retrying {A} (left : nat) (attempt_number : Z) (wait : Z -> Z)
    (retry_on : list exn_class) (fn : M World A) : M World A :=
  fun w =>
    match fn w with
    | (Ok a, w') => (Ok a, w')
    | (Raise e, w') =>
        if isinstance_any e retry_on then
          match left with
          | S (S _ as left') =>
              (let* _ := sleep (wait attempt_number) in
               retrying left' (attempt_number + 1) wait retry_on fn) w'
          | _ => (Raise e, w')
          end
        else (Raise e, w')
    end.

(** [@retry(stop=stop_after_attempt(n), wait=..., retry=
    retry_if_exception_type(classes), reraise=True)]. *)
Definition retry {A} (stop_after_attempt : nat) (wait : Z -> Z)
    (retry_on : list exn_class) (fn : M World A) : M World A :=
  retrying stop_after_attempt 1 wait retry_on fn.

End Tenacity.

(** ** The prompt builder ([app/prompts/invoice_prompts.py]) *)

Module PromptManager.

Definition template_head : string := "
You are an expert at extracting structured data from invoice text. 
Please extract the following information from the given invoice text and return it in JSON format:

- invoice_number: The invoice or document number
- invoice_date: Date of the invoice (format: YYYY-MM-DD)
- due_date: Payment due date (format: YYYY-MM-DD)  
- vendor_name: Name of the vendor/supplier
- vendor_address: Vendor's address
- customer_name: Customer name
- customer_address: Customer address
- subtotal: Subtotal amount (numeric)
- tax: Tax amount (numeric)
- total: Total amount (numeric)
- currency: Currency code (e.g., USD, EUR)
- items: Array of line items with description, quantity, unit_price, total_price

If any field is not found or unclear, return null for that field.

Invoice Text:
".

Definition template_mid : string := "

".

Definition template_tail : string := "

Response (valid JSON only):
".

Definition newline : string := String (ascii_of_N 10) EmptyString.

(** The loop over [enumerate(table_data["tables"])]; each table is given
    by its [str()]. *)
Fixpoint table_lines (i : Z) (tables : list string) : string :=
  match tables with
  | [] => ""
  | table :: rest =>
      "Table " +:+ JsonDump.str_of_Z (i + 1) +:+ ":" +:+ newline
      +:+ table +:+ newline +:+ table_lines (i + 1) rest
  end.

(** [table_data] is [None], or holds the list under its ["tables"] key
    (empty when the key is missing). *)
Definition get_extraction_prompt (invoice_text : string)
    (table_data : option (list string)) : string :=
  let table_section :=
    match table_data with
    | Some (t :: ts) =>
        newline +:+ "Table Data:" +:+ newline +:+ table_lines 0 (t :: ts)
    | _ => ""
    end in
  template_head +:+ invoice_text +:+ template_mid +:+ table_section
  +:+ template_tail.

End PromptManager.

(** ** The AI service ([AIService] in [ai_service.py]) *)

Module AIService.

Record t : Type := mk { circuit_breaker : CircuitBreaker.t }.

Definition St : Type := (t * World)%type.

(** [AIService()]: refuses to start without an API key. *)
Definition init (google_api_key : string) : result t :=
  if negb (PyStr.nonempty google_api_key)
  then Raise (mk_AiServiceError "Google API key not configured" None)
  else Ok (mk (CircuitBreaker.init 5 60 [AiServiceError; Exception])).

(** The body of [_call_gemini_api], one attempt. *)
Definition _call_gemini_api_once (prompt : string) : M World string :=
  try_except
    (let* text := generate_content prompt in
     if negb (PyStr.nonempty text)
     then raise (mk_AiServiceError "Empty response from Gemini API" None)
     else ret (PyStr.strip text))
    [ ([Exception], fun e =>
         if _is_transient_error e
         then raise (mk_AiServiceError
                       ("Transient error from Gemini API: " +:+ str_of_exn e)
                       None)
         else raise (mk_AiServiceError
                       ("Permanent error from Gemini API: " +:+ str_of_exn e)
                       None)) ].

(** [_call_gemini_api] as decorated. *)
Definition _call_gemini_api (prompt : string) : M World string :=
  Tenacity.retry 3 (Tenacity.wait_exponential 1 4 10) [AiServiceError]
                 (_call_gemini_api_once prompt).

(** [not s or not s.strip()]. *)
Definition blank (s : string) : bool :=
  negb (PyStr.nonempty s) || negb (PyStr.nonempty (PyStr.strip s)).

(** The inner [try] of [get_structured_data]: clean, parse, validate. *)
Definition normalize {S} (response_text : string)
  : M S Schema.InvoiceData :=
  try_except
    (let cleaned_response := clean_ai_response response_text in
     let* extracted_data := lift_result (Json.loads cleaned_response) in
     try_except
       (lift_result (Schema.validate extracted_data))
       [ ([Exception], fun validation_error =>
            raise (mk_AiServiceError
                     "AI response data failed validation"
                     (Some ("Validation error: "
                            +:+ str_of_exn validation_error)))) ])
    [ ([JSONDecodeError], fun e =>
         raise (mk_AiServiceError
                  "Failed to parse structured data from AI response"
                  (Some ("JSON parse error: " +:+ str_of_exn e)))) ].

Definition on_breaker {A} (m : M CircuitBreaker.St A) : M St A :=
  zoom circuit_breaker (fun cb _ => mk cb) m.

Definition get_structured_data (text : string)
    (table_data : option (list string)) : M St Schema.InvoiceData :=
  if blank text
  then raise (mk_AiServiceError "Empty or invalid invoice text provided" None)
  else
    let prompt := PromptManager.get_extraction_prompt text table_data in
    try_except
      (let* response_text :=
         on_breaker (CircuitBreaker.call (_call_gemini_api prompt)) in
       if blank response_text
       then raise (mk_AiServiceError "Empty response from AI service" None)
       else normalize response_text)
      [ ([CircuitBreakerOpenError], fun e => raise e);
        ([AiServiceError], fun e => raise e);
        ([Exception], fun e =>
           raise (mk_AiServiceError
                    ("Unexpected error: " +:+ str_of_exn e) None)) ].

End AIService.

(** ** The OCR collaborator ([extract_text] in [ocr_service.py])

    The format check is the service's; the engines behind it are the
    oracle. The file is given by its suffix and its content. *)

Definition supported_extensions : list string :=
  [".pdf"; ".png"; ".jpg"; ".jpeg"].

Definition str_mem (x : string) (l : list string) : bool :=
  existsb (String.eqb x) l.

Definition extract_text (suffix : string) (content : list Byte.byte)
  : M World string :=
  fun w =>
    let w' := set_ocr_calls (S (ocr_calls w)) w in
    if negb (str_mem (PyStr.lower suffix) supported_extensions)
    then (Raise (mk_FileProcessingError
                   ("Unsupported file format: " +:+ suffix) None), w')
    else (ocr_engine w (ocr_calls w) suffix content, w').

(** ** The [/extract] endpoint ([app/api/v1/endpoints.py]) *)

Module Endpoints.

Definition SUPPORTED_FILE_TYPES : list string :=
  ["application/pdf"; "image/png"; "image/jpeg"; "image/jpg"].

Definition MAX_FILE_SIZE : Z := 10 * 1024 * 1024.

(** The module-level singletons and the configured API key. *)
Record Globals : Type := mk_globals {
  cache_service : CacheService.t;
  ai_service : option AIService.t;
  google_api_key : string
}.

Definition St : Type := (Globals * World)%type.

Definition on_cache {A} (m : M CacheService.St A) : M St A :=
  zoom cache_service
       (fun c g => mk_globals c (ai_service g) (google_api_key g)) m.

(** [get_ai_service()]: create the service on first use. *)
Definition get_ai_service : M St AIService.t :=
  let* g := self_get in
  match ai_service g with
  | Some svc => ret svc
  | None =>
      let* svc := lift_result (AIService.init (google_api_key g)) in
      let* _ := self_modify (fun g =>
                  mk_globals (cache_service g) (Some svc) (google_api_key g)) in
      ret svc
  end.

(** A method call on the AI service singleton, once it exists. *)
Definition on_ai {A} (svc : AIService.t) (m : M AIService.St A) : M St A :=
  zoom (fun g => match ai_service g with Some s => s | None => svc end)
       (fun s g => mk_globals (cache_service g) (Some s) (google_api_key g))
       m.

(** The uploaded file: [content_type], [filename], and what [read()]
    returns. *)
Record UploadFile : Type := mk_upload {
  content_type : option string;
  filename : option string;
  content : list Byte.byte
}.

(** [s.split('.')[-1]]: the text after the last dot, all of [s] when
    there is none. *)
Fixpoint after_last_dot (s : string) : string :=
  match s with
  | EmptyString => EmptyString
  | String c s' =>
      if PyStr.contains "." s' then after_last_dot s'
      else if Ascii.eqb c "." then s'
      else s
  end.

Definition ext_to_mime (file_ext : string) : option string :=
  if String.eqb file_ext "pdf" then Some "application/pdf"
  else if String.eqb file_ext "png" then Some "image/png"
  else if String.eqb file_ext "jpg" then Some "image/jpeg"
  else if String.eqb file_ext "jpeg" then Some "image/jpeg"
  else None.

Definition opt_eqb (o : option string) (s : string) : bool :=
  match o with Some x => String.eqb x s | None => false end.

(** The content type the validation uses: guessed from the file name
    when the client sent [multipart/form-data]. *)
Definition detect_content_type (file : UploadFile) : option string :=
  match filename file with
  | Some name =>
      if opt_eqb (content_type file) "multipart/form-data"
         && PyStr.nonempty name
      then
        let file_ext :=
          if PyStr.contains "." name
          then after_last_dot (PyStr.lower name) else "" in
        match ext_to_mime file_ext with
        | Some m => Some m
        | None => content_type file
        end
      else content_type file
  | None => content_type file
  end.

Definition str_of_opt (o : option string) : string :=
  match o with Some s => s | None => "None" end.

(** The suffix of the temporary file, from the declared content type. *)
Definition file_extension (file : UploadFile) : string :=
  if opt_eqb (content_type file) "application/pdf" then ".pdf"
  else if opt_eqb (content_type file) "image/png" then ".png"
  else if opt_eqb (content_type file) "image/jpeg"
          || opt_eqb (content_type file) "image/jpg" then ".jpg"
  else "".

Definition create_temp_file : M St unit :=
  on_snd (fun w => (Ok tt, set_temp_files (S (temp_files w)) w)).

(** The [finally] clause: unlink the temporary file if one was made. *)
Definition cleanup (before : nat) (s : St) : St :=
  if Nat.ltb before (temp_files (snd s))
  then (fst s, set_temp_files (Nat.pred (temp_files (snd s))) (snd s))
  else s.

(** The first [try] block: size check, fingerprint, cache lookup.
    [Some r] is the early [return] on a cache hit, [None] falls
    through with the fingerprint. *)
Definition read_and_lookup (file : UploadFile)
  : M St (option Schema.ExtractionResponse * string) :=
  try_except
    (let file_content := content file in
     let file_size := Z.of_nat (length file_content) in
     if Z.ltb MAX_FILE_SIZE file_size
     then raise (mk_FileProcessingError
                   ("File too large. Maximum size allowed: "
                    +:+ JsonDump.str_of_Z (MAX_FILE_SIZE / (1024 * 1024))
                    +:+ "MB")
                   (Some ("File size: " +:+ JsonDump.str_of_Z file_size
                          +:+ " bytes")))
     else
       let* file_hash := lift_result (calculate_file_hash (PBytes file_content)) in
       let* cached_result := on_cache (CacheService.get file_hash) in
       if truthy cached_result
       then
         let* r := lift_result (Schema.validate cached_result) in
         ret (Some r, file_hash)
       else ret (None, file_hash))
    [ ([FileProcessingError], fun e => raise e);
      ([Exception], fun e =>
         raise (mk_FileProcessingError "Error reading uploaded file"
                                       (Some (str_of_exn e)))) ].

(** The second [try] block: OCR, AI, cache store. *)
Definition process (file : UploadFile) (file_hash : string)
  : M St Schema.ExtractionResponse :=
  fun s0 =>
    try_finally
      (try_except
         (let* _ := create_temp_file in
          let* extracted_text :=
            on_snd (extract_text (file_extension file) (content file)) in
          try_except
            (let* svc := get_ai_service in
             let* structured_data :=
               on_ai svc (AIService.get_structured_data extracted_text None) in
             let response_data : Schema.ExtractionResponse := structured_data in
             let cache_data := Schema.model_dump response_data in
             let* _ := on_cache (CacheService.set file_hash cache_data) in
             ret response_data)
            [ ([AiServiceError], fun e => raise e) ])
         [ ([InvalidFileTypeError; FileProcessingError; OcrError;
             AiServiceError], fun e => raise e);
           ([Exception], fun e =>
              raise (mk_OcrError "Failed to process file"
                                 (Some (str_of_exn e)))) ])
      (cleanup (temp_files (snd s0)))
      s0.

(** [POST /extract]. *)
Definition extract_invoice_text (file : UploadFile)
  : M St Schema.ExtractionResponse :=
  let actual_content_type := detect_content_type file in
  if negb (match actual_content_type with
           | Some t => str_mem t SUPPORTED_FILE_TYPES
           | None => false
           end)
  then raise (mk_InvalidFileTypeError (str_of_opt actual_content_type)
                                      SUPPORTED_FILE_TYPES)
  else
    let* hit := read_and_lookup file in
    match hit with
    | (Some response, _) => ret response
    | (None, file_hash) => process file file_hash
    end.

End Endpoints.

(** ** Notions used to state the properties *)

(** The world after one more [datetime.now()]. *)
Definition tick (w : World) : World := set_clock_reads (S (clock_reads w)) w.

(** The time the next [datetime.now()] returns. *)
Definition now (w : World) : Z := clock w (clock_reads w).

(** The breaker states that calls can produce from a fresh breaker: any
    function, in any world, with any outcome. *)
Inductive reachable (thr tmo : Z) (exp : list exn_class)
  : CircuitBreaker.t -> Prop :=
  | reach_init : reachable thr tmo exp (CircuitBreaker.init thr tmo exp)
  | reach_call : forall (A : Type) (func : M World A) self w r self' w',
      reachable thr tmo exp self ->
      CircuitBreaker.call func (self, w) = (r, (self', w')) ->
      reachable thr tmo exp self'.

(** The invariant behind the state machine. *)
Definition breaker_inv (self : CircuitBreaker.t) : Prop :=
  0 <= CircuitBreaker.failure_count self
  /\ (CircuitBreaker.state self <> CLOSED ->
      CircuitBreaker.last_failure_time self <> None
      /\ CircuitBreaker.failure_threshold self
         <= CircuitBreaker.failure_count self).

(** What [CircuitBreaker.call] does once the gate has let it through. *)
Definition settle {A} (func : M World A) (self : CircuitBreaker.t)
    (w : World) : result A * CircuitBreaker.St :=
  match func w with
  | (Ok a, w') =>
      (Ok a, (CircuitBreaker.set_state CLOSED
                (CircuitBreaker.set_failure_count 0 self), w'))
  | (Raise e, w') =>
      if isinstance_any e (CircuitBreaker.expected_exception self) then
        let self1 :=
          CircuitBreaker.set_last_failure_time (Some (now w'))
            (CircuitBreaker.set_failure_count
               (CircuitBreaker.failure_count self + 1) self) in
        (Raise e,
         ((if Z.leb (CircuitBreaker.failure_threshold self)
                    (CircuitBreaker.failure_count self + 1)
           then CircuitBreaker.set_state OPEN self1 else self1), tick w'))
      else (Raise e, (self, w'))
  end.

(** One attempt on the model fails: it raises an [Exception], or its
    text is empty. *)
Definition attempt_fails (r : gen_reply) : Prop :=
  match r with
  | GenText t => t = ""
  | GenRaises e => isinstance e Exception = true
  end.

(** A text contains an indicator case-insensitively when some substring
    of it equals the indicator once both are lower-cased. *)
Definition contains_ignoring_case (indicator text : string) : Prop :=
  exists pre mid suf,
    text = pre +:+ mid +:+ suf /\ PyStr.lower mid = PyStr.lower indicator.

(** The indicator set as the specification lists it. *)
Definition spec_indicators : list string :=
  [ "429"; "500"; "502"; "503"; "504";
    "timeout"; "connection"; "network"; "quota exceeded" ].


Fixpoint all_chars (p : ascii -> bool) (s : string) : bool :=
  match s with
  | EmptyString => true
  | String c s' => p c && all_chars p s'
  end.

(** The round trips one cache operation makes: a ping first when the
    client does not exist yet, then the command. The backend fails the
    operation when one of them does not get through. *)
Definition backend_fails (cs : CacheService.t) (w : World) : Prop :=
  redis_up w (redis_ops w) = false
  \/ (CacheService._redis_client cs = false
      /\ redis_up w (S (redis_ops w)) = false).

(** The backend answers the operation: all its round trips get
    through. *)
Definition backend_answers (cs : CacheService.t) (w : World) : Prop :=
  redis_up w (redis_ops w) = true
  /\ (CacheService._redis_client cs = false ->
      redis_up w (S (redis_ops w)) = true).

(** The Redis server is unreachable: no round trip gets through. *)
Definition unreachable (w : World) : Prop := forall k, redis_up w k = false.

(** Two worlds that differ at most in the Redis traffic and content. *)
Definition same_outside_redis (w w' : World) : Prop :=
  clock w' = clock w /\ clock_reads w' = clock_reads w
  /\ gemini w' = gemini w /\ gemini_calls w' = gemini_calls w
  /\ ocr_engine w' = ocr_engine w /\ ocr_calls w' = ocr_calls w
  /\ redis_up w' = redis_up w
  /\ slept w' = slept w /\ temp_files w' = temp_files w.

(** What [CacheService.get] makes of the value stored under a key. *)
Definition decode_cached (stored : option (Z * string)) : pyval :=
  match stored with
  | Some (_, v) =>
      if PyStr.nonempty v then
        match Json.loads v with
        | Ok j => j
        | Raise _ => PNone
        end
      else PNone
  | None => PNone
  end.

(** A freshly started AI service. *)
Definition fresh_service : AIService.t :=
  AIService.mk (CircuitBreaker.init 5 60 [AiServiceError; Exception]).

(** The service [get_ai_service] hands out: the existing one, or a fresh
    one when an API key is configured. *)
Definition service_of (g : Endpoints.Globals) : option AIService.t :=
  match Endpoints.ai_service g with
  | Some svc => Some svc
  | None =>
      if PyStr.nonempty (Endpoints.google_api_key g)
      then Some fresh_service else None
  end.

(** The request passes the content-type check of the endpoint. *)
Definition type_accepted (file : Endpoints.UploadFile) : bool :=
  match Endpoints.detect_content_type file with
  | Some t => str_mem t Endpoints.SUPPORTED_FILE_TYPES
  | None => false
  end.

(** ** Sample inputs *)

(** A world given by its oracles, with all counters at zero, an empty
    Redis store and no temporary file. *)
Definition world_of (clk : nat -> Z) (ai : nat -> string -> gen_reply)
    (engine : nat -> string -> list Byte.byte -> result string)
    (up : nat -> bool) : World :=
  mk_world clk 0 ai 0 engine 0 up 0 ∅ [] 0.

(** A clock that advances one second per reading. *)
Definition seconds_clock (k : nat) : Z := Z.of_nat k * 1000000.

(** A world where nothing answers: the model returns an empty text, the
    OCR engine an empty page, Redis is down. *)
Definition silent_world : World :=
  world_of seconds_clock (fun _ _ => GenText "") (fun _ _ _ => Ok "")
           (fun _ => false).

(** The always-failing function of the breaker tests. *)
Definition failing_func : M World string :=
  raise (builtin_exn Exception "Test error").

(** The succeeding function of the breaker tests. *)
Definition succeeding_func : M World string := ret "success".

(** A breaker with threshold 2 that has seen one failure. *)
Definition one_failure : CircuitBreaker.t :=
  CircuitBreaker.mk 2 60 [Exception] 1 (Some 0) CLOSED.

(** The same breaker after the second failure. *)
Definition two_failures : CircuitBreaker.t :=
  CircuitBreaker.mk 2 60 [Exception] 2 (Some 0) OPEN.

(** A world whose clock shows 100 seconds. *)
Definition late_world : World :=
  world_of (fun _ => 100000000) (fun _ _ => GenText "") (fun _ _ _ => Ok "")
           (fun _ => false).

(** A world whose model rejects the API key on every call. *)
Definition invalid_key_world : World :=
  world_of seconds_clock
           (fun _ _ => GenRaises (builtin_exn Exception "Invalid API key"))
           (fun _ _ _ => Ok "") (fun _ => false).

(** A raw model answer: [body] inside a fenced block tagged json. *)
Definition fenced (body : string) : string :=
  "```json" +:+ PromptManager.newline +:+ body +:+ PromptManager.newline
  +:+ "```".

Definition invoice_json : string :=
  js "{'invoice_number':'INV-1','vendor_name':'Acme','subtotal':10,'tax':1,'total':11,'currency':'USD','items':[]}".

Definition bad_total_json : string :=
  js "{'invoice_number':'INV-1','vendor_name':'Acme','subtotal':10,'tax':1,'total':'not-a-number','currency':'USD','items':[]}".

(** The record the first answer stands for. *)
Definition invoice_record : Schema.InvoiceData :=
  Schema.mk_invoice "INV-1" None None "Acme" None None None
                    (inject_Z 10) (inject_Z 1) (inject_Z 11) "USD" [].

(** An uploaded PNG (its first bytes) and the text the OCR engine reads
    from it. *)
Definition png_upload : Endpoints.UploadFile :=
  Endpoints.mk_upload (Some "image/png") (Some "invoice.png")
                      (bytes_of_string "PNG invoice scan").

Definition ocr_text : string := "Invoice #1 Total $9.99".

(** The serialised form [CacheService.set] stores for a record. *)
Definition serialised (r : Schema.InvoiceData) : string :=
  match JsonDump.encode (Schema.model_dump r) with
  | Some text => text
  | None => ""
  end.

(** A world whose cache already holds the record of [png_upload] and
    whose other collaborators would fail if asked. *)
Definition cached_world : World :=
  mk_world seconds_clock 0
           (fun _ _ => GenRaises (builtin_exn Exception "Invalid API key")) 0
           (fun _ _ _ => Raise (mk_OcrError "OCR processing failed" None)) 0
           (fun _ => true) 0
           {[ SHA256.hexdigest (Endpoints.content png_upload)
              := (86400, serialised invoice_record) ]}
           [] 0.

(** A world without a cache: Redis is down, OCR and the model answer. *)
Definition no_cache_world : World :=
  world_of seconds_clock (fun _ _ => GenText (fenced invoice_json))
           (fun _ _ _ => Ok ocr_text) (fun _ => false).

(** The singletons at start-up, with an API key configured. *)
Definition startup : Endpoints.Globals :=
  Endpoints.mk_globals CacheService.init None "test-key".

(** ** Further notions *)

(** Successive calls on one breaker: each function runs in the world
    the previous call left behind. *)
Fixpoint call_each {A} (funcs : list (M World A)) (s : CircuitBreaker.St)
  : CircuitBreaker.St :=
  match funcs with
  | [] => s
  | f :: rest => call_each rest (snd (CircuitBreaker.call f s))
  end.

(** A function that raises an exception of one of the classes [exp] in
    every world. *)
Definition always_fails {A} (exp : list exn_class) (f : M World A) : Prop :=
  forall w, exists e w', f w = (Raise e, w') /\ isinstance_any e exp = true.

(** A function interrupted by a cancellation, which is no [Exception]. *)
Definition cancelled_func : M World string :=
  raise (builtin_exn CancelledError "cancelled").

(** A world whose model call is cancelled. *)
Definition cancelled_world : World :=
  world_of seconds_clock
           (fun _ _ => GenRaises (builtin_exn CancelledError "cancelled"))
           (fun _ _ _ => Ok "") (fun _ => false).

(** A world whose model fails once with a server error and then
    answers. *)
Definition flaky_world : World :=
  world_of seconds_clock
           (fun k _ => match k with
                       | O => GenRaises (builtin_exn Exception "503 Service Unavailable")
                       | _ => GenText (fenced invoice_json)
                       end)
           (fun _ _ _ => Ok "") (fun _ => false).

(** [AIService.extract_invoice_data]: the variant of
    [get_structured_data] that returns the parsed data unvalidated. *)
Definition extract_invoice_data (invoice_text : string)
  : M AIService.St pyval :=
  if AIService.blank invoice_text
  then raise (mk_AiServiceError "Empty or invalid invoice text provided" None)
  else
    let prompt := PromptManager.get_extraction_prompt invoice_text None in
    try_except
      (let* response_text :=
         AIService.on_breaker
           (CircuitBreaker.call (AIService._call_gemini_api prompt)) in
       if AIService.blank response_text
       then raise (mk_AiServiceError "Empty response from AI service" None)
       else
         try_except
           (let cleaned_response := clean_ai_response response_text in
            lift_result (Json.loads cleaned_response))
           [ ([JSONDecodeError], fun e =>
                raise (mk_AiServiceError
                         "Failed to parse structured data from AI response"
                         (Some ("JSON parse error: " +:+ str_of_exn e)))) ])
      [ ([CircuitBreakerOpenError], fun e => raise e);
        ([AiServiceError], fun e => raise e);
        ([Exception], fun e =>
           raise (mk_AiServiceError
                    ("Unexpected error: " +:+ str_of_exn e) None)) ].

(** What validation makes of parsed data inside [get_structured_data]. *)
Definition validated (data : pyval) : result Schema.InvoiceData :=
  match Schema.validate data with
  | Ok r => Ok r
  | Raise e =>
      Raise (mk_AiServiceError "AI response data failed validation"
               (Some ("Validation error: " +:+ str_of_exn e)))
  end.

(** A computation leaves the observation [p] of the state as it was,
    whatever it returns. *)
Definition keeps {S T A} (p : S -> T) (m : M S A) : Prop :=
  forall s, p (snd (m s)) = p s.

(** The same for a method: the observation is one of the world. *)
Definition keeps_world {X T A} (q : World -> T) (m : M (X * World) A) : Prop :=
  keeps (fun s => q (snd s)) m.

(** An observation of the world that does not see the clock, the model
    and the sleeps. *)
Definition blind_to_model {T} (q : World -> T) : Prop :=
  forall w,
    (forall n, q (set_clock_reads n w) = q w)
    /\ (forall n, q (set_gemini_calls n w) = q w)
    /\ (forall l, q (set_slept l w) = q w).

(** An observation of the world that does not see the Redis traffic. *)
Definition blind_to_redis_ops {T} (q : World -> T) : Prop :=
  forall w n, q (set_redis_ops n w) = q w.

(** An observation of the world that does not see the OCR call count. *)
Definition blind_to_ocr {T} (q : World -> T) : Prop :=
  forall w n, q (set_ocr_calls n w) = q w.

(** An observation of the world that does not see the stored data. *)
Definition blind_to_redis_store {T} (q : World -> T) : Prop :=
  forall w m, q (set_redis_store m w) = q w.

(** An observation of the world that does not see the temporary files. *)
Definition blind_to_temp_files {T} (q : World -> T) : Prop :=
  forall w n, q (set_temp_files n w) = q w.

(** A computation raises a counter [p] of the state by at most [n]. *)
Definition bounded {S A} (p : S -> nat) (n : nat) (m : M S A) : Prop :=
  forall s, (p s <= p (snd (m s)) <= p s + n)%nat.

(** The same for a method and a counter of the world. *)
Definition bounded_world {X A} (q : World -> nat) (n : nat)
    (m : M (X * World) A) : Prop :=
  bounded (fun s => q (snd s)) n m.

(** Handlers that only raise: each clause maps the exception it caught
    to an exception it raises. *)
Definition reraising {S A} (clauses : list (list exn_class * (exn -> M S A)))
  : Prop :=
  Forall (fun cl => forall e, exists e', snd cl e = raise e') clauses.

(** The stored data after a request, against the data before it: as it
    was, or with the encoded record put under the key. *)
Definition stored_at_most (key : string) (r : Schema.InvoiceData)
    (before after : gmap string (Z * string)) : Prop :=
  after = before
  \/ exists text,
       JsonDump.encode (Schema.model_dump r) = Some text
       /\ after = <[key := (86400, text)]> before.

(** What a method does to the stored data: nothing when it raises, and
    [R] relates the data before and after when it returns. *)
Definition store_post {X A}
    (R : A -> gmap string (Z * string) -> gmap string (Z * string) -> Prop)
    (m : M (X * World) A) : Prop :=
  forall s,
    match fst (m s) with
    | Raise _ => redis_store (snd (snd (m s))) = redis_store (snd s)
    | Ok a => R a (redis_store (snd s)) (redis_store (snd (snd (m s))))
    end.

(** What the outer handlers of the endpoint make of an exception raised
    while the upload is processed: the application's errors pass, any
    other [Exception] becomes an [OcrError]. *)
Definition surfaced (e : exn) : exn :=
  if isinstance_any e [InvalidFileTypeError; FileProcessingError; OcrError;
                       AiServiceError]
  then e
  else if isinstance_any e [Exception]
       then mk_OcrError "Failed to process file" (Some (str_of_exn e))
       else e.

(** An upload of a type the endpoint does not take. *)
Definition gif_upload : Endpoints.UploadFile :=
  Endpoints.mk_upload (Some "image/gif") (Some "scan.gif")
                      (bytes_of_string "GIF89a").

(** A PDF sent with the content type of the form it is a part of. *)
Definition form_upload : Endpoints.UploadFile :=
  Endpoints.mk_upload (Some "multipart/form-data") (Some "Invoice.PDF")
                      (bytes_of_string "%PDF-1.4 invoice").

(** A world whose OCR engine fails with a built-in error; Redis is down
    and the model would answer. *)
Definition broken_ocr_world : World :=
  world_of seconds_clock (fun _ _ => GenText (fenced invoice_json))
           (fun _ _ _ => Raise (builtin_exn ValueError "cannot open image"))
           (fun _ => false).

(** An answer of the model that carries an invoice date. *)
Definition dated_json : string :=
  js "{'invoice_number':'INV-2','invoice_date':'2024-01-15','vendor_name':'Acme','subtotal':10,'tax':1,'total':11,'currency':'USD','items':[]}".

Definition dated_record : Schema.InvoiceData :=
  Schema.mk_invoice "INV-2" (Some (mk_date 2024 1 15)) None "Acme"
                    None None None (inject_Z 10) (inject_Z 1) (inject_Z 11)
                    "USD" [].

(** A world where everything answers and the model dates the invoice. *)
Definition dated_world : World :=
  world_of seconds_clock (fun _ _ => GenText (fenced dated_json))
           (fun _ _ _ => Ok ocr_text) (fun _ => true).

(** The singletons at start-up when no API key is configured. *)
Definition keyless_startup : Endpoints.Globals :=
  Endpoints.mk_globals CacheService.init None "".

(** A world whose OCR engine finds only white space on the page. *)
Definition blank_page_world : World :=
  world_of seconds_clock (fun _ _ => GenText (fenced invoice_json))
           (fun _ _ _ => Ok "   ") (fun _ => false).

(** A text without the character that fences are made of. *)
Definition no_backtick (s : string) : bool :=
  all_chars (fun c => negb (Ascii.eqb c "`")) s.

(** The loop of a lazy group in [Re.match_here]: try the rest of the
    pattern, else take one more character into the group. *)
Definition lazy_group (p : ascii -> bool) (pat' : list Re.atom)
  : string -> string -> option string :=
  fix reluctant (acc : string) (s : string) : option string :=
    match Re.match_here pat' s acc with
    | Some r => Some r
    | None =>
        match s with
        | String c s' =>
            if p c then reluctant (acc +:+ String c EmptyString) s'
            else None
        | EmptyString => None
        end
    end.

(** The end of [markdown_pattern]: optional white space, then the fence. *)
Definition closing : list Re.atom := [Re.Star PyStr.isspace; Re.Lit "```"].

(** * Properties *)

(** ** Strings *)

Section StringFacts.

Lemma ascii_eqb_true (a b : ascii) : Ascii.eqb a b = true <-> a = b.
Proof. apply Ascii.eqb_eq. Qed.

Lemma startswith_spec (s p : string) :
  PyStr.startswith s p = true <-> exists suf, s = p +:+ suf.
Proof.
  revert s. induction p as [|a p IH]; intros s; simpl.
  - split; [intros _; now exists s | reflexivity].
  - destruct s as [|b s].
    + split; [discriminate | intros [suf H]; discriminate].
    + rewrite andb_true_iff, ascii_eqb_true, IH. split.
      * intros [-> [suf ->]]. now exists suf.
      * intros [suf H]. injection H as -> ->. split; [reflexivity | now exists suf].
Qed.

Lemma contains_spec (needle hay : string) :
  PyStr.contains needle hay = true
  <-> exists pre suf, hay = pre +:+ needle +:+ suf.
Proof.
  induction hay as [|c hay IH].
  - simpl. rewrite orb_false_r, startswith_spec. split.
    + intros [suf H]. exists "", suf. exact H.
    + intros [pre [suf H]]. destruct pre; [now exists suf | discriminate].
  - cbn [PyStr.contains]. rewrite orb_true_iff, startswith_spec, IH. split.
    + intros [[suf H] | [pre [suf H]]].
      * exists "", suf. exact H.
      * exists (String c pre), suf. simpl. now rewrite H.
    + intros [pre [suf H]]. destruct pre as [|d pre].
      * left. now exists suf.
      * right. simpl in H. injection H as _ H. now exists pre, suf.
Qed.

Lemma lower_app (a b : string) :
  PyStr.lower (a +:+ b) = PyStr.lower a +:+ PyStr.lower b.
Proof. induction a as [|c a IH]; simpl; [reflexivity | now rewrite IH]. Qed.

Lemma lower_split (s a b : string) :
  PyStr.lower s = a +:+ b ->
  exists a' b', s = a' +:+ b' /\ PyStr.lower a' = a /\ PyStr.lower b' = b.
Proof.
  revert s. induction a as [|c a IH]; intros s H.
  - exists "", s. auto.
  - destruct s as [|d s]; [discriminate|].
    simpl in H. injection H as Hc H.
    destruct (IH _ H) as (a' & b' & -> & Ha & Hb).
    exists (String d a'), b'. simpl. now rewrite Hc, Ha, Hb.
Qed.

End StringFacts.

Lemma contains_lower (indicator text : string) :
  PyStr.lower indicator = indicator ->
  PyStr.contains indicator (PyStr.lower text) = true
  <-> contains_ignoring_case indicator text.
Proof.
  intros Hl. rewrite contains_spec. unfold contains_ignoring_case. split.
  - intros (pre & suf & H).
    destruct (lower_split _ _ _ H) as (pre' & rest & -> & _ & Hrest).
    destruct (lower_split _ _ _ Hrest) as (mid & suf' & -> & Hmid & _).
    exists pre', mid, suf'. now rewrite Hl.
  - intros (pre & mid & suf & -> & Hmid).
    exists (PyStr.lower pre), (PyStr.lower suf).
    now rewrite !lower_app, Hmid, Hl.
Qed.

(** C6: an error is classified transient exactly when its text contains,
    ignoring case, one of the indicators 429, 500, 502, 503, 504, timeout,
    connection, network, quota exceeded; every other text is permanent. *)
Theorem is_transient_error_iff_indicator (e : exn) :
  _is_transient_error e = true
  <-> exists indicator,
        In indicator spec_indicators
        /\ contains_ignoring_case indicator (str_of_exn e).
Proof.
  unfold _is_transient_error. rewrite existsb_exists. split.
  - intros (ind & Hin & Hc). exists ind. split.
    + unfold transient_indicators, spec_indicators in *. simpl in *. tauto.
    + apply contains_lower; [|exact Hc].
      unfold transient_indicators in Hin. simpl in Hin.
      repeat (destruct Hin as [<- | Hin]; [reflexivity|]). contradiction.
  - intros (ind & Hin & Hc). exists ind. split.
    + unfold transient_indicators, spec_indicators in *. simpl in *. tauto.
    + apply contains_lower; [|exact Hc].
      unfold spec_indicators in Hin. simpl in Hin.
      repeat (destruct Hin as [<- | Hin]; [reflexivity|]). contradiction.
Qed.

(** ** The circuit breaker *)

Section Breaker.

Import CircuitBreaker.

Context {A : Type} (func : M World A).

Lemma gate_closed self w :
  state self <> OPEN -> gate (self, w) = (Ok tt, (self, w)).
Proof.
  intros H. unfold gate, bind, self_get. cbn.
  destruct (state self); [reflexivity | contradiction | reflexivity].
Qed.

Lemma gate_open self w last :
  state self = OPEN -> last_failure_time self = Some last ->
  gate (self, w)
  = if Z.ltb (timedelta_seconds (timeout self)) (now w - last)
    then (Ok tt, (set_state HALF_OPEN self, tick w))
    else (Raise (mk_CircuitBreakerOpenError "AI Service"), (self, tick w)).
Proof.
  intros Hs Hl. unfold gate, _should_attempt_reset, bind, self_get. cbn.
  rewrite Hs. cbn. rewrite Hl. cbn. unfold now.
  destruct (Z.ltb _ _); reflexivity.
Qed.

Lemma gate_open_never_failed self w :
  state self = OPEN -> last_failure_time self = None ->
  gate (self, w) = (Ok tt, (set_state HALF_OPEN self, w)).
Proof.
  intros Hs Hl. unfold gate, _should_attempt_reset, bind, self_get. cbn.
  rewrite Hs. cbn. rewrite Hl. reflexivity.
Qed.

Lemma call_unfold self w :
  call func (self, w)
  = match gate (self, w) with
    | (Ok _, (self1, w1)) => settle func self1 w1
    | (Raise e, s) => (Raise e, s)
    end.
Proof.
  unfold call, settle. unfold bind at 1.
  destruct (gate (self, w)) as [[[]|e] [self1 w1]]; [|reflexivity].
  unfold bind at 1. cbn [self_get fst]. unfold try_except.
  unfold bind at 1, on_snd. cbn [snd fst].
  destruct (func w1) as [[a|e] w2]; cbn.
  - reflexivity.
  - destruct (isinstance_any e (expected_exception self1)); cbn; [|reflexivity].
    unfold _on_failure, bind, self_modify, self_get, on_snd, datetime_now,
      raise, ret, now, tick. cbn.
    destruct (Z.leb _ _); reflexivity.
Qed.

End Breaker.

Section BreakerMachine.

Import CircuitBreaker.

Lemma call_preserves_config {A} (func : M World A) self w r self' w' :
  call func (self, w) = (r, (self', w')) ->
  failure_threshold self' = failure_threshold self
  /\ timeout self' = timeout self
  /\ expected_exception self' = expected_exception self.
Proof.
  rewrite call_unfold. unfold gate, _should_attempt_reset, bind, self_get.
  cbn. unfold settle.
  destruct (state self); cbn;
    [ | destruct (last_failure_time self); cbn;
        [ destruct (Z.ltb _ _); cbn | ] | ];
    repeat match goal with
      | |- context [func ?x] => destruct (func x) as [[?|?] ?]
      | |- context [isinstance_any ?e ?l] => destruct (isinstance_any e l)
      | |- context [existsb ?f ?l] => destruct (existsb f l)
      | |- context [Z.leb ?a ?b] => destruct (Z.leb a b)
      end;
    cbn; intros H; inversion H; subst; cbn; auto.
Qed.

Lemma call_preserves_inv {A} (func : M World A) self w r self' w' :
  breaker_inv self ->
  call func (self, w) = (r, (self', w')) ->
  breaker_inv self'.
Proof.
  unfold breaker_inv. intros [Hc Hopen].
  rewrite call_unfold. unfold gate, _should_attempt_reset, bind, self_get.
  cbn. unfold settle.
  destruct (state self) eqn:Hs; cbn;
    [ | destruct (last_failure_time self) eqn:Hl; cbn;
        [ destruct (Z.ltb _ _); cbn | ] | ];
    repeat match goal with
      | |- context [func ?x] => destruct (func x) as [[?|?] ?]
      | |- context [isinstance_any ?e ?l] => destruct (isinstance_any e l)
      | |- context [existsb ?f ?l] => destruct (existsb f l)
      | |- context [Z.leb ?a ?b] => destruct (Z.leb a b) eqn:?
      end;
    cbn; intros H; inversion H; subst; cbn; rewrite ?Hs, ?Hl;
    (split; [lia |]); intros Hne;
    try contradiction;
    try (split; [discriminate | lia]);
    try (destruct Hopen as [Hn Hthr]; [discriminate |];
         split; [assumption || discriminate | lia]).
Qed.

Lemma reachable_inv thr tmo exp self :
  reachable thr tmo exp self ->
  failure_threshold self = thr /\ breaker_inv self.
Proof.
  induction 1 as [|A func self w r self' w' Hr [IHt IHi] Hcall].
  - split; [reflexivity|]. unfold breaker_inv. cbn.
    split; [lia | intros H; contradiction].
  - split.
    + destruct (call_preserves_config _ _ _ _ _ _ Hcall) as [-> _]. exact IHt.
    + eapply call_preserves_inv; eassumption.
Qed.

Lemma reachable_config thr tmo exp self :
  reachable thr tmo exp self ->
  timeout self = tmo /\ expected_exception self = exp.
Proof.
  induction 1 as [|A func self w r self' w' _ IH Hcall].
  - split; reflexivity.
  - destruct (call_preserves_config _ _ _ _ _ _ Hcall) as (_ & -> & ->).
    exact IH.
Qed.

Lemma gate_effect self w r self1 w1 :
  gate (self, w) = (r, (self1, w1)) ->
  (w1 = w \/ w1 = tick w)
  /\ (self1 = self \/ self1 = set_state HALF_OPEN self).
Proof.
  unfold gate, _should_attempt_reset, bind, self_get. cbn.
  destruct (state self); cbn;
    [ | destruct (last_failure_time self); cbn;
        [ destruct (Z.ltb _ _); cbn | ] | ];
    intros H; inversion H; subst; auto.
Qed.

End BreakerMachine.

Section BreakerClaims.

Import CircuitBreaker.

(** C3: from the Closed state a failing call adds one to
    [failure_count] and records the time of the failure; when the count
    reaches [failure_threshold] the breaker opens, and a call made while
    it is open and the cooldown has not passed fails with
    [CircuitBreakerOpenError], leaves the breaker as it is and never
    runs the wrapped function (the outcome is the same for every
    function). The open state is unchanged by such a call, so the same
    holds for each later one. *)
Theorem breaker_opens_at_threshold {A B} (func : M World A)
    (later : M World B) self w e w' w2 :
  state self = CLOSED ->
  func w = (Raise e, w') ->
  isinstance_any e (expected_exception self) = true ->
  let counted :=
    set_last_failure_time (Some (now w'))
      (set_failure_count (failure_count self + 1) self) in
  (failure_count self + 1 < failure_threshold self ->
   call func (self, w) = (Raise e, (counted, tick w')))
  /\ (failure_threshold self <= failure_count self + 1 ->
      call func (self, w) = (Raise e, (set_state OPEN counted, tick w'))
      /\ (now w2 - now w' <= timedelta_seconds (timeout self) ->
          call later (set_state OPEN counted, w2)
          = (Raise (mk_CircuitBreakerOpenError "AI Service"),
             (set_state OPEN counted, tick w2)))).
Proof.
  intros Hs Hf He counted.
  assert (Hcall : call func (self, w) = settle func self w).
  { rewrite call_unfold, gate_closed; [reflexivity | rewrite Hs; discriminate]. }
  unfold settle in Hcall. rewrite Hf, He in Hcall. cbv zeta in Hcall.
  fold counted in Hcall. split; [|split].
  - intros Hlt. rewrite Hcall.
    destruct (Z.leb_spec (failure_threshold self) (failure_count self + 1));
      [lia | reflexivity].
  - rewrite Hcall.
    destruct (Z.leb_spec (failure_threshold self) (failure_count self + 1));
      [reflexivity | lia].
  - intros Hwithin. rewrite call_unfold.
    rewrite (gate_open _ _ (now w')); [|reflexivity|reflexivity].
    cbn [timeout set_state counted set_last_failure_time set_failure_count].
    destruct (Z.ltb_spec (timedelta_seconds (timeout self)) (now w2 - now w'));
      [lia | reflexivity].
Qed.

Lemma breaker_opens_at_threshold_witness :
  state one_failure = CLOSED
  /\ failing_func silent_world
     = (Raise (builtin_exn Exception "Test error"), silent_world)
  /\ call failing_func (one_failure, silent_world)
     = (Raise (builtin_exn Exception "Test error"),
        (two_failures, tick silent_world))
  /\ call failing_func (two_failures, tick silent_world)
     = (Raise (mk_CircuitBreakerOpenError "AI Service"),
        (two_failures, tick (tick silent_world))).
Proof.
  split; [reflexivity|]. split; [reflexivity|].
  pose proof (breaker_opens_at_threshold failing_func failing_func
                one_failure silent_world
                (builtin_exn Exception "Test error") silent_world
                (tick silent_world)
                eq_refl eq_refl eq_refl) as [_ H].
  destruct H as [H1 H2]; [vm_compute; discriminate|].
  split; [exact H1|]. apply H2. vm_compute. discriminate.
Defined.

(** C4: a call made on a reachable breaker that is Open, once more than
    the cooldown has passed since [last_failure_time], moves the breaker
    to HalfOpen and runs the function; on success [failure_count] is 0
    and the state Closed; on failure the state is Open again, with
    [failure_count] one higher and the new failure time. *)
Theorem half_open_trial {A} (func : M World A) thr tmo exp self w last :
  reachable thr tmo exp self ->
  state self = OPEN ->
  last_failure_time self = Some last ->
  timedelta_seconds (timeout self) < now w - last ->
  gate (self, w) = (Ok tt, (set_state HALF_OPEN self, tick w))
  /\ (forall a w', func (tick w) = (Ok a, w') ->
      call func (self, w)
      = (Ok a, (mk thr tmo exp 0 (Some last) CLOSED, w')))
  /\ (forall e w', func (tick w) = (Raise e, w') ->
      isinstance_any e exp = true ->
      call func (self, w)
      = (Raise e, (mk thr tmo exp (failure_count self + 1)
                      (Some (now w')) OPEN, tick w'))).
Proof.
  intros Hr Hs Hl Ht.
  destruct (reachable_inv _ _ _ _ Hr) as [Hthr [_ Hinv]].
  destruct Hinv as [_ Hge]; [rewrite Hs; discriminate|].
  destruct (reachable_config _ _ _ _ Hr) as [Htmo Hexp].
  assert (Hg : gate (self, w) = (Ok tt, (set_state HALF_OPEN self, tick w))).
  { rewrite (gate_open _ _ last Hs Hl).
    destruct (Z.ltb_spec (timedelta_seconds (timeout self)) (now w - last));
      [reflexivity | lia]. }
  split; [exact Hg|]. split.
  - intros a w' Hf. rewrite call_unfold, Hg. unfold settle. rewrite Hf.
    destruct self; cbn in *. subst. reflexivity.
  - intros e w' Hf He. rewrite call_unfold, Hg. unfold settle. rewrite Hf.
    cbn [expected_exception set_state failure_threshold failure_count].
    rewrite Hexp, He.
    destruct (Z.leb_spec (failure_threshold self) (failure_count self + 1));
      [|lia].
    destruct self; cbn in *. subst. reflexivity.
Qed.

Lemma two_failures_reachable : reachable 2 60 [Exception] two_failures.
Proof.
  eapply (reach_call _ _ _ _ failing_func one_failure silent_world).
  - eapply (reach_call _ _ _ _ failing_func (init 2 60 [Exception])
                       (mk_world (fun _ => 0) 0 (fun _ _ => GenText "") 0
                                 (fun _ _ _ => Ok "") 0 (fun _ => false) 0
                                 ∅ [] 0)).
    + apply reach_init.
    + reflexivity.
  - reflexivity.
Qed.

End BreakerClaims.

Section BreakerClaims2.

Import CircuitBreaker.

Lemma half_open_trial_witness :
  reachable 2 60 [Exception] two_failures
  /\ timedelta_seconds (timeout two_failures) < now late_world - 0
  /\ gate (two_failures, late_world)
     = (Ok tt, (set_state HALF_OPEN two_failures, tick late_world))
  /\ call succeeding_func (two_failures, late_world)
     = (Ok "success", (mk 2 60 [Exception] 0 (Some 0) CLOSED, tick late_world))
  /\ call failing_func (two_failures, late_world)
     = (Raise (builtin_exn Exception "Test error"),
        (mk 2 60 [Exception] 3 (Some 100000000) OPEN,
         tick (tick late_world))).
Proof.
  assert (Hlt : timedelta_seconds (timeout two_failures) < now late_world - 0)
    by (vm_compute; reflexivity).
  split; [exact two_failures_reachable|]. split; [exact Hlt|].
  destruct (half_open_trial succeeding_func 2 60 [Exception] two_failures
              late_world 0 two_failures_reachable eq_refl eq_refl Hlt)
    as (Hg & Hok & _).
  destruct (half_open_trial failing_func 2 60 [Exception] two_failures
              late_world 0 two_failures_reachable eq_refl eq_refl Hlt)
    as (_ & _ & Hfail).
  split; [exact Hg|]. split.
  - apply Hok. reflexivity.
  - apply (Hfail (builtin_exn Exception "Test error") (tick late_world));
      reflexivity.
Defined.

(** C10: in every breaker state reachable from the initial Closed state
    by calls, [failure_count] is non-negative, and when the state is
    Open [last_failure_time] is set and [failure_count] is at least
    [failure_threshold]. The count is kept on the way to HalfOpen, so
    there too it is at least the threshold, and one failing trial call
    opens the breaker again. *)
Theorem breaker_state_invariant thr tmo exp self :
  reachable thr tmo exp self ->
  0 <= failure_count self
  /\ (state self = OPEN ->
      last_failure_time self <> None /\ thr <= failure_count self)
  /\ (state self = HALF_OPEN ->
      thr <= failure_count self
      /\ forall (A : Type) (func : M World A) w e w',
           func w = (Raise e, w') ->
           isinstance_any e (expected_exception self) = true ->
           state (fst (snd (call func (self, w)))) = OPEN).
Proof.
  intros Hr. destruct (reachable_inv _ _ _ _ Hr) as [Hthr [Hc Hinv]].
  split; [exact Hc|]. split.
  - intros Hs. rewrite <- Hthr. apply Hinv. rewrite Hs. discriminate.
  - intros Hs. destruct Hinv as [_ Hge]; [rewrite Hs; discriminate|].
    split; [rewrite <- Hthr; exact Hge|].
    intros A func w e w' Hf He.
    rewrite call_unfold, gate_closed by (rewrite Hs; discriminate).
    unfold settle. rewrite Hf, He.
    destruct (Z.leb_spec (failure_threshold self) (failure_count self + 1));
      [reflexivity | lia].
Qed.

Lemma breaker_state_invariant_witness :
  reachable 2 60 [Exception] two_failures
  /\ 0 <= failure_count two_failures
  /\ (state two_failures = OPEN ->
      last_failure_time two_failures <> None
      /\ 2 <= failure_count two_failures).
Proof.
  split; [exact two_failures_reachable|].
  destruct (breaker_state_invariant 2 60 [Exception] two_failures
              two_failures_reachable) as (H0 & Hopen & _).
  split; [exact H0 | exact Hopen].
Defined.

(** The scenario of the breaker test: threshold 2, two failing calls,
    then a third call that fails fast. *)
Example breaker_threshold_two :
  let cb0 := init 2 60 [Exception] in
  let '(r1, s1) := call failing_func (cb0, silent_world) in
  let '(r2, s2) := call failing_func s1 in
  let '(r3, s3) := call failing_func s2 in
  (state (fst s1), failure_count (fst s1)) = (CLOSED, 1)
  /\ (state (fst s2), failure_count (fst s2)) = (OPEN, 2)
  /\ r3 = Raise (mk_CircuitBreakerOpenError "AI Service")
  /\ fst s3 = fst s2.
Proof. vm_compute. repeat split. Qed.

End BreakerClaims2.

(** ** Retrying the model call *)

Section Retry.

Lemma isinstance_any_single e c :
  isinstance_any e [c] = isinstance e c.
Proof. unfold isinstance_any. cbn. apply orb_false_r. Qed.

Lemma call_gemini_api_once_fails prompt w :
  attempt_fails (gemini w (gemini_calls w) prompt) ->
  exists e,
    AIService._call_gemini_api_once prompt w
    = (Raise e, set_gemini_calls (S (gemini_calls w)) w)
    /\ exn_cls e = AiServiceError.
Proof.
  unfold attempt_fails, AIService._call_gemini_api_once, try_except, bind,
    generate_content.
  destruct (gemini w (gemini_calls w) prompt) as [t | e]; intros H.
  - subst t. cbn. eexists. split; reflexivity.
  - cbn [select_handler]. rewrite isinstance_any_single, H.
    destruct (_is_transient_error e); cbn; eexists; split; reflexivity.
Qed.

Lemma retrying_retries {A} (fn : M World A) n k wait classes w e w' :
  fn w = (Raise e, w') ->
  isinstance_any e classes = true ->
  Tenacity.retrying (S (S n)) k wait classes fn w
  = Tenacity.retrying (S n) (k + 1) wait classes fn
      (set_slept (slept w' ++ [wait k])%list w').
Proof. intros Hf He. cbn [Tenacity.retrying]. rewrite Hf, He. reflexivity. Qed.

Lemma retrying_gives_up {A} (fn : M World A) k wait classes w e w' :
  fn w = (Raise e, w') ->
  Tenacity.retrying 1 k wait classes fn w = (Raise e, w').
Proof.
  intros Hf. cbn [Tenacity.retrying]. rewrite Hf.
  destruct (isinstance_any e classes); reflexivity.
Qed.

Lemma AiServiceError_retried e :
  exn_cls e = AiServiceError -> isinstance_any e [AiServiceError] = true.
Proof.
  intros H. rewrite isinstance_any_single. unfold isinstance. now rewrite H.
Qed.

(** Three failing attempts: three calls to the model, then the error of
    the last attempt. *)
Lemma call_gemini_api_all_fail prompt w :
  (forall k, (k < 3)%nat ->
             attempt_fails (gemini w (gemini_calls w + k) prompt)) ->
  exists e w',
    AIService._call_gemini_api prompt w = (Raise e, w')
    /\ exn_cls e = AiServiceError
    /\ gemini_calls w' = (gemini_calls w + 3)%nat
    /\ slept w' = (slept w ++ [4; 4])%list.
Proof.
  intros Hall. unfold AIService._call_gemini_api, Tenacity.retry.
  destruct (call_gemini_api_once_fails prompt w) as (e1 & H1 & Hcls1).
  { specialize (Hall 0%nat). rewrite Nat.add_0_r in Hall. apply Hall. lia. }
  rewrite (retrying_retries _ _ _ _ _ _ _ _ H1 (AiServiceError_retried _ Hcls1)).
  set (w1 := set_slept _ _).
  destruct (call_gemini_api_once_fails prompt w1) as (e2 & H2 & Hcls2).
  { specialize (Hall 1%nat). cbn. rewrite Nat.add_1_r in Hall. apply Hall. lia. }
  rewrite (retrying_retries _ _ _ _ _ _ _ _ H2 (AiServiceError_retried _ Hcls2)).
  set (w2 := set_slept _ _).
  destruct (call_gemini_api_once_fails prompt w2) as (e3 & H3 & Hcls3).
  { specialize (Hall 2%nat). cbn.
    replace (S (S (gemini_calls w))) with (gemini_calls w + 2)%nat by lia.
    apply Hall. lia. }
  rewrite (retrying_gives_up _ _ _ _ _ _ _ H3).
  exists e3, (set_gemini_calls (S (gemini_calls w2)) w2).
  split; [reflexivity|]. split; [exact Hcls3|]. cbn. split; [lia|].
  rewrite <- app_assoc. reflexivity.
Qed.

(** C2, as the code behaves: a permanent failure ("Invalid API key" has
    no transient indicator) is not re-raised after the first attempt.
    The wrapper retries every [AiServiceError], and the body turns
    both kinds of failure into one; the model is called three times. *)
Theorem permanent_failure_is_retried (prompt : string) :
  _is_transient_error (builtin_exn Exception "Invalid API key") = false
  /\ let '(r, w') := AIService._call_gemini_api prompt invalid_key_world in
     r = Raise (mk_AiServiceError
                  "Permanent error from Gemini API: Invalid API key" None)
     /\ gemini_calls w' = 3%nat
     /\ slept w' = [4; 4].
Proof. vm_compute. repeat split. Qed.

End Retry.

(** ** The breaker around the retrying call *)

Section BreakerAroundRetry.

Import CircuitBreaker.

(** C5: the breaker wraps the retrying call as a whole. When the
    breaker lets a request through and the model fails on each of the
    three attempts, the request fails, the model has been called three
    times and [failure_count] has grown by exactly one. *)
Theorem one_breaker_failure_per_request text table_data svc w :
  reachable 5 60 [AiServiceError; Exception] (AIService.circuit_breaker svc) ->
  AIService.blank text = false ->
  fst (gate (AIService.circuit_breaker svc, w)) = Ok tt ->
  (forall k, (k < 3)%nat ->
     attempt_fails
       (gemini w (gemini_calls w + k)
               (PromptManager.get_extraction_prompt text table_data))) ->
  exists e svc' w',
    AIService.get_structured_data text table_data (svc, w)
    = (Raise e, (svc', w'))
    /\ failure_count (AIService.circuit_breaker svc')
       = failure_count (AIService.circuit_breaker svc) + 1
    /\ gemini_calls w' = (gemini_calls w + 3)%nat.
Proof.
  intros Hr Hb Hg Hall.
  destruct (reachable_config _ _ _ _ Hr) as [_ Hexp].
  unfold AIService.get_structured_data. rewrite Hb. cbn [negb].
  set (prompt := PromptManager.get_extraction_prompt text table_data) in *.
  unfold try_except. unfold bind at 1.
  unfold AIService.on_breaker, zoom. cbn [fst snd].
  rewrite call_unfold.
  destruct (gate (AIService.circuit_breaker svc, w))
    as [[[]|eg] [cb1 w1]] eqn:Hgate; [|discriminate].
  destruct (gate_effect _ _ _ _ _ Hgate) as [Hw Hcb].
  assert (Hall1 : forall k, (k < 3)%nat ->
            attempt_fails (gemini w1 (gemini_calls w1 + k) prompt)).
  { destruct Hw as [-> | ->]; exact Hall. }
  destruct (call_gemini_api_all_fail prompt w1 Hall1)
    as (e & w2 & Hcall & Hcls & Hcalls & _).
  unfold settle. rewrite Hcall.
  assert (Hexp1 : expected_exception cb1 = [AiServiceError; Exception]).
  { destruct Hcb as [-> | ->]; exact Hexp. }
  assert (He : isinstance_any e (expected_exception cb1) = true).
  { rewrite Hexp1. unfold isinstance_any, isinstance. cbn. rewrite Hcls.
    reflexivity. }
  rewrite He.
  assert (Hsel1 : isinstance_any e [CircuitBreakerOpenError] = false).
  { unfold isinstance_any, isinstance. cbn. rewrite Hcls. reflexivity. }
  assert (Hsel2 : isinstance_any e [AiServiceError] = true)
    by (apply AiServiceError_retried; exact Hcls).
  assert (Hcount : failure_count cb1
                   = failure_count (AIService.circuit_breaker svc)).
  { destruct Hcb as [-> | ->]; reflexivity. }
  assert (Hcalls1 : gemini_calls w1 = gemini_calls w).
  { destruct Hw as [-> | ->]; reflexivity. }
  destruct (Z.leb _ _); cbn [select_handler fst snd];
    rewrite Hsel1, Hsel2; cbn;
    (eexists; eexists; eexists; split; [reflexivity|]); cbn;
    rewrite Hcount, Hcalls, Hcalls1; split; reflexivity.
Qed.

Lemma one_breaker_failure_per_request_witness :
  AIService.blank "Invoice #1 Total $9.99" = false
  /\ exists e svc' w',
       AIService.get_structured_data "Invoice #1 Total $9.99" None
                                     (fresh_service, invalid_key_world)
       = (Raise e, (svc', w'))
       /\ failure_count (AIService.circuit_breaker svc') = 0 + 1
       /\ gemini_calls w' = (0 + 3)%nat.
Proof.
  split; [reflexivity|].
  apply (one_breaker_failure_per_request "Invoice #1 Total $9.99" None
           fresh_service invalid_key_world).
  - apply reach_init.
  - reflexivity.
  - reflexivity.
  - intros k _. vm_compute. reflexivity.
Defined.

End BreakerAroundRetry.

(** ** Normalising the model's answer *)

(** C8: the answer wrapped in a fenced json block is cleaned, parsed and
    validated into the record with invoice number INV-1 and total 11;
    when its total is the string not-a-number the call fails with the
    validation error instead of producing a record. *)
Theorem normalize_fenced_invoice (S : Type) (s : S) :
  AIService.normalize (fenced invoice_json) s = (Ok invoice_record, s)
  /\ Schema.invoice_number invoice_record = "INV-1"
  /\ Schema.total invoice_record = inject_Z 11
  /\ exists e,
       AIService.normalize (fenced bad_total_json) s = (Raise e, s)
       /\ exn_cls e = AiServiceError
       /\ message e = "AI response data failed validation".
Proof.
  split; [|split; [|split]].
  - vm_compute. reflexivity.
  - reflexivity.
  - reflexivity.
  - eexists. split; [vm_compute; reflexivity|]. split; reflexivity.
Qed.

(** ** The fingerprint *)

Section Fingerprint.






End Fingerprint.

(** ** The result cache *)

(** Unfold the monad's plumbing and nothing else. *)
Ltac run_monad :=
  cbv beta iota zeta delta
    [bind ret raise try_except try_finally on_snd self_get self_modify zoom
     lift_result select_handler fst snd].

(** Project through the setters of the world. *)
Ltac world_simpl :=
  cbn [clock clock_reads gemini gemini_calls ocr_engine ocr_calls redis_up
       redis_ops redis_store slept temp_files set_clock_reads
       set_gemini_calls set_ocr_calls set_redis_ops set_redis_store
       set_slept set_temp_files].

Ltac run := run_monad; world_simpl.

Section Cache.

Import CacheService.

Lemma connection_error_caught msg :
  isinstance_any (builtin_exn ConnectionError msg) [Exception] = true.
Proof. reflexivity. Qed.

Lemma cache_error_caught msg :
  isinstance_any (mk_CacheError msg) [Exception] = true.
Proof. reflexivity. Qed.

Lemma decode_error_caught v e :
  Json.loads v = Raise e -> isinstance_any e [Exception] = true.
Proof.
  unfold Json.loads.
  destruct (Json.parse_value _ _) as [[j rest]|];
    [destruct (Json.skip_ws rest)|]; intros H; inversion H; reflexivity.
Qed.

Lemma loads_raises_decode_error v e :
  Json.loads v = Raise e -> exn_cls e = JSONDecodeError.
Proof.
  unfold Json.loads.
  destruct (Json.parse_value _ _) as [[j rest]|];
    [destruct (Json.skip_ws rest)|]; intros H; inversion H; reflexivity.
Qed.

Lemma dumps_raises_type_error v e :
  JsonDump.dumps v = Raise e -> exn_cls e = TypeError.
Proof.
  unfold JsonDump.dumps. destruct (JsonDump.encode v);
    intros H; inversion H; reflexivity.
Qed.

Lemma same_outside_redis_refl w : same_outside_redis w w.
Proof. unfold same_outside_redis. tauto. Qed.

Lemma same_outside_redis_ops n w : same_outside_redis w (set_redis_ops n w).
Proof. unfold same_outside_redis. cbn. tauto. Qed.

(** [get] in closed form: the round trips it makes and what it
    returns. *)
Lemma get_closed_form key cs w :
  get key (cs, w)
  = let n := redis_ops w in
    if _redis_client cs then
      (Ok (if redis_up w n then decode_cached (redis_store w !! key)
           else PNone),
       (cs, set_redis_ops (S n) w))
    else if redis_up w n then
      (Ok (if redis_up w (S n) then decode_cached (redis_store w !! key)
           else PNone),
       (mk true, set_redis_ops (S (S n)) w))
    else (Ok PNone, (mk true, set_redis_ops (S n) w)).
Proof.
  unfold get, _get_client, redis_get, redis_ping, redis_roundtrip,
    decode_cached.
  run. destruct cs as [[|]]; run; cbv beta iota zeta delta [_redis_client].
  - destruct (redis_up w (redis_ops w)); run.
    + destruct (redis_store w !! key) as [[ttl v]|];
        cbn [fmap option_fmap option_map snd]; run; [|reflexivity].
      destruct (PyStr.nonempty v); run; [|reflexivity].
      destruct (Json.loads v) as [j|e] eqn:Hl; [reflexivity|].
      rewrite (decode_error_caught _ _ Hl). reflexivity.
    + rewrite connection_error_caught. reflexivity.
  - destruct (redis_up w (redis_ops w)); run.
    + destruct (redis_up w (S (redis_ops w))); run.
      * destruct (redis_store w !! key) as [[ttl v]|];
          cbn [fmap option_fmap option_map snd]; run; [|reflexivity].
        destruct (PyStr.nonempty v); run; [|reflexivity].
        destruct (Json.loads v) as [j|e] eqn:Hl; [reflexivity|].
        rewrite (decode_error_caught _ _ Hl). reflexivity.
      * rewrite connection_error_caught. reflexivity.
    + rewrite connection_error_caught. run.
      rewrite cache_error_caught. reflexivity.
Qed.

(** [set] in closed form. *)
Lemma set_closed_form key value cs w :
  set key value (cs, w)
  = let n := redis_ops w in
    let write (k : nat) :=
      match JsonDump.encode value with
      | Some text =>
          if redis_up w k then
            (Ok true,
             (mk true,
              set_redis_store (<[key := (86400, text)]> (redis_store w))
                              (set_redis_ops (S k) w)))
          else (Ok false, (mk true, set_redis_ops (S k) w))
      | None => (Ok false, (mk true, set_redis_ops k w))
      end in
    if _redis_client cs then write n
    else if redis_up w n then write (S n)
    else (Ok false, (mk true, set_redis_ops (S n) w)).
Proof.
  unfold set, _get_client, redis_setex, redis_ping, redis_roundtrip,
    JsonDump.dumps.
  run. destruct cs as [[|]]; run; cbv beta iota zeta delta [_redis_client].
  - destruct (JsonDump.encode value); run.
    + destruct (redis_up w (redis_ops w)); run; [reflexivity|].
      rewrite connection_error_caught. reflexivity.
    + destruct w; reflexivity.
  - destruct (redis_up w (redis_ops w)); run.
    + destruct (JsonDump.encode value); run; [|reflexivity].
      destruct (redis_up w (S (redis_ops w))); run; [reflexivity|].
      rewrite connection_error_caught. reflexivity.
    + rewrite connection_error_caught. run.
      rewrite cache_error_caught. reflexivity.
Qed.

(** [check] in closed form. *)
Lemma check_closed_form key cs w :
  check key (cs, w)
  = let n := redis_ops w in
    let found := match redis_store w !! key with
                 | Some _ => true | None => false end in
    if _redis_client cs then
      (Ok (redis_up w n && found), (cs, set_redis_ops (S n) w))
    else if redis_up w n then
      (Ok (redis_up w (S n) && found), (mk true, set_redis_ops (S (S n)) w))
    else (Ok false, (mk true, set_redis_ops (S n) w)).
Proof.
  unfold check, _get_client, redis_exists, redis_ping, redis_roundtrip.
  run. destruct cs as [[|]]; run; cbv beta iota zeta delta [_redis_client].
  - destruct (redis_up w (redis_ops w)); run.
    + destruct (redis_store w !! key); reflexivity.
    + rewrite connection_error_caught. reflexivity.
  - destruct (redis_up w (redis_ops w)); run.
    + destruct (redis_up w (S (redis_ops w))); run.
      * destruct (redis_store w !! key); reflexivity.
      * rewrite connection_error_caught. reflexivity.
    + rewrite connection_error_caught. run.
      rewrite cache_error_caught. reflexivity.
Qed.

End Cache.

(** ** The AI service on a good answer *)

Section GoodAnswer.

Lemma normalize_pure (S : Type) (s : S) text :
  AIService.normalize text s = (fst (AIService.normalize text tt), s).
Proof.
  unfold AIService.normalize. run_monad.
  destruct (Json.loads (clean_ai_response text)) as [j|e]; run_monad.
  - destruct (Schema.validate j) as [r|e]; run_monad; [reflexivity|].
    destruct (isinstance_any e [Exception]); run_monad.
    + rewrite ?isinstance_any_single. reflexivity.
    + destruct (isinstance_any e [JSONDecodeError]); reflexivity.
  - destruct (isinstance_any e [JSONDecodeError]); reflexivity.
Qed.

Lemma call_gemini_api_ok prompt w raw :
  gemini w (gemini_calls w) prompt = GenText raw ->
  PyStr.nonempty raw = true ->
  AIService._call_gemini_api prompt w
  = (Ok (PyStr.strip raw), set_gemini_calls (S (gemini_calls w)) w).
Proof.
  intros Hg Hn.
  unfold AIService._call_gemini_api, Tenacity.retry.
  cbn [Tenacity.retrying].
  unfold AIService._call_gemini_api_once, generate_content. run_monad.
  rewrite Hg. run_monad. rewrite Hn. reflexivity.
Qed.

Lemma get_structured_data_ok text table_data svc w raw r :
  CircuitBreaker.state (AIService.circuit_breaker svc) <> OPEN ->
  AIService.blank text = false ->
  gemini w (gemini_calls w)
         (PromptManager.get_extraction_prompt text table_data)
  = GenText raw ->
  PyStr.nonempty raw = true ->
  AIService.blank (PyStr.strip raw) = false ->
  fst (AIService.normalize (PyStr.strip raw) tt) = Ok r ->
  AIService.get_structured_data text table_data (svc, w)
  = (Ok r,
     (AIService.mk
        (CircuitBreaker.set_state CLOSED
           (CircuitBreaker.set_failure_count 0
              (AIService.circuit_breaker svc))),
      set_gemini_calls (S (gemini_calls w)) w)).
Proof.
  intros Hs Hb Hg Hn Hb2 Hnorm.
  unfold AIService.get_structured_data. rewrite Hb. cbn [negb].
  unfold AIService.on_breaker. run_monad.
  rewrite call_unfold, gate_closed by exact Hs.
  unfold settle. rewrite (call_gemini_api_ok _ _ _ Hg Hn).
  rewrite Hb2. rewrite normalize_pure, Hnorm. reflexivity.
Qed.

End GoodAnswer.

(** ** The [/extract] endpoint *)

Section Endpoint.

Import Endpoints.

(** Pick apart a validator that raised. *)
Ltac raised H :=
  repeat match type of H with
    | match ?x with _ => _ end = Raise _ => destruct x
    | (if ?x then _ else _) = Raise _ => destruct x
    end;
  try discriminate H;
  try (inversion H; reflexivity).

Lemma validate_float_cls f v e :
  Schema.validate_float f v = Raise e -> exn_cls e = ValidationError.
Proof. unfold Schema.validate_float. intros H. raised H. Qed.

Lemma validate_str_cls f v e :
  Schema.validate_str f v = Raise e -> exn_cls e = ValidationError.
Proof. unfold Schema.validate_str. intros H. raised H. Qed.

Lemma validate_str_default_cls f d v e :
  Schema.validate_str_default f d v = Raise e -> exn_cls e = ValidationError.
Proof. unfold Schema.validate_str_default. intros H. raised H. Qed.

Lemma validate_opt_str_cls f v e :
  Schema.validate_opt_str f v = Raise e -> exn_cls e = ValidationError.
Proof. unfold Schema.validate_opt_str. intros H. raised H. Qed.

Lemma validate_opt_date_cls f v e :
  Schema.validate_opt_date f v = Raise e -> exn_cls e = ValidationError.
Proof. unfold Schema.validate_opt_date. intros H. raised H. Qed.

(** Walk down a chain of field validations that raised. *)
Ltac chain H :=
  repeat match type of H with
    | Schema.rbind ?x _ = Raise _ =>
        let E := fresh "E" in
        destruct x eqn:E; cbn [Schema.rbind] in H;
        [ clear E
        | inversion H; subst;
          first [ eapply validate_float_cls; eassumption
                | eapply validate_str_cls; eassumption
                | eapply validate_str_default_cls; eassumption
                | eapply validate_opt_str_cls; eassumption
                | eapply validate_opt_date_cls; eassumption
                | eauto ] ]
    end.

Lemma validate_item_cls v e :
  Schema.validate_item v = Raise e -> exn_cls e = ValidationError.
Proof.
  unfold Schema.validate_item. intros H.
  destruct v; try (inversion H; reflexivity).
  chain H. discriminate H.
Qed.

Lemma validate_item_list_cls xs e :
  Schema.validate_item_list xs = Raise e -> exn_cls e = ValidationError.
Proof.
  induction xs as [|x xs IH]; cbn [Schema.validate_item_list]; intros H.
  - discriminate H.
  - destruct (Schema.validate_item x) eqn:E; cbn [Schema.rbind] in H.
    + destruct (Schema.validate_item_list xs); cbn [Schema.rbind] in H;
        [discriminate H | inversion H; subst; apply IH; reflexivity].
    + inversion H; subst. eapply validate_item_cls; eassumption.
Qed.

Lemma validate_items_cls v e :
  Schema.validate_items v = Raise e -> exn_cls e = ValidationError.
Proof.
  unfold Schema.validate_items. intros H.
  destruct v as [[]|]; try (inversion H; reflexivity); try discriminate H.
  eapply validate_item_list_cls; eassumption.
Qed.

(** A failed validation raises [ValidationError], or [TypeError] when
    the data is no mapping. *)
Lemma validate_raises v e :
  Schema.validate v = Raise e ->
  exn_cls e = ValidationError \/ exn_cls e = TypeError.
Proof.
  unfold Schema.validate. intros H.
  destruct v; try (right; inversion H; reflexivity).
  left. chain H; try discriminate H.
  all: try (eapply validate_items_cls; eassumption).
Qed.

Lemma loads_ok_nonempty v j :
  Json.loads v = Ok j -> PyStr.nonempty v = true.
Proof. destruct v; [discriminate | reflexivity]. Qed.

Lemma size_accepted (file : UploadFile) :
  Z.of_nat (length (content file)) <= MAX_FILE_SIZE ->
  Z.ltb MAX_FILE_SIZE (Z.of_nat (length (content file))) = false.
Proof. intros H. apply Z.ltb_ge. exact H. Qed.

(** The lookup part of the endpoint on a request that passes the size
    check: one [get], then the hit test. *)
Lemma read_and_lookup_unfold file g w :
  Z.of_nat (length (content file)) <= MAX_FILE_SIZE ->
  read_and_lookup file (g, w)
  = let key := SHA256.hexdigest (content file) in
    let '(r, (cs, w')) := CacheService.get key (cache_service g, w) in
    let g' := mk_globals cs (ai_service g) (google_api_key g) in
    match r with
    | Ok cached =>
        if truthy cached then
          match Schema.validate cached with
          | Ok resp => (Ok (Some resp, key), (g', w'))
          | Raise e =>
              (Raise (mk_FileProcessingError "Error reading uploaded file"
                                             (Some (str_of_exn e))),
               (g', w'))
          end
        else (Ok (None, key), (g', w'))
    | Raise e =>
        (Raise (if isinstance_any e [FileProcessingError] then e
                else if isinstance_any e [Exception]
                     then mk_FileProcessingError
                            "Error reading uploaded file"
                            (Some (str_of_exn e))
                     else e),
         (g', w'))
    end.
Proof.
  intros Hsize. unfold read_and_lookup, on_cache. run_monad.
  rewrite (size_accepted _ Hsize). cbn [calculate_file_hash]. run_monad.
  destruct (CacheService.get _ _) as [[cached|e] [cs w']]; run_monad.
  - destruct (truthy cached); run_monad; [|reflexivity].
    destruct (Schema.validate cached) as [resp|e] eqn:Hv; run_monad;
      [reflexivity|].
    assert (He : isinstance_any e [FileProcessingError] = false
                 /\ isinstance_any e [Exception] = true).
    { unfold isinstance_any, isinstance. cbn [existsb].
      destruct (validate_raises _ _ Hv) as [-> | ->]; split; reflexivity. }
    destruct He as [-> ->]. reflexivity.
  - destruct (isinstance_any e [FileProcessingError]); [reflexivity|].
    destruct (isinstance_any e [Exception]); reflexivity.
Qed.

Lemma validated_is_truthy cached r :
  Schema.validate cached = Ok r -> truthy cached = true.
Proof.
  destruct cached as [| | | | | | | |kvs]; try discriminate.
  destruct kvs; [discriminate | reflexivity].
Qed.

(** A truthy cached value ends the request in the lookup: the OCR
    engine and the model are not called, whatever the value is. *)
Lemma cache_hit_no_work file g w ttl v cached :
  type_accepted file = true ->
  Z.of_nat (length (content file)) <= MAX_FILE_SIZE ->
  backend_answers (cache_service g) w ->
  redis_store w !! SHA256.hexdigest (content file) = Some (ttl, v) ->
  Json.loads v = Ok cached ->
  truthy cached = true ->
  exists res g' w',
    extract_invoice_text file (g, w) = (res, (g', w'))
    /\ same_outside_redis w w'
    /\ (forall r, Schema.validate cached = Ok r -> res = Ok r).
Proof.
  intros Htype Hsize Hup Hstore Hloads Htruthy.
  unfold extract_invoice_text. fold (type_accepted file). rewrite Htype.
  cbn [negb]. unfold bind at 1.
  rewrite (read_and_lookup_unfold _ _ _ Hsize). cbv zeta.
  rewrite get_closed_form. cbv zeta. destruct Hup as [Hup1 Hup2].
  rewrite Hup1, Hstore. unfold decode_cached.
  rewrite (loads_ok_nonempty _ _ Hloads), Hloads.
  destruct (CacheService._redis_client (cache_service g));
    [|rewrite (Hup2 eq_refl)];
    rewrite Htruthy;
    (destruct (Schema.validate cached) as [resp|e];
     [ do 3 eexists; split; [reflexivity|];
       split; [apply same_outside_redis_ops|];
       intros r Hr; inversion Hr; reflexivity
     | do 3 eexists; split; [reflexivity|];
       split; [apply same_outside_redis_ops|];
       intros r Hr; discriminate Hr ]).
Qed.

(** C1: when the fingerprint of the upload is in the cache (the
    backend answers the lookup and holds under that key the serialised
    record [r]) the endpoint returns [r], and neither the OCR
    collaborator nor the model has been called. *)
Theorem cache_hit_short_circuit file g w ttl v cached r :
  type_accepted file = true ->
  Z.of_nat (length (content file)) <= MAX_FILE_SIZE ->
  backend_answers (cache_service g) w ->
  redis_store w !! SHA256.hexdigest (content file) = Some (ttl, v) ->
  Json.loads v = Ok cached ->
  Schema.validate cached = Ok r ->
  exists g' w',
    extract_invoice_text file (g, w) = (Ok r, (g', w'))
    /\ ocr_calls w' = ocr_calls w
    /\ gemini_calls w' = gemini_calls w
    /\ temp_files w' = temp_files w.
Proof.
  intros Htype Hsize Hup Hstore Hloads Hvalid.
  destruct (cache_hit_no_work file g w ttl v cached Htype Hsize Hup Hstore
              Hloads (validated_is_truthy _ _ Hvalid))
    as (res & g' & w' & Hrun & Hsame & Hres).
  exists g', w'. rewrite Hrun, (Hres r Hvalid).
  unfold same_outside_redis in Hsame. intuition congruence.
Qed.

End Endpoint.

Section EndpointWitnesses.

Import Endpoints.

Lemma cache_hit_short_circuit_witness :
  type_accepted png_upload = true
  /\ backend_answers (cache_service startup) cached_world
  /\ exists g' w',
       extract_invoice_text png_upload (startup, cached_world)
       = (Ok invoice_record, (g', w'))
       /\ ocr_calls w' = ocr_calls cached_world
       /\ gemini_calls w' = gemini_calls cached_world
       /\ temp_files w' = temp_files cached_world.
Proof.
  split; [reflexivity|]. split; [split; reflexivity|].
  apply (cache_hit_short_circuit png_upload startup cached_world 86400
           (serialised invoice_record)
           (decode_cached (Some (86400, serialised invoice_record)))).
  - reflexivity.
  - vm_compute. discriminate.
  - split; reflexivity.
  - vm_compute. reflexivity.
  - vm_compute. reflexivity.
  - vm_compute. reflexivity.
Defined.

End EndpointWitnesses.

Section Degraded.

Import Endpoints.

(** A request whose declared content type is supported passes the
    type check and gets a temporary file the OCR service accepts. *)
Lemma declared_type_supported file ct :
  content_type file = Some ct ->
  In ct SUPPORTED_FILE_TYPES ->
  type_accepted file = true
  /\ str_mem (PyStr.lower (file_extension file)) supported_extensions = true.
Proof.
  intros Hct Hin. unfold type_accepted, detect_content_type, file_extension.
  rewrite Hct. unfold SUPPORTED_FILE_TYPES in Hin. cbn [In] in Hin.
  destruct Hin as [<- | [<- | [<- | [<- | []]]]];
    destruct (filename file); split; reflexivity.
Qed.

Lemma get_ai_service_yields g w svc :
  service_of g = Some svc ->
  get_ai_service (g, w)
  = (Ok svc, (mk_globals (cache_service g) (Some svc) (google_api_key g), w)).
Proof.
  unfold service_of, get_ai_service, AIService.init. run_monad.
  destruct g as [cs [s|] key]; cbn [ai_service google_api_key cache_service].
  - intros H. inversion H. reflexivity.
  - destruct (PyStr.nonempty key); [|discriminate].
    intros H. inversion H. reflexivity.
Qed.

(** The second half of the endpoint when the cache cannot store. *)
Lemma process_without_cache file key g w svc text raw r :
  str_mem (PyStr.lower (file_extension file)) supported_extensions = true ->
  unreachable w ->
  ocr_engine w (ocr_calls w) (file_extension file) (content file) = Ok text ->
  service_of g = Some svc ->
  CircuitBreaker.state (AIService.circuit_breaker svc) <> OPEN ->
  AIService.blank text = false ->
  gemini w (gemini_calls w) (PromptManager.get_extraction_prompt text None)
  = GenText raw ->
  PyStr.nonempty raw = true ->
  AIService.blank (PyStr.strip raw) = false ->
  fst (AIService.normalize (PyStr.strip raw) tt) = Ok r ->
  exists g' w',
    process file key (g, w) = (Ok r, (g', w'))
    /\ redis_store w' = redis_store w
    /\ temp_files w' = temp_files w.
Proof.
  intros Hext Hdown Hocr Hsvc Hstate Hblank Hgem Hn Hb2 Hnorm.
  unfold process, create_temp_file, extract_text. run.
  rewrite Hext. cbn [negb]. rewrite Hocr. run.
  rewrite (get_ai_service_yields _ _ _ Hsvc). run.
  unfold on_ai. run. cbn [ai_service cache_service google_api_key].
  rewrite (get_structured_data_ok text None svc _ raw r Hstate Hblank)
    by assumption.
  unfold on_cache. run. cbn [ai_service cache_service google_api_key].
  rewrite set_closed_form. cbv zeta. world_simpl. rewrite !Hdown.
  assert (Hlt : Nat.ltb (temp_files w) (S (temp_files w)) = true)
    by (apply Nat.ltb_lt; lia).
  destruct (CacheService._redis_client (cache_service g));
    [destruct (JsonDump.encode (Schema.model_dump r))|];
    run; unfold cleanup; run; rewrite Hlt;
    do 2 eexists; (split; [reflexivity|]); split; reflexivity.
Qed.

(** With Redis down the lookup is a miss and the store a no-op; the
    request goes through OCR and the model and returns the record. *)
Lemma extract_without_cache file ct g w svc text raw r :
  content_type file = Some ct ->
  In ct SUPPORTED_FILE_TYPES ->
  Z.of_nat (length (content file)) <= MAX_FILE_SIZE ->
  unreachable w ->
  ocr_engine w (ocr_calls w) (file_extension file) (content file) = Ok text ->
  service_of g = Some svc ->
  CircuitBreaker.state (AIService.circuit_breaker svc) <> OPEN ->
  AIService.blank text = false ->
  gemini w (gemini_calls w) (PromptManager.get_extraction_prompt text None)
  = GenText raw ->
  PyStr.nonempty raw = true ->
  AIService.blank (PyStr.strip raw) = false ->
  fst (AIService.normalize (PyStr.strip raw) tt) = Ok r ->
  exists g' w',
    extract_invoice_text file (g, w) = (Ok r, (g', w'))
    /\ redis_store w' = redis_store w
    /\ temp_files w' = temp_files w.
Proof.
  intros Hct Hin Hsize Hdown Hocr Hsvc Hstate Hblank Hgem Hn Hb2 Hnorm.
  destruct (declared_type_supported _ _ Hct Hin) as [Htype Hext].
  unfold extract_invoice_text. fold (type_accepted file). rewrite Htype.
  cbn [negb]. unfold bind at 1.
  rewrite (read_and_lookup_unfold _ _ _ Hsize). cbv zeta.
  rewrite get_closed_form. cbv zeta. rewrite !Hdown.
  set (key := SHA256.hexdigest (content file)).
  destruct (CacheService._redis_client (cache_service g)); cbn [truthy];
    match goal with
    | |- context [process file key (?g1, ?w1)] =>
        destruct (process_without_cache file key g1 w1 svc text raw r)
          as (g' & w' & Hp & Hstore & Htemp);
          try assumption;
          [ rewrite Hp; exists g', w'; split; [reflexivity|];
            split; [rewrite Hstore | rewrite Htemp]; reflexivity ]
    end.
Qed.

End Degraded.

Section CacheClaims.

Import Endpoints.

(** C7: the cache operations never raise: [get], [set] and [check]
    return a value for every key in every world. When a round trip to
    the backend fails [get] returns [None] and [set] and [check] return
    [False]; [get] also returns [None] when the stored text does not
    parse. An extraction whose OCR and model steps succeed therefore
    returns its record with the backend unreachable, storing nothing. *)
Theorem cache_degrades_without_raising :
  (forall key value cs w,
     is_ok (fst (CacheService.get key (cs, w))) = true
     /\ is_ok (fst (CacheService.set key value (cs, w))) = true
     /\ is_ok (fst (CacheService.check key (cs, w))) = true)
  /\ (forall key value cs w,
        backend_fails cs w ->
        fst (CacheService.get key (cs, w)) = Ok PNone
        /\ fst (CacheService.set key value (cs, w)) = Ok false
        /\ fst (CacheService.check key (cs, w)) = Ok false)
  /\ (forall key cs w ttl v e,
        redis_store w !! key = Some (ttl, v) ->
        Json.loads v = Raise e ->
        fst (CacheService.get key (cs, w)) = Ok PNone)
  /\ (forall file ct g w svc text raw r,
        content_type file = Some ct ->
        In ct SUPPORTED_FILE_TYPES ->
        Z.of_nat (length (content file)) <= MAX_FILE_SIZE ->
        unreachable w ->
        ocr_engine w (ocr_calls w) (file_extension file) (content file)
        = Ok text ->
        service_of g = Some svc ->
        CircuitBreaker.state (AIService.circuit_breaker svc) <> OPEN ->
        AIService.blank text = false ->
        gemini w (gemini_calls w)
               (PromptManager.get_extraction_prompt text None)
        = GenText raw ->
        PyStr.nonempty raw = true ->
        AIService.blank (PyStr.strip raw) = false ->
        fst (AIService.normalize (PyStr.strip raw) tt) = Ok r ->
        exists g' w',
          extract_invoice_text file (g, w) = (Ok r, (g', w'))
          /\ redis_store w' = redis_store w
          /\ temp_files w' = temp_files w).
Proof.
  split; [|split; [|split]].
  - intros key value cs w.
    rewrite get_closed_form, set_closed_form, check_closed_form. cbv zeta.
    destruct (CacheService._redis_client cs),
             (redis_up w (redis_ops w)),
             (redis_up w (S (redis_ops w))),
             (JsonDump.encode value); repeat split; reflexivity.
  - intros key value cs w Hdown.
    rewrite get_closed_form, set_closed_form, check_closed_form. cbv zeta.
    destruct Hdown as [Hdown | [Hcs Hdown]].
    + rewrite Hdown.
      destruct (CacheService._redis_client cs), (JsonDump.encode value);
        repeat split; reflexivity.
    + rewrite Hcs, Hdown.
      destruct (redis_up w (redis_ops w)), (JsonDump.encode value);
        repeat split; reflexivity.
  - intros key cs w ttl v e Hstore Hloads.
    rewrite get_closed_form. cbv zeta. rewrite Hstore.
    unfold decode_cached. rewrite Hloads.
    destruct (CacheService._redis_client cs),
             (redis_up w (redis_ops w)),
             (redis_up w (S (redis_ops w))),
             (PyStr.nonempty v); reflexivity.
  - intros file ct g w svc text raw r. apply extract_without_cache.
Qed.

Lemma cache_degrades_without_raising_witness :
  unreachable no_cache_world
  /\ fst (CacheService.get "k" (CacheService.init, no_cache_world)) = Ok PNone
  /\ fst (CacheService.set "k" (Schema.model_dump invoice_record)
                           (CacheService.init, no_cache_world)) = Ok false
  /\ fst (CacheService.check "k" (CacheService.init, no_cache_world))
     = Ok false
  /\ fst (CacheService.get "k"
            (CacheService.init,
             set_redis_store {[ "k" := (86400, "not json") ]} cached_world))
     = Ok PNone
  /\ exists g' w',
       extract_invoice_text png_upload (startup, no_cache_world)
       = (Ok invoice_record, (g', w'))
       /\ redis_store w' = redis_store no_cache_world
       /\ temp_files w' = temp_files no_cache_world.
Proof.
  destruct cache_degrades_without_raising as (_ & Hdown & Hparse & Hrun).
  assert (Hu : unreachable no_cache_world) by (intros k; reflexivity).
  split; [exact Hu|].
  destruct (Hdown "k" (Schema.model_dump invoice_record) CacheService.init
              no_cache_world (or_introl (Hu 0%nat))) as (Hg & Hs & Hc).
  split; [exact Hg|]. split; [exact Hs|]. split; [exact Hc|]. split.
  - apply (Hparse "k" CacheService.init
             (set_redis_store {[ "k" := (86400, "not json") ]} cached_world)
             86400 "not json"
             (builtin_exn JSONDecodeError "Expecting value")).
    + vm_compute. reflexivity.
    + vm_compute. reflexivity.
  - apply (Hrun png_upload "image/png" startup no_cache_world fresh_service
             ocr_text (fenced invoice_json) invoice_record).
    + reflexivity.
    + cbn. tauto.
    + vm_compute. discriminate.
    + exact Hu.
    + reflexivity.
    + reflexivity.
    + discriminate.
    + reflexivity.
    + reflexivity.
    + reflexivity.
    + vm_compute. reflexivity.
    + vm_compute. reflexivity.
Defined.

End CacheClaims.

(** ** Checks against the repository's tests *)

(** The digest of the empty input is the constant of [test_utils.py];
    the other two are the FIPS 180-4 examples. *)
Example sha256_empty :
  calculate_file_hash (PBytes [])
  = Ok "e3b0c44298fc1c149afbf4c8996fb92427ae41e4649b934ca495991b7852b855".
Proof. vm_compute. reflexivity. Qed.

Example sha256_abc :
  calculate_file_hash (PBytes (bytes_of_string "abc"))
  = Ok "ba7816bf8f01cfea414140de5dae2223b00361a396177a9cb410ff61f20015ad".
Proof. vm_compute. reflexivity. Qed.

Example sha256_two_blocks :
  calculate_file_hash (PBytes (bytes_of_string
    "abcdbcdecdefdefgefghfghighijhijkijkljklmklmnlmnomnopnopq"))
  = Ok "248d6a61d20638b8e5c026930c3e6039a33ce45964ff2167f6ecedd419db06c1".
Proof. vm_compute. reflexivity. Qed.

(** [test_transient_error_detection]. *)
Example transient_error_detection :
  map (fun msg => _is_transient_error (builtin_exn Exception msg))
      [ "503 Service Unavailable"; "429 Rate Limit Exceeded";
        "Network timeout"; "Connection failed";
        "Invalid API key"; "Permission denied" ]
  = [true; true; true; true; false; false].
Proof. reflexivity. Qed.

(** A transient failure is retried as well: three calls. *)
Example transient_failure_is_retried :
  let w := world_of seconds_clock
             (fun _ _ => GenRaises (builtin_exn Exception "503 Service Unavailable"))
             (fun _ _ _ => Ok "") (fun _ => false) in
  let '(r, w') := AIService._call_gemini_api "prompt" w in
  r = Raise (mk_AiServiceError
               "Transient error from Gemini API: 503 Service Unavailable" None)
  /\ gemini_calls w' = 3%nat.
Proof. vm_compute. split; reflexivity. Qed.

(** The end-to-end scenario: a miss stores the record, the second upload
    of the same bytes is served from the cache without another call. *)
Example second_upload_is_cached :
  let w := world_of seconds_clock (fun _ _ => GenText (fenced invoice_json))
             (fun _ _ _ => Ok ocr_text) (fun _ => true) in
  let '(r1, s1) := Endpoints.extract_invoice_text png_upload (startup, w) in
  let '(r2, s2) := Endpoints.extract_invoice_text png_upload s1 in
  r1 = Ok invoice_record /\ r2 = Ok invoice_record
  /\ gemini_calls (snd s2) = 1%nat /\ ocr_calls (snd s2) = 1%nat.
Proof. vm_compute. repeat split; reflexivity. Qed.

(** A record that carries a date is not stored: [model_dump] keeps the
    [date] object, [json.dumps] refuses it, and [set] returns [False]
    although the backend answers. *)
Example dated_record_is_not_stored :
  let dated :=
    Schema.mk_invoice "INV-2" (Some (mk_date 2024 1 15)) None "Acme"
                      None None None (inject_Z 10) (inject_Z 1)
                      (inject_Z 11) "USD" [] in
  let '(r, (_, w')) :=
    CacheService.set "k" (Schema.model_dump dated)
                     (CacheService.init, cached_world) in
  r = Ok false /\ redis_store w' = redis_store cached_world.
Proof. vm_compute. split; reflexivity. Qed.

(** * Further properties *)

(** ** The breaker over several calls *)

Section BreakerRuns.

Import CircuitBreaker.

Lemma failing_call_closed {A} (f : M World A) self w :
  state self = CLOSED ->
  always_fails (expected_exception self) f ->
  exists self' w',
    snd (call f (self, w)) = (self', w')
    /\ failure_count self' = failure_count self + 1
    /\ last_failure_time self' <> None
    /\ failure_threshold self' = failure_threshold self
    /\ expected_exception self' = expected_exception self
    /\ state self'
       = if Z.leb (failure_threshold self) (failure_count self + 1)
         then OPEN else CLOSED.
Proof.
  intros Hs Hf. destruct (Hf w) as (e & w' & Hfw & He).
  rewrite call_unfold, gate_closed by (rewrite Hs; discriminate).
  unfold settle. rewrite Hfw, He.
  destruct (Z.leb (failure_threshold self) (failure_count self + 1));
    do 2 eexists; (split; [reflexivity|]); cbn;
    repeat split; try discriminate; exact Hs.
Qed.

Lemma failures_below_threshold {A} (funcs : list (M World A)) self w :
  state self = CLOSED ->
  Forall (always_fails (expected_exception self)) funcs ->
  failure_count self + Z.of_nat (length funcs) < failure_threshold self ->
  let self' := fst (call_each funcs (self, w)) in
  state self' = CLOSED
  /\ failure_count self' = failure_count self + Z.of_nat (length funcs)
  /\ failure_threshold self' = failure_threshold self
  /\ expected_exception self' = expected_exception self.
Proof.
  revert self w. induction funcs as [|f funcs IH]; intros self w Hs Hall Hlt.
  - cbn. repeat split; [exact Hs | lia].
  - inversion Hall as [|? ? Hf Hrest]; subst.
    destruct (failing_call_closed f self w Hs Hf)
      as (s1 & w1 & Hstep & Hc & _ & Ht & He & Hst).
    cbn [call_each]. rewrite Hstep.
    cbn [length] in Hlt. rewrite Nat2Z.inj_succ in Hlt.
    destruct (Z.leb_spec (failure_threshold self) (failure_count self + 1));
      [lia|].
    destruct (IH s1 w1 Hst) as (H1 & H2 & H3 & H4).
    + rewrite He. exact Hrest.
    + rewrite Hc, Ht. lia.
    + cbv zeta. rewrite H1, H2, H3, H4, Hc, Ht, He.
      cbn [length]. rewrite Nat2Z.inj_succ. repeat split; lia.
Qed.

(** X1: a closed breaker without recorded failures (fresh, or after a
    success) and with a threshold of at least one stays closed while
    fewer than [failure_threshold] calls in a row fail, counting them,
    and is open after exactly [failure_threshold] of them. *)
Theorem opens_after_threshold_consecutive_failures {A}
    (funcs : list (M World A)) self w :
  state self = CLOSED ->
  failure_count self = 0 ->
  1 <= failure_threshold self ->
  Forall (always_fails (expected_exception self)) funcs ->
  let n := Z.of_nat (length funcs) in
  let self' := fst (call_each funcs (self, w)) in
  (n < failure_threshold self ->
   state self' = CLOSED /\ failure_count self' = n)
  /\ (n = failure_threshold self ->
      state self' = OPEN /\ failure_count self' = n
      /\ last_failure_time self' <> None).
Proof.
  intros Hs Hc Hthr Hall n self'. split.
  - intros Hn.
    destruct (failures_below_threshold funcs self w Hs Hall) as (H1 & H2 & _).
    + rewrite Hc. exact Hn.
    + split; [exact H1|]. fold self' in H2. rewrite H2, Hc. reflexivity.
  - intros Hn. subst self'.
    destruct (exists_last (l := funcs)) as (front & f & ->).
    { intros ->. cbn in n. subst n. lia. }
    apply Forall_app in Hall. destruct Hall as [Hfront Hlast].
    inversion Hlast as [|? ? Hf _]; subst.
    assert (Hlen : Z.of_nat (length front) + 1 = failure_threshold self).
    { subst n. rewrite length_app, Nat2Z.inj_add in Hn. cbn in Hn. lia. }
    assert (Hsplit : forall s, call_each (front ++ [f])%list s
                               = snd (call f (call_each front s))).
    { clear. induction front as [|g front IH]; intros s; cbn; [reflexivity|].
      apply IH. }
    rewrite Hsplit.
    destruct (failures_below_threshold front self w Hs Hfront)
      as (H1 & H2 & H3 & H4); [lia|].
    destruct (call_each front (self, w)) as [s1 w1]. cbn [fst] in *.
    destruct (failing_call_closed f s1 w1 H1) as (s2 & w2 & -> & Hc2 & Hl2 & _ & _ & Hst2).
    { rewrite H4. exact Hf. }
    cbn [fst]. rewrite H2, H3 in *.
    destruct (Z.leb_spec (failure_threshold self)
                         (failure_count self + Z.of_nat (length front) + 1));
      [|lia].
    repeat split; [exact Hst2 | | exact Hl2].
    rewrite Hc2. subst n. rewrite length_app, Nat2Z.inj_add. cbn. lia.
Qed.

Lemma opens_after_threshold_consecutive_failures_witness :
  state (init 2 60 [Exception]) = CLOSED
  /\ Forall (always_fails [Exception]) [failing_func; failing_func]
  /\ state (fst (call_each [failing_func; failing_func]
                           (init 2 60 [Exception], silent_world))) = OPEN
  /\ failure_count (fst (call_each [failing_func; failing_func]
                           (init 2 60 [Exception], silent_world))) = 2.
Proof.
  assert (Hf : always_fails [Exception] failing_func).
  { intros w. exists (builtin_exn Exception "Test error"), w.
    split; reflexivity. }
  assert (Hall : Forall (always_fails [Exception])
                        [failing_func; failing_func])
    by (repeat constructor; exact Hf).
  split; [reflexivity|]. split; [exact Hall|].
  destruct (opens_after_threshold_consecutive_failures
              [failing_func; failing_func] (init 2 60 [Exception])
              silent_world eq_refl eq_refl) as [_ H].
  - cbn. lia.
  - exact Hall.
  - destruct (H eq_refl) as (H1 & H2 & _). split; [exact H1 | exact H2].
Defined.

(** X2: an exception that is not of an expected class passes through
    the breaker uncounted: [failure_count] and [last_failure_time] stay
    as they were. The state stays as the gate left it, so a breaker
    that was open past its cooldown remains half-open, and in that
    state the gate lets every later call through. *)
Theorem unexpected_exception_not_counted {A B} (func : M World A)
    (later : M World B) self w self1 w1 e w2 w3 :
  gate (self, w) = (Ok tt, (self1, w1)) ->
  func w1 = (Raise e, w2) ->
  isinstance_any e (expected_exception self) = false ->
  call func (self, w) = (Raise e, (self1, w2))
  /\ failure_count self1 = failure_count self
  /\ last_failure_time self1 = last_failure_time self
  /\ (state self = OPEN ->
      state self1 = HALF_OPEN
      /\ fst (gate (self1, w3)) = Ok tt
      /\ call later (self1, w3) = settle later self1 w3).
Proof.
  intros Hg Hf He.
  destruct (gate_effect _ _ _ _ _ Hg) as [_ Hself].
  assert (Hexp : expected_exception self1 = expected_exception self)
    by (destruct Hself as [-> | ->]; reflexivity).
  split; [|split; [|split]].
  - rewrite call_unfold, Hg. unfold settle. rewrite Hf, Hexp, He.
    reflexivity.
  - destruct Hself as [-> | ->]; reflexivity.
  - destruct Hself as [-> | ->]; reflexivity.
  - intros Hopen.
    assert (Hs1 : state self1 = HALF_OPEN).
    { unfold gate, _should_attempt_reset in Hg. revert Hg. run_monad.
      rewrite Hopen. cbn [cb_state_eqb].
      destruct (last_failure_time self); run_monad;
        [unfold datetime_now; run_monad;
         destruct (Z.ltb _ _); run_monad|];
        intros H; inversion H; reflexivity. }
    assert (Hg1 : gate (self1, w3) = (Ok tt, (self1, w3)))
      by (apply gate_closed; rewrite Hs1; discriminate).
    split; [exact Hs1|]. split; [rewrite Hg1; reflexivity|].
    rewrite call_unfold, Hg1. reflexivity.
Qed.

Lemma unexpected_exception_not_counted_witness :
  gate (two_failures, late_world)
  = (Ok tt, (set_state HALF_OPEN two_failures, tick late_world))
  /\ call cancelled_func (two_failures, late_world)
     = (Raise (builtin_exn CancelledError "cancelled"),
        (set_state HALF_OPEN two_failures, tick late_world))
  /\ failure_count (set_state HALF_OPEN two_failures) = 2
  /\ fst (gate (set_state HALF_OPEN two_failures, silent_world)) = Ok tt.
Proof.
  destruct (unexpected_exception_not_counted cancelled_func failing_func
              two_failures late_world
              (set_state HALF_OPEN two_failures) (tick late_world)
              (builtin_exn CancelledError "cancelled") (tick late_world)
              silent_world eq_refl eq_refl eq_refl)
    as (Hcall & Hc & _ & Hopen).
  destruct (Hopen eq_refl) as (_ & Hg & _).
  split; [reflexivity|]. split; [exact Hcall|].
  split; [exact Hc | exact Hg].
Defined.

End BreakerRuns.

(** ** The retrying model call *)

Section RetryBounds.

Lemma once_world prompt w :
  snd (AIService._call_gemini_api_once prompt w)
  = set_gemini_calls (S (gemini_calls w)) w.
Proof.
  unfold AIService._call_gemini_api_once, generate_content. run_monad.
  destruct (gemini w (gemini_calls w) prompt) as [t|e]; run_monad.
  - destruct (PyStr.nonempty t); run_monad; reflexivity.
  - destruct (isinstance_any e [Exception]); run_monad; [|reflexivity].
    destruct (_is_transient_error e); reflexivity.
Qed.

Lemma retrying_returns {A} (fn : M World A) n k wait classes w a w' :
  fn w = (Ok a, w') ->
  Tenacity.retrying n k wait classes fn w = (Ok a, w').
Proof. intros Hf. destruct n; cbn [Tenacity.retrying]; rewrite Hf; reflexivity. Qed.

Lemma retrying_propagates {A} (fn : M World A) n k wait classes w e w' :
  fn w = (Raise e, w') ->
  isinstance_any e classes = false ->
  Tenacity.retrying n k wait classes fn w = (Raise e, w').
Proof.
  intros Hf He. destruct n; cbn [Tenacity.retrying]; rewrite Hf, He;
    reflexivity.
Qed.

Lemma call_gemini_api_counts prompt w :
  exists n,
    (1 <= n <= 3)%nat
    /\ gemini_calls (snd (AIService._call_gemini_api prompt w))
       = (gemini_calls w + n)%nat
    /\ slept (snd (AIService._call_gemini_api prompt w))
       = (slept w ++ repeat 4 (n - 1))%list.
Proof.
  unfold AIService._call_gemini_api, Tenacity.retry.
  set (fn := AIService._call_gemini_api_once prompt).
  set (wait := Tenacity.wait_exponential 1 4 10).
  assert (Hw1 : wait 1 = 4) by reflexivity.
  assert (Hw2 : wait (1 + 1) = 4) by reflexivity.
  pose proof (once_world prompt w) as H1. fold fn in H1.
  destruct (fn w) as [[a|e1] w1] eqn:E1; cbn [snd] in H1; subst w1.
  { exists 1%nat. rewrite (retrying_returns _ _ _ _ _ _ _ _ E1). cbn.
    split; [lia|]. split; [lia | now rewrite app_nil_r]. }
  destruct (isinstance_any e1 [AiServiceError]) eqn:R1.
  2:{ exists 1%nat. rewrite (retrying_propagates _ _ _ _ _ _ _ _ E1 R1). cbn.
      split; [lia|]. split; [lia | now rewrite app_nil_r]. }
  rewrite (retrying_retries _ _ _ _ _ _ _ _ E1 R1).
  set (w1 := set_slept _ _).
  pose proof (once_world prompt w1) as H2. fold fn in H2.
  destruct (fn w1) as [[a|e2] w2] eqn:E2; cbn [snd] in H2; subst w2.
  { exists 2%nat. rewrite (retrying_returns _ _ _ _ _ _ _ _ E2). cbn.
    rewrite Hw1. split; [lia|]. split; [lia | reflexivity]. }
  destruct (isinstance_any e2 [AiServiceError]) eqn:R2.
  2:{ exists 2%nat. rewrite (retrying_propagates _ _ _ _ _ _ _ _ E2 R2). cbn.
      rewrite Hw1. split; [lia|]. split; [lia | reflexivity]. }
  rewrite (retrying_retries _ _ _ _ _ _ _ _ E2 R2).
  set (w2 := set_slept _ _).
  pose proof (once_world prompt w2) as H3. fold fn in H3.
  exists 3%nat. split; [lia|].
  destruct (fn w2) as [[a|e3] w3] eqn:E3; cbn [snd] in H3; subst w3.
  - rewrite (retrying_returns _ _ _ _ _ _ _ _ E3). cbn.
    rewrite Hw1, Hw2, <- app_assoc. split; [lia | reflexivity].
  - rewrite (retrying_gives_up _ _ _ _ _ _ _ E3). cbn.
    rewrite Hw1, Hw2, <- app_assoc. split; [lia | reflexivity].
Qed.

(** X3: whatever the model does, one call of [_call_gemini_api] asks
    it at least once and at most three times, and sleeps four seconds
    before each further attempt. *)
Theorem call_gemini_api_bounded prompt w :
  exists n,
    (1 <= n <= 3)%nat
    /\ gemini_calls (snd (AIService._call_gemini_api prompt w))
       = (gemini_calls w + n)%nat
    /\ slept (snd (AIService._call_gemini_api prompt w))
       = (slept w ++ repeat 4 (n - 1))%list.
Proof. apply call_gemini_api_counts. Qed.

(** X4: when the first [k] attempts fail ([k] below three) and the next
    one returns a non-empty text, the call returns that text stripped,
    after [k + 1] calls to the model and [k] sleeps of four seconds. *)
Theorem call_gemini_api_recovers prompt w k raw :
  (k < 3)%nat ->
  (forall i, (i < k)%nat ->
             attempt_fails (gemini w (gemini_calls w + i) prompt)) ->
  gemini w (gemini_calls w + k) prompt = GenText raw ->
  PyStr.nonempty raw = true ->
  exists w',
    AIService._call_gemini_api prompt w = (Ok (PyStr.strip raw), w')
    /\ gemini_calls w' = (gemini_calls w + k + 1)%nat
    /\ slept w' = (slept w ++ repeat 4 k)%list.
Proof.
  intros Hk Hfail Hok Hn.
  assert (Hgood : forall w0, gemini w0 (gemini_calls w0) prompt = GenText raw ->
            AIService._call_gemini_api_once prompt w0
            = (Ok (PyStr.strip raw), set_gemini_calls (S (gemini_calls w0)) w0)).
  { intros w0 Hg. unfold AIService._call_gemini_api_once, generate_content.
    run_monad. rewrite Hg. run_monad. rewrite Hn. reflexivity. }
  unfold AIService._call_gemini_api, Tenacity.retry.
  destruct k as [|[|[|k]]]; [| | |lia].
  - rewrite Nat.add_0_r in Hok.
    rewrite (retrying_returns _ _ _ _ _ _ _ _ (Hgood w Hok)).
    eexists. split; [reflexivity|]. cbn. split; [lia | now rewrite app_nil_r].
  - destruct (call_gemini_api_once_fails prompt w) as (e1 & H1 & Hc1).
    { specialize (Hfail 0%nat). rewrite Nat.add_0_r in Hfail. apply Hfail. lia. }
    rewrite (retrying_retries _ _ _ _ _ _ _ _ H1 (AiServiceError_retried _ Hc1)).
    set (w1 := set_slept _ _).
    assert (Hok1 : gemini w1 (gemini_calls w1) prompt = GenText raw).
    { cbn. rewrite Nat.add_1_r in Hok. exact Hok. }
    rewrite (retrying_returns _ _ _ _ _ _ _ _ (Hgood w1 Hok1)).
    eexists. split; [reflexivity|]. cbn. split; [lia | reflexivity].
  - destruct (call_gemini_api_once_fails prompt w) as (e1 & H1 & Hc1).
    { specialize (Hfail 0%nat). rewrite Nat.add_0_r in Hfail. apply Hfail. lia. }
    rewrite (retrying_retries _ _ _ _ _ _ _ _ H1 (AiServiceError_retried _ Hc1)).
    set (w1 := set_slept _ _).
    destruct (call_gemini_api_once_fails prompt w1) as (e2 & H2 & Hc2).
    { specialize (Hfail 1%nat). cbn. rewrite Nat.add_1_r in Hfail.
      apply Hfail. lia. }
    rewrite (retrying_retries _ _ _ _ _ _ _ _ H2 (AiServiceError_retried _ Hc2)).
    set (w2 := set_slept _ _).
    assert (Hok2 : gemini w2 (gemini_calls w2) prompt = GenText raw).
    { cbn. replace (S (S (gemini_calls w))) with (gemini_calls w + 2)%nat by lia.
      exact Hok. }
    rewrite (retrying_returns _ _ _ _ _ _ _ _ (Hgood w2 Hok2)).
    eexists. split; [reflexivity|]. cbn. split; [lia|].
    rewrite <- app_assoc. reflexivity.
Qed.

Lemma call_gemini_api_recovers_witness :
  attempt_fails (gemini flaky_world 0 "p")
  /\ exists w',
       AIService._call_gemini_api "p" flaky_world
       = (Ok (PyStr.strip (fenced invoice_json)), w')
       /\ gemini_calls w' = (0 + 1 + 1)%nat
       /\ slept w' = ([] ++ repeat 4 1)%list.
Proof.
  split; [reflexivity|].
  apply (call_gemini_api_recovers "p" flaky_world 1 (fenced invoice_json)).
  - lia.
  - intros i Hi. assert (i = 0%nat) as -> by lia. reflexivity.
  - reflexivity.
  - reflexivity.
Defined.

End RetryBounds.

(** ** The AI service as a whole *)

Section ServiceBehaviour.

Import CircuitBreaker.

Lemma not_an_exception e :
  isinstance e Exception = false ->
  exn_cls e = BaseException \/ exn_cls e = CancelledError.
Proof.
  unfold isinstance. destruct (exn_cls e); cbn; intros H;
    try discriminate H; auto.
Qed.

Lemma breaker_open_error_is_service_error e :
  isinstance_any e [CircuitBreakerOpenError] = true ->
  isinstance e AiServiceError = true.
Proof.
  rewrite isinstance_any_single. unfold isinstance.
  destruct (exn_cls e); cbn; intros H; try discriminate H; reflexivity.
Qed.

Lemma normalize_raises text e :
  fst (AIService.normalize text tt) = Raise e ->
  exn_cls e = AiServiceError.
Proof.
  unfold AIService.normalize. run_monad.
  destruct (Json.loads (clean_ai_response text)) as [j|e0] eqn:Hl; run_monad.
  - destruct (Schema.validate j) as [r|e1] eqn:Hv; run_monad;
      [discriminate|].
    assert (He1 : isinstance_any e1 [Exception] = true).
    { unfold isinstance_any, isinstance. cbn [existsb].
      destruct (validate_raises _ _ Hv) as [-> | ->]; reflexivity. }
    rewrite He1. run_monad. cbn. intros H. inversion H. reflexivity.
  - rewrite isinstance_any_single.
    assert (He0 : isinstance e0 JSONDecodeError = true).
    { unfold isinstance. rewrite (loads_raises_decode_error _ _ Hl).
      reflexivity. }
    rewrite He0. cbn. intros H. inversion H. reflexivity.
Qed.

(** X5: an interruption of the model call that is no [Exception] (a
    cancellation) is neither retried nor counted: the request raises
    it unchanged after one call to the model, without sleeping, and
    the breaker keeps its [failure_count] and [last_failure_time]. *)
Theorem cancellation_not_counted text table_data svc w e :
  expected_exception (AIService.circuit_breaker svc)
  = [AiServiceError; Exception] ->
  AIService.blank text = false ->
  fst (gate (AIService.circuit_breaker svc, w)) = Ok tt ->
  gemini w (gemini_calls w)
         (PromptManager.get_extraction_prompt text table_data)
  = GenRaises e ->
  isinstance e Exception = false ->
  exists svc' w',
    AIService.get_structured_data text table_data (svc, w)
    = (Raise e, (svc', w'))
    /\ failure_count (AIService.circuit_breaker svc')
       = failure_count (AIService.circuit_breaker svc)
    /\ last_failure_time (AIService.circuit_breaker svc')
       = last_failure_time (AIService.circuit_breaker svc)
    /\ gemini_calls w' = S (gemini_calls w)
    /\ slept w' = slept w.
Proof.
  intros Hexp Hb Hg Hgem He.
  assert (Hcls : forall cs, (forall c, In c cs ->
                   c = AiServiceError \/ c = Exception
                   \/ c = CircuitBreakerOpenError) ->
                 isinstance_any e cs = false).
  { intros cs Hcs. unfold isinstance_any.
    apply not_true_is_false. intros Hex.
    apply existsb_exists in Hex. destruct Hex as (c & Hin & Hc).
    unfold isinstance in Hc.
    destruct (not_an_exception _ He) as [Hk | Hk]; rewrite Hk in Hc;
      destruct (Hcs c Hin) as [-> | [-> | ->]]; discriminate Hc. }
  unfold AIService.get_structured_data. rewrite Hb. cbn [negb].
  set (prompt := PromptManager.get_extraction_prompt text table_data) in *.
  unfold AIService.on_breaker. run_monad. rewrite call_unfold.
  destruct (gate (AIService.circuit_breaker svc, w))
    as [[[]|eg] [cb1 w1]] eqn:Hgate; [|discriminate].
  destruct (gate_effect _ _ _ _ _ Hgate) as [Hw Hcb].
  assert (Hgem1 : gemini w1 (gemini_calls w1) prompt = GenRaises e)
    by (destruct Hw as [-> | ->]; exact Hgem).
  assert (Honce : AIService._call_gemini_api_once prompt w1
                  = (Raise e, set_gemini_calls (S (gemini_calls w1)) w1)).
  { unfold AIService._call_gemini_api_once, generate_content. run_monad.
    rewrite Hgem1. run_monad. rewrite Hcls; [reflexivity|].
    intros c [<- | []]. auto. }
  assert (Hcall : AIService._call_gemini_api prompt w1
                  = (Raise e, set_gemini_calls (S (gemini_calls w1)) w1)).
  { unfold AIService._call_gemini_api, Tenacity.retry.
    apply (retrying_propagates _ _ _ _ _ _ _ _ Honce).
    apply Hcls. intros c [<- | []]. auto. }
  unfold settle. rewrite Hcall.
  assert (Hexp1 : expected_exception cb1 = [AiServiceError; Exception])
    by (destruct Hcb as [-> | ->]; exact Hexp).
  rewrite Hexp1, Hcls by (intros c [<- | [<- | []]]; auto).
  run_monad.
  rewrite !Hcls by (intros c [<- | []]; auto).
  do 2 eexists. split; [reflexivity|]. cbn.
  destruct Hcb as [-> | ->], Hw as [-> | ->]; repeat split; reflexivity.
Qed.

Lemma cancellation_not_counted_witness :
  isinstance (builtin_exn CancelledError "cancelled") Exception = false
  /\ exists svc' w',
       AIService.get_structured_data ocr_text None
                                     (fresh_service, cancelled_world)
       = (Raise (builtin_exn CancelledError "cancelled"), (svc', w'))
       /\ failure_count (AIService.circuit_breaker svc')
          = failure_count (AIService.circuit_breaker fresh_service)
       /\ last_failure_time (AIService.circuit_breaker svc')
          = last_failure_time (AIService.circuit_breaker fresh_service)
       /\ gemini_calls w' = S (gemini_calls cancelled_world)
       /\ slept w' = slept cancelled_world.
Proof.
  split; [reflexivity|].
  apply (cancellation_not_counted ocr_text None fresh_service
           cancelled_world (builtin_exn CancelledError "cancelled"));
    reflexivity.
Defined.

(** X6: once the model has returned a non-empty text, the breaker is
    closed with [failure_count] 0 whatever the text is, after exactly
    one call to the model. The result is that of cleaning, parsing
    and validating the stripped text (or the empty-response error when
    the text is blank): a response-shape failure is not counted
    against the model and is not retried. *)
Theorem answered_request_closes_breaker text table_data svc w raw :
  AIService.blank text = false ->
  fst (gate (AIService.circuit_breaker svc, w)) = Ok tt ->
  gemini w (gemini_calls w)
         (PromptManager.get_extraction_prompt text table_data)
  = GenText raw ->
  PyStr.nonempty raw = true ->
  exists svc' w',
    AIService.get_structured_data text table_data (svc, w)
    = (if AIService.blank (PyStr.strip raw)
       then Raise (mk_AiServiceError "Empty response from AI service" None)
       else fst (AIService.normalize (PyStr.strip raw) tt),
       (svc', w'))
    /\ state (AIService.circuit_breaker svc') = CLOSED
    /\ failure_count (AIService.circuit_breaker svc') = 0
    /\ gemini_calls w' = S (gemini_calls w)
    /\ slept w' = slept w.
Proof.
  intros Hb Hg Hgem Hn.
  remember (fst (AIService.normalize (PyStr.strip raw) tt)) as res eqn:Hres.
  unfold AIService.get_structured_data. rewrite Hb. cbn [negb].
  set (prompt := PromptManager.get_extraction_prompt text table_data) in *.
  unfold AIService.on_breaker. run_monad. rewrite call_unfold.
  destruct (gate (AIService.circuit_breaker svc, w))
    as [[[]|eg] [cb1 w1]] eqn:Hgate; [|discriminate].
  destruct (gate_effect _ _ _ _ _ Hgate) as [Hw Hcb].
  assert (Hgem1 : gemini w1 (gemini_calls w1) prompt = GenText raw)
    by (destruct Hw as [-> | ->]; exact Hgem).
  unfold settle. rewrite (call_gemini_api_ok _ _ _ Hgem1 Hn).
  assert (Hfacts : gemini_calls w1 = gemini_calls w /\ slept w1 = slept w)
    by (destruct Hw as [-> | ->]; split; reflexivity).
  destruct Hfacts as [Hcalls Hslept].
  destruct (AIService.blank (PyStr.strip raw)).
  - cbn. do 2 eexists. split; [reflexivity|]. cbn.
    rewrite Hcalls, Hslept. repeat split; reflexivity.
  - rewrite normalize_pure, <- Hres. symmetry in Hres.
    destruct res as [r|e].
    + do 2 eexists. split; [reflexivity|]. cbn.
      rewrite Hcalls, Hslept. repeat split; reflexivity.
    + pose proof (normalize_raises _ _ Hres) as Hcls.
      assert (H1 : isinstance_any e [CircuitBreakerOpenError] = false).
      { unfold isinstance_any, isinstance. cbn. rewrite Hcls. reflexivity. }
      rewrite H1, (AiServiceError_retried _ Hcls).
      do 2 eexists. split; [reflexivity|]. cbn.
      rewrite Hcalls, Hslept. repeat split; reflexivity.
Qed.

Lemma answered_request_closes_breaker_witness :
  PyStr.nonempty "This is not valid JSON" = true
  /\ exists e svc' w',
       AIService.get_structured_data ocr_text None
         (AIService.mk one_failure,
          world_of seconds_clock (fun _ _ => GenText "This is not valid JSON")
                   (fun _ _ _ => Ok "") (fun _ => false))
       = (Raise e, (svc', w'))
       /\ message e = "Failed to parse structured data from AI response"
       /\ state (AIService.circuit_breaker svc') = CLOSED
       /\ failure_count (AIService.circuit_breaker svc') = 0
       /\ gemini_calls w' = 1%nat.
Proof.
  split; [reflexivity|].
  destruct (answered_request_closes_breaker ocr_text None
              (AIService.mk one_failure)
              (world_of seconds_clock
                        (fun _ _ => GenText "This is not valid JSON")
                        (fun _ _ _ => Ok "") (fun _ => false))
              "This is not valid JSON" eq_refl eq_refl eq_refl eq_refl)
    as (svc' & w' & Hrun & Hs & Hc & Hcalls & _).
  eexists. exists svc', w'. split; [exact Hrun|].
  split; [reflexivity|]. split; [exact Hs|]. split; [exact Hc | exact Hcalls].
Defined.

(** X7: [get_structured_data] without table data is
    [extract_invoice_data] followed by validation: the two make the
    same calls and leave the same state, a failure of the first is the
    failure of the second, and parsed data is returned as the
    validated record or rejected with the validation error. *)
Theorem get_structured_data_validates_extracted text s :
  AIService.get_structured_data text None s
  = match extract_invoice_data text s with
    | (Ok data, s') => (validated data, s')
    | (Raise e, s') => (Raise e, s')
    end.
Proof.
  unfold AIService.get_structured_data, extract_invoice_data.
  destruct (AIService.blank text); [reflexivity|]. cbn [negb].
  unfold AIService.normalize, validated. run_monad.
  destruct (AIService.on_breaker _ s) as [[response|e] s1].
  - destruct (AIService.blank response); run_monad.
    + reflexivity.
    +
      destruct (Json.loads (clean_ai_response response)) as [j|e] eqn:Hl;
        run_monad.
      * destruct (Schema.validate j) as [r|e] eqn:Hv; run_monad;
          [reflexivity|].
        assert (He : isinstance_any e [Exception] = true).
        { unfold isinstance_any, isinstance. cbn [existsb].
          destruct (validate_raises _ _ Hv) as [-> | ->]; reflexivity. }
        rewrite He. reflexivity.
      * assert (He : isinstance_any e [JSONDecodeError] = true).
        { unfold isinstance_any, isinstance. cbn [existsb].
          rewrite (loads_raises_decode_error _ _ Hl). reflexivity. }
        rewrite He. reflexivity.
  - run_monad.
    destruct (isinstance_any e [CircuitBreakerOpenError]); [reflexivity|].
    destruct (isinstance_any e [AiServiceError]); [reflexivity|].
    destruct (isinstance_any e [Exception]); reflexivity.
Qed.

(** X8: every [Exception] that [get_structured_data] raises is an
    [AiServiceError] (which includes [CircuitBreakerOpenError]),
    whatever the model, the text and the breaker state. *)
Theorem get_structured_data_raises_service_errors text table_data s e s' :
  AIService.get_structured_data text table_data s = (Raise e, s') ->
  isinstance e Exception = true ->
  isinstance e AiServiceError = true.
Proof.
  unfold AIService.get_structured_data.
  destruct (AIService.blank text); cbn [negb].
  - intros H _. inversion H. reflexivity.
  - unfold try_except.
    match goal with |- context [bind ?m ?k s] =>
      destruct (bind m k s) as [[r|e0] s1] end; [discriminate|].
    run_monad.
    destruct (isinstance_any e0 [CircuitBreakerOpenError]) eqn:H1.
    { intros H _. inversion H; subst.
      apply breaker_open_error_is_service_error. exact H1. }
    destruct (isinstance_any e0 [AiServiceError]) eqn:H2.
    { intros H _. inversion H; subst.
      rewrite isinstance_any_single in H2. exact H2. }
    destruct (isinstance_any e0 [Exception]) eqn:H3.
    { intros H _. inversion H. reflexivity. }
    intros H He. inversion H; subst.
    rewrite isinstance_any_single in H3. congruence.
Qed.

Lemma get_structured_data_raises_service_errors_witness :
  exists e s',
    AIService.get_structured_data ocr_text None
                                  (fresh_service, invalid_key_world)
    = (Raise e, s')
    /\ isinstance e AiServiceError = true.
Proof.
  eexists. eexists. split; [vm_compute; reflexivity|].
  apply (get_structured_data_raises_service_errors ocr_text None
           (fresh_service, invalid_key_world) _ _ eq_refl).
  reflexivity.
Defined.

(** X9: while the breaker is open and the cooldown has not passed,
    [get_structured_data] fails with [CircuitBreakerOpenError] (status
    503, code CIRCUIT_BREAKER_OPEN) without calling the model; only
    the clock has been read. *)
Theorem open_breaker_fails_fast text table_data svc w last :
  AIService.blank text = false ->
  state (AIService.circuit_breaker svc) = OPEN ->
  last_failure_time (AIService.circuit_breaker svc) = Some last ->
  now w - last <= timedelta_seconds (timeout (AIService.circuit_breaker svc)) ->
  AIService.get_structured_data text table_data (svc, w)
  = (Raise (mk_exn CircuitBreakerOpenError
                   "AI Service is temporarily unavailable" (Some 503)
                   (Some "Circuit breaker is open due to repeated failures. Please try again later.")
                   (Some "CIRCUIT_BREAKER_OPEN")),
     (svc, tick w)).
Proof.
  intros Hb Hs Hl Hin.
  unfold AIService.get_structured_data. rewrite Hb. cbn [negb].
  unfold AIService.on_breaker. run_monad. rewrite call_unfold.
  rewrite (gate_open _ _ last Hs Hl).
  destruct (Z.ltb_spec (timedelta_seconds (timeout (AIService.circuit_breaker svc)))
                       (now w - last)); [lia|].
  destruct svc. reflexivity.
Qed.

Lemma open_breaker_fails_fast_witness :
  state two_failures = OPEN
  /\ now silent_world - 0 <= timedelta_seconds (timeout two_failures)
  /\ fst (AIService.get_structured_data ocr_text None
            (AIService.mk two_failures, silent_world))
     = Raise (mk_CircuitBreakerOpenError "AI Service")
  /\ gemini_calls
       (snd (snd (AIService.get_structured_data ocr_text None
                    (AIService.mk two_failures, silent_world)))) = 0%nat.
Proof.
  assert (Hin : now silent_world - 0
                <= timedelta_seconds (timeout two_failures))
    by (vm_compute; discriminate).
  split; [reflexivity|]. split; [exact Hin|].
  rewrite (open_breaker_fails_fast ocr_text None (AIService.mk two_failures)
             silent_world 0 eq_refl eq_refl eq_refl Hin).
  split; reflexivity.
Defined.

End ServiceBehaviour.

(** ** The cache as a store *)

Section CacheStore.

Import CacheService.

Lemma cache_store_cases key value cs w :
  redis_store (snd (snd (get key (cs, w)))) = redis_store w
  /\ redis_store (snd (snd (check key (cs, w)))) = redis_store w
  /\ ((fst (set key value (cs, w)) = Ok true
       /\ exists text,
            JsonDump.encode value = Some text
            /\ redis_store (snd (snd (set key value (cs, w))))
               = <[key := (86400, text)]> (redis_store w))
      \/ (fst (set key value (cs, w)) = Ok false
          /\ redis_store (snd (snd (set key value (cs, w))))
             = redis_store w)).
Proof.
  rewrite get_closed_form, check_closed_form, set_closed_form. cbv zeta.
  split; [|split].
  - destruct (_redis_client cs), (redis_up w (redis_ops w)); reflexivity.
  - destruct (_redis_client cs), (redis_up w (redis_ops w)); reflexivity.
  - destruct (_redis_client cs), (redis_up w (redis_ops w)),
             (redis_up w (S (redis_ops w))),
             (JsonDump.encode value) as [text|];
      cbn [fst snd];
      first [ right; split; reflexivity
            | left; split; [reflexivity|]; exists text; split; reflexivity ].
Qed.

(** X10: [get] and [check] never change the stored data, and [set]
    changes it only when it returns [True], and then only by putting
    the encoded value under its key with the 24-hour time to live. *)
Theorem cache_store_footprint key value cs w :
  redis_store (snd (snd (get key (cs, w)))) = redis_store w
  /\ redis_store (snd (snd (check key (cs, w)))) = redis_store w
  /\ ((fst (set key value (cs, w)) = Ok true
       /\ exists text,
            JsonDump.encode value = Some text
            /\ redis_store (snd (snd (set key value (cs, w))))
               = <[key := (86400, text)]> (redis_store w))
      \/ (fst (set key value (cs, w)) = Ok false
          /\ redis_store (snd (snd (set key value (cs, w))))
             = redis_store w)).
Proof. apply cache_store_cases. Qed.

(** X11: after a [set] that the backend answered, the key is there:
    [check] returns [True] and [get] returns what [json.loads] makes
    of the stored text, as long as the backend answers them; the
    other keys are untouched. *)
Theorem set_then_lookup key value text cs w :
  backend_answers cs w ->
  JsonDump.encode value = Some text ->
  let after := snd (set key value (cs, w)) in
  fst (set key value (cs, w)) = Ok true
  /\ (backend_answers (fst after) (snd after) ->
      fst (check key after) = Ok true
      /\ fst (get key after)
         = Ok (decode_cached (Some (86400, text))))
  /\ (forall other, other <> key ->
      redis_store (snd after) !! other = redis_store w !! other).
Proof.
  intros [Hup1 Hup2] Henc. rewrite set_closed_form. cbv zeta.
  rewrite Henc, Hup1.
  destruct (_redis_client cs) eqn:Hcs; [|rewrite (Hup2 eq_refl)];
    cbn [fst snd]; (split; [reflexivity|]); split.
  - intros [Hup3 _]. rewrite check_closed_form, get_closed_form. cbv zeta.
    cbn [_redis_client]. world_simpl. cbn [redis_up redis_ops set_redis_store set_redis_ops fst snd] in Hup3.
    rewrite Hup3, lookup_insert_eq. split; reflexivity.
  - intros other Hne. world_simpl. apply lookup_insert_ne. congruence.
  - intros [Hup3 _]. rewrite check_closed_form, get_closed_form. cbv zeta.
    cbn [_redis_client]. world_simpl. cbn [redis_up redis_ops set_redis_store set_redis_ops fst snd] in Hup3.
    rewrite Hup3, lookup_insert_eq. split; reflexivity.
  - intros other Hne. world_simpl. apply lookup_insert_ne. congruence.
Qed.

Lemma set_then_lookup_witness :
  backend_answers init cached_world
  /\ fst (set "k" (PDict [("total", PInt 11)]) (init, cached_world)) = Ok true
  /\ fst (check "k" (snd (set "k" (PDict [("total", PInt 11)])
                              (init, cached_world)))) = Ok true
  /\ fst (get "k" (snd (set "k" (PDict [("total", PInt 11)])
                            (init, cached_world))))
     = Ok (PDict [("total", PInt 11)]).
Proof.
  assert (Ha : backend_answers init cached_world) by (split; reflexivity).
  split; [exact Ha|].
  destruct (set_then_lookup "k" (PDict [("total", PInt 11)])
              (js "{'total': 11}") init cached_world Ha eq_refl)
    as (Hset & Hlook & _).
  split; [exact Hset|].
  destruct Hlook as [Hc Hg]; [split; reflexivity|].
  split; [exact Hc|]. rewrite Hg. vm_compute. reflexivity.
Defined.

(** X12: writing the same value under the same key again leaves the
    stored data as the first successful write left it, whether or not
    the backend answers the second time. *)
Theorem repeated_set_is_idempotent key value cs w cs1 w1 cs2 w2 :
  set key value (cs, w) = (Ok true, (cs1, w1)) ->
  redis_store w2 = redis_store w1 ->
  redis_store (snd (snd (set key value (cs2, w2)))) = redis_store w1.
Proof.
  intros Hfirst Hsame.
  destruct (cache_store_cases key value cs w) as (_ & _ & Hset1).
  destruct (cache_store_cases key value cs2 w2) as (_ & _ & Hset2).
  rewrite Hfirst in Hset1. cbn [fst snd] in Hset1.
  destruct Hset1 as [(_ & text & Henc & Hstore1) | [Hbad _]];
    [|discriminate Hbad].
  destruct Hset2 as [(_ & text2 & Henc2 & Hstore2) | [_ Hstore2]].
  - rewrite Hstore2, Hsame, Hstore1.
    rewrite Henc in Henc2. inversion Henc2; subst.
    apply insert_insert_eq.
  - rewrite Hstore2. exact Hsame.
Qed.

Lemma repeated_set_is_idempotent_witness :
  exists cs1 w1,
    set "k" (PInt 1) (init, cached_world) = (Ok true, (cs1, w1))
    /\ redis_store (snd (snd (set "k" (PInt 1) (cs1, w1)))) = redis_store w1.
Proof.
  eexists. eexists. split; [reflexivity|].
  eapply (repeated_set_is_idempotent "k" (PInt 1) init cached_world);
    reflexivity.
Defined.

(** X13: the client object exists after any cache operation, even
    when the connection test failed, so the test is made at most once:
    with the client in place [get] and [check] make exactly one round
    trip and [set] at most one. *)
Theorem client_created_once key value cs w :
  _redis_client (fst (snd (get key (cs, w)))) = true
  /\ _redis_client (fst (snd (set key value (cs, w)))) = true
  /\ _redis_client (fst (snd (check key (cs, w)))) = true
  /\ (_redis_client cs = true ->
      redis_ops (snd (snd (get key (cs, w)))) = S (redis_ops w)
      /\ redis_ops (snd (snd (check key (cs, w)))) = S (redis_ops w)
      /\ (redis_ops (snd (snd (set key value (cs, w))))
          <= S (redis_ops w))%nat).
Proof.
  rewrite get_closed_form, check_closed_form, set_closed_form. cbv zeta.
  destruct cs as [[|]]; cbn [_redis_client];
    destruct (redis_up w (redis_ops w)),
             (redis_up w (S (redis_ops w))),
             (JsonDump.encode value);
    cbn; repeat split; try discriminate; intros; try lia;
    repeat split; lia.
Qed.

End CacheStore.

(** ** What a computation leaves alone *)

Section Frames.

Context {S T : Type} (p : S -> T).

Lemma keeps_ret {A} (a : A) : keeps p (ret a).
Proof. intros s. reflexivity. Qed.

Lemma keeps_raise {A} e : keeps p (@raise S A e).
Proof. intros s. reflexivity. Qed.

Lemma keeps_lift_result {A} (r : result A) : keeps p (lift_result r).
Proof. intros s. reflexivity. Qed.

Lemma keeps_bind {A B} (m : M S A) (k : A -> M S B) :
  keeps p m -> (forall a, keeps p (k a)) -> keeps p (bind m k).
Proof.
  intros Hm Hk s. unfold bind. specialize (Hm s).
  destruct (m s) as [[a|e] s1]; cbn [snd] in *.
  - rewrite (Hk a s1). exact Hm.
  - exact Hm.
Qed.

Lemma keeps_try_except {A} (body : M S A) clauses :
  keeps p body ->
  Forall (fun cl => forall e, keeps p (snd cl e)) clauses ->
  keeps p (try_except body clauses).
Proof.
  intros Hb Hc s. unfold try_except. specialize (Hb s).
  destruct (body s) as [[a|e] s1]; cbn [snd] in *; [exact Hb|].
  induction Hc as [|[cs h] rest Hh _ IH]; cbn [select_handler].
  - exact Hb.
  - destruct (isinstance_any e cs); [|exact IH].
    cbn [snd] in Hh. unfold keeps in Hh. rewrite (Hh e s1). exact Hb.
Qed.

Lemma keeps_if {A} (b : bool) (m1 m2 : M S A) :
  keeps p m1 -> keeps p m2 -> keeps p (if b then m1 else m2).
Proof. destruct b; auto. Qed.

End Frames.

Section WorldFrames.

Context {T : Type} (q : World -> T).

Lemma keeps_on_snd {X A} (m : M World A) :
  keeps q m -> keeps_world (X := X) q (on_snd m).
Proof.
  intros Hm s. unfold on_snd. specialize (Hm (snd s)).
  destruct (m (snd s)) as [r w1]. exact Hm.
Qed.

Lemma keeps_zoom {G X A} (get : G -> X) (set : X -> G -> G)
    (m : M (X * World) A) :
  keeps_world q m -> keeps_world q (zoom get set m).
Proof.
  intros Hm s. unfold zoom. specialize (Hm (get (fst s), snd s)).
  destruct (m (get (fst s), snd s)) as [r [x w1]]. exact Hm.
Qed.

Lemma keeps_self_get {X} : keeps_world q (@self_get X World).
Proof. intros s. reflexivity. Qed.

Lemma keeps_self_modify {X} (f : X -> X) :
  keeps_world q (@self_modify X World f).
Proof. intros s. reflexivity. Qed.

(** The model side: clock, model, sleeps. *)
Hypothesis Hq : blind_to_model q.

Lemma keeps_datetime_now : keeps q datetime_now.
Proof. intros w. apply (Hq w). Qed.

Lemma keeps_sleep n : keeps q (sleep n).
Proof. intros w. apply (Hq w). Qed.

Lemma keeps_generate_content prompt : keeps q (generate_content prompt).
Proof.
  intros w. unfold generate_content.
  destruct (gemini w (gemini_calls w) prompt); apply (Hq w).
Qed.

Lemma keeps_call_gemini_api_once prompt :
  keeps q (AIService._call_gemini_api_once prompt).
Proof.
  unfold AIService._call_gemini_api_once.
  apply keeps_try_except.
  - apply keeps_bind; [apply keeps_generate_content|].
    intros text. apply keeps_if; [apply keeps_raise | apply keeps_ret].
  - repeat constructor. intros e. cbn [snd].
    apply keeps_if; apply keeps_raise.
Qed.

Lemma keeps_retrying {A} (fn : M World A) n k wait classes :
  keeps q fn -> keeps q (Tenacity.retrying n k wait classes fn).
Proof.
  intros Hf. revert k. induction n as [|n IH]; intros k w;
    cbn [Tenacity.retrying]; specialize (Hf w);
    destruct (fn w) as [[a|e] w1]; cbn [snd] in *; try exact Hf.
  - destruct (isinstance_any e classes); exact Hf.
  - destruct (isinstance_any e classes); [|exact Hf].
    destruct n as [|n]; [exact Hf|].
    unfold bind, sleep. rewrite IH. rewrite <- Hf. apply (Hq w1).
Qed.

Lemma keeps_call_gemini_api prompt :
  keeps q (AIService._call_gemini_api prompt).
Proof.
  unfold AIService._call_gemini_api, Tenacity.retry.
  apply keeps_retrying, keeps_call_gemini_api_once.
Qed.

Lemma keeps_gate : keeps_world q CircuitBreaker.gate.
Proof.
  unfold CircuitBreaker.gate, keeps_world.
  apply keeps_bind; [apply keeps_self_get|]. intros self.
  apply keeps_if; [|apply keeps_ret].
  apply keeps_bind.
  - unfold CircuitBreaker._should_attempt_reset.
    apply keeps_bind; [apply keeps_self_get|]. intros self1.
    destruct (CircuitBreaker.last_failure_time self1); [|apply keeps_ret].
    apply keeps_bind; [apply keeps_on_snd, keeps_datetime_now|].
    intros t. apply keeps_ret.
  - intros b. apply keeps_if; [apply keeps_self_modify | apply keeps_raise].
Qed.

Lemma keeps_call {A} (func : M World A) :
  keeps q func -> keeps_world q (CircuitBreaker.call func).
Proof.
  intros Hf. unfold CircuitBreaker.call, keeps_world.
  apply keeps_bind; [apply keeps_gate|]. intros _.
  apply keeps_bind; [apply keeps_self_get|]. intros self.
  apply keeps_try_except.
  - apply keeps_bind; [apply keeps_on_snd, Hf|]. intros a.
    apply keeps_bind; [|intros; apply keeps_ret].
    unfold CircuitBreaker._on_success.
    apply keeps_bind; [apply keeps_self_modify|].
    intros. apply keeps_self_modify.
  - repeat constructor. intros e. cbn [snd].
    apply keeps_bind; [|intros; apply keeps_raise].
    unfold CircuitBreaker._on_failure.
    apply keeps_bind; [apply keeps_self_modify|]. intros _.
    apply keeps_bind; [apply keeps_on_snd, keeps_datetime_now|]. intros t.
    apply keeps_bind; [apply keeps_self_modify|]. intros _.
    apply keeps_bind; [apply keeps_self_get|]. intros self1.
    apply keeps_if; [apply keeps_self_modify | apply keeps_ret].
Qed.

Lemma keeps_normalize {X} text :
  keeps_world (X := X) q (AIService.normalize text).
Proof. intros s. rewrite normalize_pure. reflexivity. Qed.

Lemma keeps_get_structured_data text table_data :
  keeps_world q (AIService.get_structured_data text table_data).
Proof.
  unfold AIService.get_structured_data, keeps_world.
  apply keeps_if; [apply keeps_raise|].
  apply keeps_try_except.
  - apply keeps_bind.
    + unfold AIService.on_breaker. apply keeps_zoom, keeps_call,
        keeps_call_gemini_api.
    + intros text1. apply keeps_if; [apply keeps_raise|].
      apply keeps_normalize.
  - repeat constructor; intros e; apply keeps_raise.
Qed.

End WorldFrames.

Section CacheFrames.

Context {T : Type} (q : World -> T).
Hypothesis Hops : blind_to_redis_ops q.

Lemma keeps_cache_get key : keeps_world q (CacheService.get key).
Proof.
  intros [cs w]. rewrite get_closed_form. cbv zeta.
  destruct (CacheService._redis_client cs), (redis_up w (redis_ops w));
    apply Hops.
Qed.

Lemma keeps_cache_check key : keeps_world q (CacheService.check key).
Proof.
  intros [cs w]. rewrite check_closed_form. cbv zeta.
  destruct (CacheService._redis_client cs), (redis_up w (redis_ops w));
    apply Hops.
Qed.

Hypothesis Hstore : blind_to_redis_store q.

Lemma keeps_cache_set key value : keeps_world q (CacheService.set key value).
Proof.
  intros [cs w]. rewrite set_closed_form. cbv zeta.
  destruct (CacheService._redis_client cs), (redis_up w (redis_ops w)),
           (redis_up w (S (redis_ops w))), (JsonDump.encode value);
    cbn [snd]; rewrite ?Hstore; apply Hops.
Qed.

End CacheFrames.

Section EndpointFrames.

Import Endpoints.

Context {T : Type} (q : World -> T).
Hypothesis Hops : blind_to_redis_ops q.

Lemma keeps_read_and_lookup file : keeps_world q (read_and_lookup file).
Proof.
  unfold read_and_lookup, keeps_world. apply keeps_try_except.
  - apply keeps_if; [apply keeps_raise|].
    apply keeps_bind; [apply keeps_lift_result|]. intros file_hash.
    apply keeps_bind.
    + unfold on_cache. apply keeps_zoom, keeps_cache_get, Hops.
    + intros cached. apply keeps_if; [|apply keeps_ret].
      apply keeps_bind; [apply keeps_lift_result|].
      intros r. apply keeps_ret.
  - repeat constructor; intros e; apply keeps_raise.
Qed.

Lemma keeps_get_ai_service : keeps_world q get_ai_service.
Proof.
  unfold get_ai_service, keeps_world.
  apply keeps_bind; [apply keeps_self_get|]. intros g.
  destruct (ai_service g); [apply keeps_ret|].
  apply keeps_bind; [apply keeps_lift_result|]. intros svc.
  apply keeps_bind; [apply keeps_self_modify|]. intros _. apply keeps_ret.
Qed.

Hypothesis Hmodel : blind_to_model q.

(** The part of [process] from the service lookup to the model's
    answer. *)
Lemma keeps_structured text :
  keeps_world q
    (bind get_ai_service (fun svc =>
       on_ai svc (AIService.get_structured_data text None))).
Proof.
  unfold keeps_world. apply keeps_bind; [apply keeps_get_ai_service|].
  intros svc. unfold on_ai.
  apply keeps_zoom, keeps_get_structured_data, Hmodel.
Qed.

End EndpointFrames.

(** ** Counting calls *)

Section Bounds.

Context {S : Type} (p : S -> nat).

Lemma keeps_bounded {A} (m : M S A) n : keeps p m -> bounded p n m.
Proof. intros H s. rewrite (H s). lia. Qed.

Lemma bounded_bind {A B} (m : M S A) (k : A -> M S B) n1 n2 n :
  bounded p n1 m -> (forall a, bounded p n2 (k a)) ->
  (n1 + n2 <= n)%nat ->
  bounded p n (bind m k).
Proof.
  intros Hm Hk Hn s. unfold bind. specialize (Hm s).
  destruct (m s) as [[a|e] s1]; cbn [snd] in *.
  - specialize (Hk a s1). lia.
  - lia.
Qed.

Lemma bounded_try_except {A} (body : M S A) clauses n :
  bounded p n body ->
  Forall (fun cl => forall e, keeps p (snd cl e)) clauses ->
  bounded p n (try_except body clauses).
Proof.
  intros Hb Hc s. unfold try_except. specialize (Hb s).
  destruct (body s) as [[a|e] s1]; cbn [snd] in *; [exact Hb|].
  induction Hc as [|[cs h] rest Hh _ IH]; cbn [select_handler].
  - exact Hb.
  - destruct (isinstance_any e cs); [|exact IH].
    cbn [snd] in Hh. unfold keeps in Hh. rewrite (Hh e s1). exact Hb.
Qed.

Lemma bounded_if {A} (b : bool) (m1 m2 : M S A) n :
  bounded p n m1 -> bounded p n m2 -> bounded p n (if b then m1 else m2).
Proof. destruct b; auto. Qed.

End Bounds.

Section WorldBounds.

Context (q : World -> nat).

Lemma bounded_on_snd {X A} (m : M World A) n :
  bounded q n m -> bounded_world (X := X) q n (on_snd m).
Proof.
  intros Hm s. unfold on_snd. specialize (Hm (snd s)).
  destruct (m (snd s)) as [r w1]. exact Hm.
Qed.

Lemma bounded_zoom {G X A} (get : G -> X) (set : X -> G -> G)
    (m : M (X * World) A) n :
  bounded_world q n m -> bounded_world q n (zoom get set m).
Proof.
  intros Hm s. unfold zoom. specialize (Hm (get (fst s), snd s)).
  destruct (m (get (fst s), snd s)) as [r [x w1]]. exact Hm.
Qed.

End WorldBounds.

Section ModelCalls.

Lemma bounded_call_gemini_api prompt :
  bounded gemini_calls 3 (AIService._call_gemini_api prompt).
Proof.
  intros w. destruct (call_gemini_api_counts prompt w) as (n & Hn & Hc & _).
  rewrite Hc. lia.
Qed.

Lemma bounded_breaker_call {A} (func : M World A) n :
  bounded gemini_calls n func ->
  bounded_world gemini_calls n (CircuitBreaker.call func).
Proof.
  intros Hf [self w]. rewrite call_unfold. cbn [snd].
  destruct (CircuitBreaker.gate (self, w)) as [[[]|e] [self1 w1]] eqn:Hg;
    destruct (gate_effect _ _ _ _ _ Hg) as [Hw _].
  - unfold settle. specialize (Hf w1).
    assert (Hc : gemini_calls w1 = gemini_calls w)
      by (destruct Hw as [-> | ->]; reflexivity).
    destruct (func w1) as [[a|e] w2]; cbn [snd] in *.
    + lia.
    + destruct (isinstance_any e _); [|cbn; lia].
      destruct (Z.leb _ _); cbn; lia.
  - cbn [snd]. destruct Hw as [-> | ->]; cbn; lia.
Qed.

Lemma bounded_get_structured_data text table_data :
  bounded_world gemini_calls 3
    (AIService.get_structured_data text table_data).
Proof.
  unfold AIService.get_structured_data, bounded_world.
  apply bounded_if; [apply keeps_bounded, keeps_raise|].
  apply bounded_try_except.
  - apply (bounded_bind _ _ _ 3 0); [| |lia].
    + unfold AIService.on_breaker.
      apply bounded_zoom, bounded_breaker_call, bounded_call_gemini_api.
    + intros text1. apply bounded_if;
        apply keeps_bounded; [apply keeps_raise | apply keeps_normalize].
  - repeat constructor; intros e; apply keeps_raise.
Qed.

End ModelCalls.

Section RequestBounds.

Import Endpoints.

Context (q : World -> nat) (a b : nat).
Hypothesis Hops : blind_to_redis_ops q.
Hypothesis Hstore : blind_to_redis_store q.
Hypothesis Htemp : blind_to_temp_files q.
Hypothesis Hocr : forall suffix content, bounded q a (extract_text suffix content).
Hypothesis Hai : forall text, bounded_world (X := AIService.t) q b
                                (AIService.get_structured_data text None).

Lemma bounded_process file key :
  bounded_world q (a + b) (process file key).
Proof.
  intros s0. unfold process, try_finally.
  match goal with |- context [try_except ?body ?cl s0] =>
    assert (Hb : bounded_world q (a + b) (try_except body cl)) end.
  { unfold bounded_world. apply bounded_try_except.
    - apply (bounded_bind _ _ _ 0 (a + b)); [| |lia].
      + unfold create_temp_file. apply bounded_on_snd.
        intros w. cbn. rewrite Htemp. lia.
      + intros _. apply (bounded_bind _ _ _ a b); [| |lia].
        * apply bounded_on_snd, Hocr.
        * intros text. apply bounded_try_except.
          -- apply (bounded_bind _ _ _ 0 b); [| |lia].
             ++ apply keeps_bounded, keeps_get_ai_service.
             ++ intros svc. apply (bounded_bind _ _ _ b 0); [| |lia].
                ** unfold on_ai. apply bounded_zoom, Hai.
                ** intros sd. apply keeps_bounded.
                   apply keeps_bind; [|intros; apply keeps_ret].
                   unfold on_cache.
                   apply keeps_zoom, keeps_cache_set; assumption.
          -- repeat constructor; intros e; apply keeps_raise.
    - repeat constructor; intros e; apply keeps_raise. }
  specialize (Hb s0). cbn beta in Hb.
  match goal with |- context [try_except ?body ?cl s0] =>
    destruct (try_except body cl s0) as [r s1] end.
  cbn [snd] in *. unfold cleanup.
  destruct (Nat.ltb _ _); cbn [snd]; rewrite ?Htemp; exact Hb.
Qed.

Lemma bounded_extract_invoice_text file :
  bounded_world q (a + b) (extract_invoice_text file).
Proof.
  unfold extract_invoice_text, bounded_world.
  apply bounded_if; [apply keeps_bounded, keeps_raise|].
  apply (bounded_bind _ _ _ 0 (a + b)); [| |lia].
  - apply keeps_bounded, keeps_read_and_lookup, Hops.
  - intros [[r|] key]; [apply keeps_bounded, keeps_ret|].
    apply bounded_process.
Qed.

End RequestBounds.

Section RequestCost.

Import Endpoints.

Lemma extract_text_counts suffix content :
  bounded ocr_calls 1 (extract_text suffix content)
  /\ keeps gemini_calls (extract_text suffix content).
Proof.
  split; intros w; unfold extract_text;
    destruct (negb _); cbn; try lia; reflexivity.
Qed.

Lemma ocr_calls_blind_to_model : blind_to_model ocr_calls.
Proof. intros w. repeat split. Qed.

(** X14: one [/extract] request calls the OCR collaborator at most
    once and the model at most three times, for every upload, every
    state of the cache and the breaker and every behaviour of the
    collaborators. *)
Theorem request_cost_bounded file s :
  let w' := snd (snd (extract_invoice_text file s)) in
  (ocr_calls (snd s) <= ocr_calls w' <= ocr_calls (snd s) + 1)%nat
  /\ (gemini_calls (snd s) <= gemini_calls w'
      <= gemini_calls (snd s) + 3)%nat.
Proof.
  split.
  - apply (bounded_extract_invoice_text ocr_calls 1 0); try (intros ? ?; reflexivity).
    + intros suffix content. apply extract_text_counts.
    + intros text. apply keeps_bounded.
      apply keeps_get_structured_data, ocr_calls_blind_to_model.
  - apply (bounded_extract_invoice_text gemini_calls 0 3); try (intros ? ?; reflexivity).
    + intros suffix content. apply keeps_bounded, extract_text_counts.
    + intros text. apply bounded_get_structured_data.
Qed.

End RequestCost.

(** ** The [/extract] request as a whole *)

Section Wrappers.

Context {S A : Type}.

(** A [try] whose handlers only raise keeps the state of its body,
    returns what the body returned, and raises when the body raised. *)
Lemma try_except_reraising (body : M S A) clauses s :
  reraising clauses ->
  snd (try_except body clauses s) = snd (body s)
  /\ match fst (body s) with
     | Ok a => fst (try_except body clauses s) = Ok a
     | Raise _ => exists e', fst (try_except body clauses s) = Raise e'
     end.
Proof.
  intros Hc. unfold try_except.
  destruct (body s) as [[a|e] s1]; cbn [fst snd]; [split; reflexivity|].
  induction Hc as [|[cs h] rest Hh _ IH]; cbn [select_handler].
  - split; [reflexivity | now exists e].
  - destruct (isinstance_any e cs); [|exact IH].
    destruct (Hh e) as [e' He']. cbn [snd] in He'. rewrite He'.
    split; [reflexivity | now exists e'].
Qed.

Lemma bind_raised {B} (m : M S A) (k : A -> M S B) s e s1 :
  m s = (Raise e, s1) -> bind m k s = (Raise e, s1).
Proof. intros H. unfold bind. rewrite H. reflexivity. Qed.

Lemma bind_returned {B} (m : M S A) (k : A -> M S B) s a s1 :
  m s = (Ok a, s1) -> bind m k s = k a s1.
Proof. intros H. unfold bind. rewrite H. reflexivity. Qed.

End Wrappers.

Section RequestState.

Import Endpoints.

Lemma temp_files_blind_to_model : blind_to_model temp_files.
Proof. intros w. repeat split. Qed.

Lemma redis_store_blind_to_model : blind_to_model redis_store.
Proof. intros w. repeat split. Qed.

Lemma keeps_extract_text {T} (q : World -> T) suffix content :
  blind_to_ocr q -> keeps q (extract_text suffix content).
Proof.
  intros Hq w. unfold extract_text. destruct (negb _); apply Hq.
Qed.

(** What [process] does after it has made the temporary file leaves
    alone whatever the services leave alone. *)
Lemma keeps_after_create {T} (q : World -> T) file key :
  blind_to_redis_ops q -> blind_to_redis_store q ->
  blind_to_model q -> blind_to_ocr q ->
  keeps_world q
    (bind (on_snd (extract_text (file_extension file) (content file)))
       (fun extracted_text =>
          try_except
            (bind get_ai_service (fun svc =>
               bind (on_ai svc
                       (AIService.get_structured_data extracted_text None))
                 (fun structured_data =>
                    bind (on_cache
                            (CacheService.set key
                               (Schema.model_dump structured_data)))
                      (fun _ => ret structured_data))))
            [ ([AiServiceError], fun e => raise e) ])).
Proof.
  intros Hops Hstore Hmodel Hocr. unfold keeps_world.
  apply keeps_bind; [apply keeps_on_snd, keeps_extract_text, Hocr|].
  intros text. apply keeps_try_except.
  - apply keeps_bind; [apply keeps_get_ai_service|]. intros svc.
    apply keeps_bind.
    + unfold on_ai. apply keeps_zoom, keeps_get_structured_data, Hmodel.
    + intros sd. apply keeps_bind; [|intros; apply keeps_ret].
      unfold on_cache. apply keeps_zoom, keeps_cache_set; assumption.
  - repeat constructor.
Qed.

(** [process] removes the temporary file it creates. *)
Lemma process_keeps_temp_files file key :
  keeps_world temp_files (process file key).
Proof.
  intros s0. unfold process, try_finally. cbv zeta.
  match goal with |- context [try_except ?body ?cl s0] =>
    destruct (try_except_reraising body cl s0) as [Hs _];
      [repeat constructor; intros e; eexists; reflexivity|];
    destruct (try_except body cl s0) as [r s1] end.
  cbn [snd] in Hs. subst s1.
  rewrite (bind_returned _ _ s0 tt
             (fst s0, set_temp_files (S (temp_files (snd s0))) (snd s0)))
    by reflexivity.
  match goal with |- context [bind ?m ?k ?s] =>
    pose proof (keeps_after_create temp_files file key
                  ltac:(intros w n; reflexivity)
                  ltac:(intros w n; reflexivity)
                  temp_files_blind_to_model
                  ltac:(intros w n; reflexivity) s) as Hk end.
  cbn [snd fst].
  match goal with |- context [cleanup _ (snd ?o)] => set (out := o) in * end.
  change (temp_files (snd (snd out)) = S (temp_files (snd s0))) in Hk.
  clearbody out. unfold cleanup, St in *. rewrite Hk.
  assert (Hlt : Nat.ltb (temp_files (snd s0)) (S (temp_files (snd s0))) = true)
    by (apply Nat.ltb_lt; lia).
  rewrite Hlt. cbn [snd]. reflexivity.
Qed.

(** X15 (temporary file): whatever [POST /extract] is given and however
    it ends (a record, an error of the OCR, of the model or of the
    cache), the temporary file it wrote is removed: there are as many
    temporary files after the request as before it. *)
Theorem temp_file_always_removed file s :
  temp_files (snd (snd (extract_invoice_text file s))) = temp_files (snd s).
Proof.
  revert s. change (keeps_world temp_files (extract_invoice_text file)).
  unfold extract_invoice_text, keeps_world.
  apply keeps_if; [apply keeps_raise|].
  apply keeps_bind.
  - apply (keeps_read_and_lookup temp_files). intros w n. reflexivity.
  - intros [[r|] key]; [apply keeps_ret | apply process_keeps_temp_files].
Qed.

End RequestState.

(** ** What a request stores *)

Section StoreLogic.

Context {X A : Type}.
Implicit Types R : A -> gmap string (Z * string) -> gmap string (Z * string)
                   -> Prop.

Lemma store_post_keeps R (m : M (X * World) A) :
  keeps_world redis_store m ->
  (forall a b, R a b b) ->
  store_post R m.
Proof.
  intros Hm HR s. specialize (Hm s). cbn beta in Hm.
  destruct (fst (m s)); [rewrite Hm; apply HR | exact Hm].
Qed.

Lemma store_post_bind {B} (G : B -> Prop) R (m : M (X * World) B)
    (k : B -> M (X * World) A) :
  keeps_world redis_store m ->
  (forall s b, fst (m s) = Ok b -> G b) ->
  (forall b, G b -> store_post R (k b)) ->
  store_post R (bind m k).
Proof.
  intros Hm HG Hk s. specialize (Hm s). specialize (HG s). unfold bind.
  cbn beta in Hm. destruct (m s) as [[b|e] s1]; cbn [fst snd] in *.
  - specialize (Hk b (HG b eq_refl) s1). rewrite Hm in Hk. exact Hk.
  - exact Hm.
Qed.

Lemma store_post_bind_ret {B} R (m : M (X * World) B) (a : A) :
  store_post (fun _ => R a) m ->
  store_post R (bind m (fun _ => ret a)).
Proof.
  intros Hm s. specialize (Hm s). unfold bind, ret.
  destruct (m s) as [[b|e] s1]; cbn [fst snd] in *; exact Hm.
Qed.

Lemma store_post_try_except R (body : M (X * World) A) clauses :
  store_post R body -> reraising clauses ->
  store_post R (try_except body clauses).
Proof.
  intros Hb Hc s. specialize (Hb s).
  destruct (try_except_reraising body clauses s Hc) as [Hs Hr].
  rewrite Hs. destruct (fst (body s)).
  - rewrite Hr. exact Hb.
  - destruct Hr as [e' ->]. exact Hb.
Qed.

End StoreLogic.

Section RequestStore.

Import Endpoints.

Lemma store_post_set key (r : Schema.InvoiceData) :
  store_post (fun _ : bool => stored_at_most key r)
    (on_cache (CacheService.set key (Schema.model_dump r))).
Proof.
  intros [g w]. unfold on_cache, zoom. cbn [fst snd].
  destruct (cache_store_cases key (Schema.model_dump r) (cache_service g) w)
    as (_ & _ & [[Ht (text & Henc & Hst)] | [Hf Hst]]);
    destruct (CacheService.set key (Schema.model_dump r) (cache_service g, w))
      as [res [cs w1]]; cbn [fst snd] in *; subst res.
  - right. exists text. split; assumption.
  - left. exact Hst.
Qed.

Lemma cleanup_keeps_store n s :
  redis_store (snd (cleanup n s)) = redis_store (snd s).
Proof. unfold cleanup. destruct (Nat.ltb _ _); reflexivity. Qed.

Lemma store_post_process file key :
  store_post (stored_at_most key) (process file key).
Proof.
  assert (Hbody : forall t, store_post (stored_at_most key)
                    (fun s => try_finally
                       (try_except
                          (bind create_temp_file (fun _ =>
                           bind (on_snd (extract_text (file_extension file)
                                                      (content file)))
                             (fun extracted_text =>
                              try_except
                                (bind get_ai_service (fun svc =>
                                 bind (on_ai svc
                                         (AIService.get_structured_data
                                            extracted_text None))
                                   (fun structured_data =>
                                    bind (on_cache
                                            (CacheService.set key
                                               (Schema.model_dump
                                                  structured_data)))
                                      (fun _ => ret structured_data))))
                                [ ([AiServiceError], fun e => raise e) ])))
                          [ ([InvalidFileTypeError; FileProcessingError;
                              OcrError; AiServiceError], fun e => raise e);
                            ([Exception], fun e =>
                               raise (mk_OcrError "Failed to process file"
                                        (Some (str_of_exn e)))) ])
                       (cleanup t) s)).
  { intros t s. unfold try_finally.
    match goal with |- context [try_except ?body ?cl s] =>
      assert (Hte : store_post (stored_at_most key) (try_except body cl)) end.
    { apply store_post_try_except;
        [|repeat constructor; intros e; eexists; reflexivity].
      apply (store_post_bind (fun _ => True)).
      - intros s1. reflexivity.
      - trivial.
      - intros _ _. apply (store_post_bind (fun _ => True)).
        + apply keeps_on_snd, keeps_extract_text. intros w n. reflexivity.
        + trivial.
        + intros text _. apply store_post_try_except;
            [|repeat constructor; intros e; eexists; reflexivity].
          apply (store_post_bind (fun _ => True)).
          * apply keeps_get_ai_service.
          * trivial.
          * intros svc _. apply (store_post_bind (fun _ => True)).
            -- unfold on_ai.
               apply keeps_zoom, keeps_get_structured_data,
                 redis_store_blind_to_model.
            -- trivial.
            -- intros sd _. apply store_post_bind_ret, store_post_set. }
    specialize (Hte s).
    match goal with |- context [try_except ?body ?cl s] =>
      destruct (try_except body cl s) as [r s1] end.
    cbn [fst snd] in *. rewrite cleanup_keeps_store. exact Hte. }
  intros s. exact (Hbody (temp_files (snd s)) s).
Qed.

(** The fingerprint [read_and_lookup] hands on is the SHA-256 of the
    upload. *)
Lemma read_and_lookup_key file s hit key :
  fst (read_and_lookup file s) = Ok (hit, key) ->
  key = SHA256.hexdigest (content file).
Proof.
  unfold read_and_lookup. cbv zeta. intros H.
  match type of H with context [try_except ?body ?cl s] =>
    destruct (try_except_reraising body cl s) as [_ Hr];
      [repeat constructor; intros e; eexists; reflexivity|];
    destruct (fst (body s)) as [[hit' key']|e] eqn:Hb end.
  2: { destruct Hr as [e' Hr]. exfalso.
       assert (He : @Ok (option Schema.ExtractionResponse * string) (hit, key)
                    = Raise e')
         by (etransitivity; [symmetry; exact H | exact Hr]).
       discriminate He. }
  assert (He : @Ok (option Schema.ExtractionResponse * string) (hit, key)
               = Ok (hit', key'))
    by (etransitivity; [symmetry; exact H | exact Hr]).
  injection He as <- <-. clear H Hr. revert Hb.
  destruct (Z.ltb _ _); [discriminate|].
  unfold calculate_file_hash, lift_result. unfold bind at 1.
  unfold bind at 1.
  destruct (on_cache _ s) as [[cached|e] s1]; [|discriminate].
  destruct (truthy cached); [|intros [= _ <-]; reflexivity].
  unfold bind, ret. destruct (Schema.validate cached); [|discriminate].
  intros [= _ <-]. reflexivity.
Qed.

Lemma request_store_post file :
  store_post (stored_at_most (SHA256.hexdigest (content file)))
             (extract_invoice_text file).
Proof.
  unfold extract_invoice_text. cbv zeta.
  destruct (negb _).
  - intros s. reflexivity.
  - apply (store_post_bind
             (fun hit => snd hit = SHA256.hexdigest (content file))).
    + apply (keeps_read_and_lookup redis_store). intros w n. reflexivity.
    + intros s [hit key] H. exact (read_and_lookup_key file s hit key H).
    + intros [[r|] key] Hkey; cbn [snd] in Hkey; subst key.
      * intros s. left. reflexivity.
      * apply store_post_process.
Qed.

(** X16 (what a request stores): a request that fails stores nothing,
    and one that returns a record leaves the stored data as it was or
    puts that record, encoded, under the SHA-256 of the upload with
    the 24-hour time to live; no other key is ever written. *)
Theorem request_store_footprint file s :
  let out := extract_invoice_text file s in
  match fst out with
  | Raise _ => redis_store (snd (snd out)) = redis_store (snd s)
  | Ok r =>
      stored_at_most (SHA256.hexdigest (content file)) r
        (redis_store (snd s)) (redis_store (snd (snd out)))
  end.
Proof. cbv zeta. apply (request_store_post file s). Qed.

End RequestStore.

(** ** Errors of a request *)

Section RequestErrors.

Import Endpoints.

Lemma handled_is_app_exception e cls :
  isinstance_any e cls = true ->
  incl cls [InvalidFileTypeError; FileProcessingError; OcrError;
            AiServiceError] ->
  isinstance_any e [InvalidFileTypeError; FileProcessingError; OcrError;
                    AiServiceError] = true.
Proof.
  unfold isinstance_any. intros H Hincl.
  apply existsb_exists in H. destruct H as (c & Hc & He).
  apply existsb_exists. exists c. split; [apply Hincl, Hc | exact He].
Qed.

(** A [try] whose last clause catches every [Exception]. *)
Lemma try_except_catch_all {S A} (body : M S A) cls (wrap : exn -> exn) s e :
  fst (try_except body
         [ (cls, fun e => raise e);
           ([Exception], fun e => raise (wrap e)) ] s) = Raise e ->
  isinstance e Exception = true ->
  isinstance_any e cls = true \/ exists e0, e = wrap e0.
Proof.
  unfold try_except. destruct (body s) as [[a|e0] s1]; [discriminate|].
  cbn [select_handler]. destruct (isinstance_any e0 cls) eqn:H1.
  - intros [= <-] _. left. exact H1.
  - unfold isinstance_any at 1. cbn [existsb].
    destruct (isinstance e0 Exception) eqn:H2; cbn [orb].
    + intros [= <-] _. right. now exists e0.
    + intros [= <-] H. congruence.
Qed.

Lemma process_raises file key s e :
  fst (process file key s) = Raise e ->
  isinstance e Exception = true ->
  isinstance_any e [InvalidFileTypeError; FileProcessingError; OcrError;
                    AiServiceError] = true.
Proof.
  unfold process, try_finally. cbv zeta.
  match goal with |- context [try_except ?body ?cl s] =>
    pose proof (try_except_catch_all body
                  [InvalidFileTypeError; FileProcessingError; OcrError;
                   AiServiceError]
                  (fun e => mk_OcrError "Failed to process file"
                              (Some (str_of_exn e))) s e) as H;
    destruct (try_except body cl s) as [r s1] end.
  cbn [fst] in *. intros Hr He.
  destruct (H Hr He) as [Hc | [e0 ->]]; [exact Hc | reflexivity].
Qed.

Lemma read_and_lookup_raises file s e :
  fst (read_and_lookup file s) = Raise e ->
  isinstance e Exception = true ->
  isinstance_any e [InvalidFileTypeError; FileProcessingError; OcrError;
                    AiServiceError] = true.
Proof.
  unfold read_and_lookup. cbv zeta.
  match goal with |- context [try_except ?body ?cl s] =>
    pose proof (try_except_catch_all body [FileProcessingError]
                  (fun e => mk_FileProcessingError
                              "Error reading uploaded file"
                              (Some (str_of_exn e))) s e) as H;
    destruct (try_except body cl s) as [r s1] end.
  cbn [fst] in *. intros Hr He.
  destruct (H Hr He) as [Hc | [e0 ->]]; [|reflexivity].
  apply (handled_is_app_exception e [FileProcessingError] Hc).
  intros c [<-|[]]. right. left. reflexivity.
Qed.

(** X17 (errors of a request): every [Exception] that [POST /extract]
    raises is one of the application's own errors, an
    [InvalidFileTypeError], a [FileProcessingError], an [OcrError] or an
    [AiServiceError], whatever the upload, the collaborators and the
    state: nothing else reaches the generic handler. *)
Theorem request_errors_are_app_errors file s e :
  fst (extract_invoice_text file s) = Raise e ->
  isinstance e Exception = true ->
  isinstance_any e [InvalidFileTypeError; FileProcessingError; OcrError;
                    AiServiceError] = true.
Proof.
  unfold extract_invoice_text. cbv zeta. destruct (negb _).
  - intros [= <-] _. reflexivity.
  - unfold bind.
    destruct (read_and_lookup file s) as [[[[r|] key]|e1] s1] eqn:Hl.
    + discriminate.
    + apply process_raises.
    + cbn [fst]. intros [= <-]. apply (read_and_lookup_raises file s).
      rewrite Hl. reflexivity.
Qed.

Lemma request_errors_are_app_errors_witness :
  isinstance_any
    (mk_OcrError "Failed to process file" (Some "cannot open image"))
    [InvalidFileTypeError; FileProcessingError; OcrError; AiServiceError]
  = true.
Proof.
  apply (request_errors_are_app_errors png_upload
           (startup, broken_ocr_world)); vm_compute; reflexivity.
Defined.

(** X18 (rejected uploads): an upload whose detected type is not
    supported, or that is larger than [MAX_FILE_SIZE], is refused with
    a 400 error before anything is done: the cache, the OCR service
    and the model are not asked, no temporary file is written, and the
    state is as before. *)
Theorem rejected_upload_touches_nothing file s :
  type_accepted file = false
  \/ MAX_FILE_SIZE < Z.of_nat (length (content file)) ->
  exists e,
    extract_invoice_text file s = (Raise e, s)
    /\ status_code e = Some 400
    /\ isinstance_any e [InvalidFileTypeError; FileProcessingError] = true.
Proof.
  intros H. unfold extract_invoice_text. cbv zeta.
  fold (type_accepted file).
  destruct (type_accepted file) eqn:Ht; cbn [negb].
  - destruct H as [H|H]; [discriminate|].
    apply Z.ltb_lt in H. unfold read_and_lookup. cbv zeta.
    rewrite H. run_monad.
    eexists. split; [reflexivity|]. split; reflexivity.
  - eexists. split; [reflexivity|]. split; reflexivity.
Qed.

Lemma rejected_upload_touches_nothing_witness :
  exists e,
    extract_invoice_text gif_upload (startup, no_cache_world)
    = (Raise e, (startup, no_cache_world))
    /\ status_code e = Some 400
    /\ isinstance_any e [InvalidFileTypeError; FileProcessingError] = true.
Proof.
  apply (rejected_upload_touches_nothing gif_upload
           (startup, no_cache_world)).
  left. reflexivity.
Defined.

End RequestErrors.

(** ** A request whose OCR step fails *)

Section OcrFailure.

Import Endpoints.

(** The OCR service does not look at the temporary files of the world. *)
Lemma extract_text_result suffix bytes n w :
  fst (extract_text suffix bytes (set_temp_files n w))
  = fst (extract_text suffix bytes w).
Proof. unfold extract_text. world_simpl. destruct (negb _); reflexivity. Qed.

Lemma process_when_ocr_raises file key g w e :
  fst (extract_text (file_extension file) (content file) w) = Raise e ->
  fst (process file key (g, w)) = Raise (surfaced e)
  /\ fst (snd (process file key (g, w))) = g
  /\ gemini_calls (snd (snd (process file key (g, w)))) = gemini_calls w
  /\ redis_ops (snd (snd (process file key (g, w)))) = redis_ops w
  /\ redis_store (snd (snd (process file key (g, w)))) = redis_store w.
Proof.
  intros H.
  rewrite <- (extract_text_result _ _ (S (temp_files w))) in H.
  unfold process, create_temp_file. run_monad.
  destruct (extract_text _ _ (set_temp_files _ w)) as [r w1] eqn:Ho.
  cbn [fst] in H. subst r.
  assert (Hw1 : w1 = set_ocr_calls (S (ocr_calls w))
                       (set_temp_files (S (temp_files w)) w)).
  { revert Ho. unfold extract_text. world_simpl.
    destruct (negb _); intros [= _ <-]; reflexivity. }
  subst w1. clear Ho. unfold surfaced, cleanup.
  assert (Hlt : Nat.ltb (temp_files w) (S (temp_files w)) = true)
    by (apply Nat.ltb_lt; lia).
  destruct (isinstance_any e _); run; rewrite ?Hlt;
    [repeat split|].
  destruct (isinstance_any e [Exception]); run; rewrite ?Hlt;
    repeat split.
Qed.

Lemma request_when_ocr_raises file key g w e :
  type_accepted file = true ->
  fst (read_and_lookup file (g, w)) = Ok (None, key) ->
  fst (extract_text (file_extension file) (content file) w) = Raise e ->
  let out := extract_invoice_text file (g, w) in
  fst out = Raise (surfaced e)
  /\ gemini_calls (snd (snd out)) = gemini_calls w
  /\ redis_store (snd (snd out)) = redis_store w.
Proof.
  intros Ht Hl Ho. cbv zeta. unfold extract_invoice_text. cbv zeta.
  fold (type_accepted file). rewrite Ht. cbn [negb]. unfold bind.
  pose proof (keeps_read_and_lookup gemini_calls
                ltac:(intros w0 n; reflexivity) file (g, w)) as Hg.
  pose proof (keeps_read_and_lookup redis_store
                ltac:(intros w0 n; reflexivity) file (g, w)) as Hs.
  pose proof (keeps_read_and_lookup
                (fun w0 => fst (extract_text (file_extension file)
                                             (content file) w0))
                ltac:(intros w0 n; unfold extract_text; world_simpl;
                      destruct (negb _); reflexivity)
                file (g, w)) as He.
  destruct (read_and_lookup file (g, w)) as [res [g1 w1]].
  cbn [fst snd] in *. subst res. rewrite Ho in He.
  destruct (process_when_ocr_raises file key g1 w1 e He)
    as (Hr & _ & Hg' & _ & Hs').
  rewrite Hr, Hg', Hs', Hg, Hs. repeat split.
Qed.

(** X19 (OCR failure): when the cache has no record of an accepted
    upload and the OCR service raises, the request raises that error
    (an application error as it is, any other [Exception] as an
    [OcrError] "Failed to process file" carrying its text) without
    calling the model and without storing anything. *)
Theorem ocr_failure_surfaces file key g w e :
  type_accepted file = true ->
  fst (read_and_lookup file (g, w)) = Ok (None, key) ->
  fst (extract_text (file_extension file) (content file) w) = Raise e ->
  let out := extract_invoice_text file (g, w) in
  fst out = Raise (surfaced e)
  /\ gemini_calls (snd (snd out)) = gemini_calls w
  /\ redis_store (snd (snd out)) = redis_store w.
Proof. apply request_when_ocr_raises. Qed.

Lemma ocr_failure_surfaces_witness :
  let out := extract_invoice_text png_upload (startup, broken_ocr_world) in
  fst out = Raise (mk_OcrError "Failed to process file"
                     (Some "cannot open image"))
  /\ gemini_calls (snd (snd out)) = 0%nat
  /\ redis_store (snd (snd out)) = ∅.
Proof.
  apply (ocr_failure_surfaces png_upload
           (SHA256.hexdigest (content png_upload))
           startup broken_ocr_world
           (builtin_exn ValueError "cannot open image"));
    vm_compute; reflexivity.
Defined.

(** X20 (form-data uploads): an upload declared as
    [multipart/form-data] passes the type check when its file name has
    a supported extension, but its temporary file gets no suffix, so
    the OCR service refuses it: unless the cache already holds a record
    for it, the request fails with the [FileProcessingError]
    "Unsupported file format: " (status 400), whatever the OCR engine
    and the model would have answered, and the model is not called. *)
Theorem form_data_upload_is_refused file key g w :
  content_type file = Some "multipart/form-data" ->
  type_accepted file = true ->
  fst (read_and_lookup file (g, w)) = Ok (None, key) ->
  let out := extract_invoice_text file (g, w) in
  fst out = Raise (mk_FileProcessingError "Unsupported file format: " None)
  /\ gemini_calls (snd (snd out)) = gemini_calls w
  /\ redis_store (snd (snd out)) = redis_store w.
Proof.
  intros Hct Ht Hl.
  apply (request_when_ocr_raises file key g w
           (mk_FileProcessingError "Unsupported file format: " None) Ht Hl).
  unfold file_extension, extract_text. rewrite Hct. reflexivity.
Qed.

Lemma form_data_upload_is_refused_witness :
  let out := extract_invoice_text form_upload (startup, no_cache_world) in
  fst out = Raise (mk_FileProcessingError "Unsupported file format: " None)
  /\ gemini_calls (snd (snd out)) = 0%nat
  /\ redis_store (snd (snd out)) = ∅.
Proof.
  apply (form_data_upload_is_refused form_upload
           (SHA256.hexdigest (content form_upload))
           startup no_cache_world); vm_compute; reflexivity.
Defined.

End OcrFailure.

(** ** Records, their dumps and the cache *)

Section Records.

Import Schema.

Lemma validate_dumped_items items :
  validate_item_list (map dump_item items) = Ok items.
Proof.
  induction items as [|[d q u t] rest IH]; [reflexivity|].
  cbn [map validate_item_list]. rewrite IH. reflexivity.
Qed.

(** X21 (dump and validate): validating the dump of a record gives the
    record back, so building an [ExtractionResponse] from the fields
    of an [InvoiceData] loses nothing. *)
Theorem model_dump_validates r :
  validate (model_dump r) = Ok r.
Proof.
  destruct r as [a b c d e f g h i j k l].
  unfold validate, model_dump. cbn.
  destruct b, c, e, f, g; cbn; rewrite validate_dumped_items; reflexivity.
Qed.

Lemma dumped_items_encode items first :
  exists t,
    (fix elems (xs : list pyval) (first : bool) : option string :=
       match xs with
       | [] => Some "]"
       | x :: rest =>
           match JsonDump.encode x, elems rest false with
           | Some sx, Some sr =>
               Some ((if first then "" else ", ") +:+ sx +:+ sr)
           | _, _ => None
           end
       end) (map dump_item items) first = Some t.
Proof.
  revert first. induction items as [|i rest IH]; intros first.
  - eexists. reflexivity.
  - destruct (IH false) as [t Ht]. cbn [map]. rewrite Ht.
    eexists. reflexivity.
Qed.

Lemma model_dump_encodes r :
  JsonDump.encode (model_dump r) = None
  <-> invoice_date r <> None \/ due_date r <> None.
Proof.
  destruct r as [a b c d e f g h i j k l].
  cbn [invoice_date due_date]. unfold model_dump.
  cbn [invoice_number invoice_date due_date vendor_name vendor_address
       customer_name customer_address subtotal tax total currency items].
  destruct (dumped_items_encode l true) as [t Ht].
  destruct b as [b|], c as [c|]; cbn [dump_opt_date].
  - split; [intros _; left; discriminate | reflexivity].
  - split; [intros _; left; discriminate | reflexivity].
  - split; [intros _; right; discriminate|]. intros _.
    destruct e, f, g; reflexivity.
  - split; [|intros [H|H]; congruence].
    cbn [JsonDump.encode]. rewrite Ht.
    destruct e, f, g; discriminate.
Qed.

(** X22 (dates and JSON): the dump of a record can be written as JSON
    exactly when the record has neither an invoice date nor a due
    date: [model_dump] keeps dates as [date] objects and [json.dumps]
    refuses them. *)
Theorem record_serialisable_iff_undated r :
  (exists text, JsonDump.encode (model_dump r) = Some text)
  <-> invoice_date r = None /\ due_date r = None.
Proof.
  pose proof (model_dump_encodes r) as H.
  destruct (JsonDump.encode (model_dump r)) as [text|].
  - split; [|intros _; now exists text].
    intros _. destruct (invoice_date r), (due_date r);
      try (split; reflexivity); exfalso;
      assert (Hn : Some text = None)
        by (apply H; first [left; discriminate | right; discriminate]);
      discriminate.
  - split; [intros [text Ht]; discriminate|].
    intros [Hi Hd]. destruct (proj1 H eq_refl); congruence.
Qed.

End Records.

Section DatedRequests.

Import Endpoints.

(** X23 (dated invoices are never cached): a request that returns a
    record with an invoice date or a due date leaves the stored data
    exactly as it was, whatever the backend does, so the next request
    for the same upload is processed again. *)
Theorem dated_record_never_stored file s r :
  fst (extract_invoice_text file s) = Ok r ->
  Schema.invoice_date r <> None \/ Schema.due_date r <> None ->
  redis_store (snd (snd (extract_invoice_text file s)))
  = redis_store (snd s).
Proof.
  intros Hr Hd. pose proof (request_store_post file) as H.
  unfold store_post in H. specialize (H s).
  unfold St, Schema.ExtractionResponse in *. rewrite Hr in H. destruct H as [H | (text & Henc & _)]; [exact H|].
  apply model_dump_encodes in Hd. congruence.
Qed.

Lemma dated_record_never_stored_witness :
  redis_store
    (snd (snd (extract_invoice_text png_upload (startup, dated_world))))
  = redis_store dated_world.
Proof.
  apply (dated_record_never_stored png_upload (startup, dated_world)
           dated_record);
    [vm_compute; reflexivity | left; discriminate].
Defined.

End DatedRequests.

(** ** A request that stops between OCR and the model *)

Section BeforeTheModel.

Import Endpoints.

Lemma keeps_globals_read_and_lookup file :
  keeps (fun s : St => (ai_service (fst s), google_api_key (fst s)))
        (read_and_lookup file).
Proof.
  unfold read_and_lookup. cbv zeta. apply keeps_try_except.
  - apply keeps_if; [apply keeps_raise|].
    apply keeps_bind; [apply keeps_lift_result|]. intros file_hash.
    apply keeps_bind.
    + intros [g w]. unfold on_cache, zoom. cbn [fst snd].
      destruct (CacheService.get _ _) as [r [cs w1]]. reflexivity.
    + intros cached. apply keeps_if; [|apply keeps_ret].
      apply keeps_bind; [apply keeps_lift_result|].
      intros r. apply keeps_ret.
  - repeat constructor.
Qed.

Lemma extract_text_state suffix bytes w :
  snd (extract_text suffix bytes w) = set_ocr_calls (S (ocr_calls w)) w.
Proof. unfold extract_text. destruct (negb _); reflexivity. Qed.

Lemma service_error_reraised msg det :
  isinstance_any (mk_AiServiceError msg det) [AiServiceError] = true
  /\ isinstance_any (mk_AiServiceError msg det)
       [InvalidFileTypeError; FileProcessingError; OcrError;
        AiServiceError] = true.
Proof. split; reflexivity. Qed.

Lemma process_without_key file key g w text :
  fst (extract_text (file_extension file) (content file) w) = Ok text ->
  ai_service g = None ->
  google_api_key g = "" ->
  fst (process file key (g, w))
  = Raise (mk_AiServiceError "Google API key not configured" None)
  /\ fst (snd (process file key (g, w))) = g
  /\ gemini_calls (snd (snd (process file key (g, w)))) = gemini_calls w
  /\ ocr_calls (snd (snd (process file key (g, w)))) = S (ocr_calls w)
  /\ redis_store (snd (snd (process file key (g, w)))) = redis_store w.
Proof.
  intros H Hai Hkey.
  rewrite <- (extract_text_result _ _ (S (temp_files w))) in H.
  pose proof (extract_text_state (file_extension file) (content file)
                (set_temp_files (S (temp_files w)) w)) as Hw.
  unfold process, create_temp_file, get_ai_service. run_monad.
  destruct (extract_text _ _ (set_temp_files _ w)) as [r w1].
  cbn [fst snd] in H, Hw. subst r w1. run_monad. rewrite Hai.
  unfold AIService.init. rewrite Hkey. cbn [negb PyStr.nonempty].
  run_monad.
  rewrite (proj1 (service_error_reraised _ _)). run_monad.
  rewrite (proj2 (service_error_reraised _ _)). run_monad.
  unfold cleanup.
  assert (Hlt : Nat.ltb (temp_files w) (S (temp_files w)) = true)
    by (apply Nat.ltb_lt; lia).
  run. rewrite Hlt. run. repeat split.
Qed.

Lemma process_blank_text file key g w text :
  fst (extract_text (file_extension file) (content file) w) = Ok text ->
  AIService.blank text = true ->
  (ai_service g = None -> google_api_key g <> "") ->
  fst (process file key (g, w))
  = Raise (mk_AiServiceError "Empty or invalid invoice text provided" None)
  /\ gemini_calls (snd (snd (process file key (g, w)))) = gemini_calls w
  /\ clock_reads (snd (snd (process file key (g, w)))) = clock_reads w
  /\ redis_store (snd (snd (process file key (g, w)))) = redis_store w.
Proof.
  intros H Hblank Hkey.
  rewrite <- (extract_text_result _ _ (S (temp_files w))) in H.
  pose proof (extract_text_state (file_extension file) (content file)
                (set_temp_files (S (temp_files w)) w)) as Hw.
  assert (Hlt : Nat.ltb (temp_files w) (S (temp_files w)) = true)
    by (apply Nat.ltb_lt; lia).
  unfold process, create_temp_file, get_ai_service, on_ai.
  run_monad.
  destruct (extract_text _ _ (set_temp_files _ w)) as [r w1].
  cbn [fst snd] in H, Hw. subst r w1. run_monad.
  destruct (ai_service g) as [svc|] eqn:Hai.
  - run_monad. unfold AIService.get_structured_data. rewrite Hblank.
    run_monad.
    rewrite (proj1 (service_error_reraised _ _)). run_monad.
    rewrite (proj2 (service_error_reraised _ _)). run_monad.
    unfold cleanup. run. rewrite Hlt. run. repeat split.
  - unfold AIService.init.
    destruct (google_api_key g) as [|c rest] eqn:Hk;
      [now destruct (Hkey eq_refl)|].
    cbn [negb PyStr.nonempty]. run_monad.
    unfold AIService.get_structured_data. rewrite Hblank. run_monad.
    rewrite (proj1 (service_error_reraised _ _)). run_monad.
    rewrite (proj2 (service_error_reraised _ _)). run_monad.
    unfold cleanup. run. rewrite Hlt. run. repeat split.
Qed.

(** X24 (no API key): when no API key is configured, a request for an
    upload that is not cached runs OCR and then fails with the
    [AiServiceError] "Google API key not configured"; the service
    object is not created, so every such request fails the same way,
    the model is never called and nothing is stored. *)
Theorem missing_api_key_fails_after_ocr file key g w text :
  type_accepted file = true ->
  fst (read_and_lookup file (g, w)) = Ok (None, key) ->
  fst (extract_text (file_extension file) (content file) w) = Ok text ->
  ai_service g = None ->
  google_api_key g = "" ->
  let out := extract_invoice_text file (g, w) in
  fst out = Raise (mk_AiServiceError "Google API key not configured" None)
  /\ ai_service (fst (snd out)) = None
  /\ google_api_key (fst (snd out)) = ""
  /\ ocr_calls (snd (snd out)) = S (ocr_calls w)
  /\ gemini_calls (snd (snd out)) = gemini_calls w
  /\ redis_store (snd (snd out)) = redis_store w.
Proof.
  intros Ht Hl Ho Hai Hkey. cbv zeta. unfold extract_invoice_text.
  cbv zeta. fold (type_accepted file). rewrite Ht. cbn [negb]. unfold bind.
  pose proof (keeps_read_and_lookup gemini_calls
                ltac:(intros w0 n; reflexivity) file (g, w)) as Hg.
  pose proof (keeps_read_and_lookup redis_store
                ltac:(intros w0 n; reflexivity) file (g, w)) as Hs.
  pose proof (keeps_read_and_lookup ocr_calls
                ltac:(intros w0 n; reflexivity) file (g, w)) as Hc.
  pose proof (keeps_read_and_lookup
                (fun w0 => fst (extract_text (file_extension file)
                                             (content file) w0))
                ltac:(intros w0 n; unfold extract_text; world_simpl;
                      destruct (negb _); reflexivity)
                file (g, w)) as He.
  pose proof (keeps_globals_read_and_lookup file (g, w)) as Hgl.
  destruct (read_and_lookup file (g, w)) as [res [g1 w1]].
  cbn [fst snd] in *. subst res. rewrite Ho in He.
  injection Hgl as Hai1 Hkey1. rewrite Hai in Hai1. rewrite Hkey in Hkey1.
  destruct (process_without_key file key g1 w1 text He Hai1 Hkey1)
    as (Hr & Ha & Hg' & Hc' & Hs').
  rewrite Hr, Ha, Hg', Hc', Hs', Hg, Hs, Hc. repeat split; assumption.
Qed.

Lemma missing_api_key_fails_after_ocr_witness :
  let out := extract_invoice_text png_upload
               (keyless_startup, no_cache_world) in
  fst out = Raise (mk_AiServiceError "Google API key not configured" None)
  /\ ai_service (fst (snd out)) = None
  /\ google_api_key (fst (snd out)) = ""
  /\ ocr_calls (snd (snd out)) = 1%nat
  /\ gemini_calls (snd (snd out)) = 0%nat
  /\ redis_store (snd (snd out)) = ∅.
Proof.
  apply (missing_api_key_fails_after_ocr png_upload
           (SHA256.hexdigest (content png_upload))
           keyless_startup no_cache_world ocr_text);
    vm_compute; reflexivity.
Defined.

(** A request that misses the cache goes on with [process], in a
    state that differs from the first one by the cache traffic only. *)
Lemma miss_then_process file key g w :
  type_accepted file = true ->
  fst (read_and_lookup file (g, w)) = Ok (None, key) ->
  exists g1 w1,
    extract_invoice_text file (g, w) = process file key (g1, w1)
    /\ ai_service g1 = ai_service g
    /\ google_api_key g1 = google_api_key g
    /\ gemini_calls w1 = gemini_calls w
    /\ clock_reads w1 = clock_reads w
    /\ redis_store w1 = redis_store w
    /\ fst (extract_text (file_extension file) (content file) w1)
       = fst (extract_text (file_extension file) (content file) w).
Proof.
  intros Ht Hl. unfold extract_invoice_text.
  cbv zeta. fold (type_accepted file). rewrite Ht. cbn [negb]. unfold bind.
  pose proof (keeps_read_and_lookup gemini_calls
                ltac:(intros w0 n; reflexivity) file (g, w)) as Hg.
  pose proof (keeps_read_and_lookup clock_reads
                ltac:(intros w0 n; reflexivity) file (g, w)) as Hc.
  pose proof (keeps_read_and_lookup redis_store
                ltac:(intros w0 n; reflexivity) file (g, w)) as Hs.
  pose proof (keeps_read_and_lookup
                (fun w0 => fst (extract_text (file_extension file)
                                             (content file) w0))
                ltac:(intros w0 n; unfold extract_text; world_simpl;
                      destruct (negb _); reflexivity)
                file (g, w)) as He.
  pose proof (keeps_globals_read_and_lookup file (g, w)) as Hgl.
  destruct (read_and_lookup file (g, w)) as [res [g1 w1]].
  cbn [fst snd] in *. subst res. injection Hgl as Hai Hkey.
  exists g1, w1. repeat split; assumption.
Qed.

(** X25 (blank page): when OCR finds no text (an empty string or only
    white space) on an upload that is not cached, the request fails
    with the [AiServiceError] "Empty or invalid invoice text provided"
    without calling the model, without consulting the circuit breaker
    (the clock is not read) and without storing anything. *)
Theorem blank_page_is_refused file key g w text :
  type_accepted file = true ->
  fst (read_and_lookup file (g, w)) = Ok (None, key) ->
  fst (extract_text (file_extension file) (content file) w) = Ok text ->
  AIService.blank text = true ->
  (ai_service g = None -> google_api_key g <> "") ->
  let out := extract_invoice_text file (g, w) in
  fst out
  = Raise (mk_AiServiceError "Empty or invalid invoice text provided" None)
  /\ gemini_calls (snd (snd out)) = gemini_calls w
  /\ clock_reads (snd (snd out)) = clock_reads w
  /\ redis_store (snd (snd out)) = redis_store w.
Proof.
  intros Ht Hl Ho Hb Hkey. cbv zeta.
  destruct (miss_then_process file key g w Ht Hl)
    as (g1 & w1 & -> & Hai & Hk & Hg & Hc & Hs & He).
  rewrite Ho in He. rewrite <- Hai, <- Hk in Hkey.
  destruct (process_blank_text file key g1 w1 text He Hb Hkey)
    as (Hr & Hg' & Hc' & Hs').
  rewrite Hr, Hg', Hc', Hs', Hg, Hc, Hs. repeat split.
Qed.

Lemma blank_page_is_refused_witness :
  let out := extract_invoice_text png_upload (startup, blank_page_world) in
  fst out
  = Raise (mk_AiServiceError "Empty or invalid invoice text provided" None)
  /\ gemini_calls (snd (snd out)) = 0%nat
  /\ clock_reads (snd (snd out)) = 0%nat
  /\ redis_store (snd (snd out)) = ∅.
Proof.
  apply (blank_page_is_refused png_upload
           (SHA256.hexdigest (content png_upload))
           startup blank_page_world "   ");
    try (vm_compute; reflexivity).
  intros _. discriminate.
Defined.

End BeforeTheModel.

(** ** Cleaning the model's answer *)

Section Cleaning.

Import PyStr.

Lemma append_cons c s t : String c s +:+ t = String c (s +:+ t).
Proof. reflexivity. Qed.

Lemma append_nil t : "" +:+ t = t.
Proof. reflexivity. Qed.

Lemma append_empty s : s +:+ "" = s.
Proof.
  induction s as [|c s IH]; [reflexivity|].
  rewrite append_cons, IH. reflexivity.
Qed.

Lemma append_assoc a b c : (a +:+ b) +:+ c = a +:+ (b +:+ c).
Proof.
  induction a as [|x a IH]; [reflexivity|].
  rewrite !append_cons, IH. reflexivity.
Qed.

Lemma backtick_not_space c : isspace c = true -> Ascii.eqb c "`" = false.
Proof.
  destruct (Ascii.eqb c "`") eqn:H; [|reflexivity].
  apply Ascii.eqb_eq in H. subst c. intros H. discriminate H.
Qed.

(** *** Stripping *)

Lemma rstrip_empty_iff s : rstrip s = "" <-> all_chars isspace s = true.
Proof.
  induction s as [|c s IH]; cbn [rstrip all_chars]; [tauto|].
  destruct (rstrip s) as [|x r].
  - destruct (isspace c); cbn [andb].
    + split; [intros _; apply IH; reflexivity | reflexivity].
    + split; discriminate.
  - split; [discriminate|]. intros H.
    apply andb_true_iff in H. destruct H as [_ H].
    apply IH in H. discriminate.
Qed.

Lemma rstrip_cons c s :
  all_chars isspace (String c s) = false ->
  rstrip (String c s) = String c (rstrip s).
Proof.
  intros H. cbn [rstrip]. destruct (rstrip s) as [|x r] eqn:Hr;
    [|reflexivity].
  destruct (isspace c) eqn:Hc; [|reflexivity].
  cbn [all_chars] in H. rewrite Hc in H. cbn [andb] in H.
  apply rstrip_empty_iff in Hr. congruence.
Qed.

Lemma rstrip_idempotent s : rstrip (rstrip s) = rstrip s.
Proof.
  induction s as [|c s IH]; [reflexivity|]. cbn [rstrip].
  destruct (rstrip s) as [|x r] eqn:Hr.
  - destruct (isspace c) eqn:Hc; [reflexivity|].
    cbn [rstrip]. rewrite Hc. reflexivity.
  - change (rstrip (String c (String x r)))
      with (match rstrip (String x r) with
            | "" => if isspace c then "" else String c ""
            | r' => String c r'
            end).
    rewrite IH. reflexivity.
Qed.

Lemma lstrip_head s :
  lstrip s = "" \/ exists c r, lstrip s = String c r /\ isspace c = false.
Proof.
  induction s as [|c s IH]; [left; reflexivity|]. cbn [lstrip].
  destruct (isspace c) eqn:Hc; [exact IH|].
  right. exists c, s. split; [reflexivity | exact Hc].
Qed.

Lemma strip_idempotent s : strip (strip s) = strip s.
Proof.
  unfold strip. destruct (lstrip_head s) as [-> | (c & r & -> & Hc)];
    [reflexivity|].
  assert (H : lstrip (rstrip (String c r)) = rstrip (String c r)).
  { cbn [rstrip]. destruct (rstrip r); [rewrite Hc|];
      cbn [lstrip]; rewrite Hc; reflexivity. }
  rewrite H. apply rstrip_idempotent.
Qed.

Lemma lstrip_app pre c r :
  isspace c = false ->
  lstrip (pre +:+ String c r) = lstrip pre +:+ String c r.
Proof.
  intros Hc. induction pre as [|x pre IH];
    rewrite ?append_cons, ?append_nil; cbn [lstrip].
  - rewrite Hc. reflexivity.
  - destruct (isspace x); [exact IH | reflexivity].
Qed.

Lemma rstrip_app a c r :
  isspace c = false ->
  rstrip (a +:+ String c r) = a +:+ String c (rstrip r).
Proof.
  intros Hc.
  assert (Hcr : rstrip (String c r) = String c (rstrip r)).
  { apply rstrip_cons. cbn [all_chars]. rewrite Hc. reflexivity. }
  induction a as [|x a IH]; rewrite ?append_cons, ?append_nil;
    [exact Hcr|].
  cbn [rstrip]. rewrite IH. destruct a; reflexivity.
Qed.

Lemma no_backtick_app a b :
  no_backtick (a +:+ b) = no_backtick a && no_backtick b.
Proof.
  unfold no_backtick. induction a as [|x a IH];
    rewrite ?append_cons, ?append_nil; cbn [all_chars];
    [reflexivity|]. rewrite IH. apply andb_assoc.
Qed.

Lemma no_backtick_lstrip s : no_backtick s = true -> no_backtick (lstrip s) = true.
Proof.
  unfold no_backtick. induction s as [|c s IH]; [reflexivity|].
  cbn [lstrip]. destruct (isspace c); [|trivial].
  cbn [all_chars]. intros H. apply andb_true_iff in H. apply IH, H.
Qed.

Lemma no_backtick_rstrip s : no_backtick s = true -> no_backtick (rstrip s) = true.
Proof.
  unfold no_backtick. induction s as [|c s IH]; [reflexivity|].
  cbn [all_chars]. intros H. apply andb_true_iff in H.
  destruct H as [Hc Hs]. specialize (IH Hs). cbn [rstrip].
  destruct (rstrip s) as [|x r].
  - destruct (isspace c); [reflexivity|]. cbn [all_chars].
    rewrite Hc. reflexivity.
  - cbn [all_chars] in *. rewrite Hc. exact IH.
Qed.

(** *** The pattern *)

Lemma match_star p pat' c s g :
  Re.match_here (Re.Star p :: pat') (String c s) g
  = if p c
    then match Re.match_here (Re.Star p :: pat') s g with
         | Some r => Some r
         | None => Re.match_here pat' (String c s) g
         end
    else Re.match_here pat' (String c s) g.
Proof. reflexivity. Qed.

Lemma match_lazy p pat' s g :
  Re.match_here (Re.GroupLazy p :: pat') s g = lazy_group p pat' "" s.
Proof. reflexivity. Qed.

Lemma lazy_group_step p pat' acc s :
  lazy_group p pat' acc s
  = match Re.match_here pat' s acc with
    | Some r => Some r
    | None =>
        match s with
        | String c s' =>
            if p c then lazy_group p pat' (acc +:+ String c "") s'
            else None
        | "" => None
        end
    end.
Proof. destruct s; reflexivity. Qed.

Lemma search_step pat s :
  Re.search pat s
  = match Re.match_here pat s "" with
    | Some g => Some g
    | None =>
        match s with
        | String _ s' => Re.search pat s'
        | "" => None
        end
    end.
Proof. destruct s; reflexivity. Qed.

(** A fence does not start at a character that is no backtick. *)
Lemma fence_needs_backtick c s pat' g :
  Ascii.eqb c "`" = false ->
  Re.match_here (Re.Lit "```" :: pat') (String c s) g = None.
Proof.
  intros H. cbn [Re.match_here Re.drop_prefix].
  rewrite Ascii.eqb_sym, H. reflexivity.
Qed.

Lemma fence_at_end pat' g : Re.match_here (Re.Lit "```" :: pat') "" g = None.
Proof. reflexivity. Qed.

(** The end of the block: optional white space, then the fence. *)
Lemma closing_matches s post acc :
  no_backtick s = true ->
  Re.match_here closing (s +:+ "```" +:+ post) acc
  = if all_chars isspace s then Some acc else None.
Proof.
  unfold closing, no_backtick. induction s as [|c s IH]; intros H.
  - reflexivity.
  - cbn [all_chars] in H. apply andb_true_iff in H. destruct H as [Hc Hs].
    apply negb_true_iff in Hc. rewrite append_cons, match_star.
    cbn [all_chars]. rewrite (IH Hs), (fence_needs_backtick _ _ _ _ Hc).
    destruct (isspace c), (all_chars isspace s); reflexivity.
Qed.

(** The lazy group takes the text up to the white space before the
    closing fence. *)
Lemma lazy_group_takes s post acc :
  no_backtick s = true ->
  lazy_group (fun _ => true) closing acc (s +:+ "```" +:+ post)
  = Some (acc +:+ rstrip s).
Proof.
  revert acc. induction s as [|c s IH]; intros acc H.
  - rewrite lazy_group_step, (closing_matches "" post acc eq_refl).
    cbn [all_chars rstrip]. rewrite append_empty. reflexivity.
  - rewrite lazy_group_step, (closing_matches _ post acc H).
    destruct (all_chars isspace (String c s)) eqn:Hall.
    + apply rstrip_empty_iff in Hall. rewrite Hall, append_empty.
      reflexivity.
    + rewrite append_cons.
      unfold no_backtick in H. cbn [all_chars] in H.
      apply andb_true_iff in H. destruct H as [_ Hs].
      rewrite (IH _ Hs), (rstrip_cons _ _ Hall), append_assoc.
      reflexivity.
Qed.

(** After the opening fence: white space, the block, the closing. *)
Lemma block_matches body post g :
  no_backtick body = true ->
  Re.match_here (Re.Star isspace :: Re.GroupLazy (fun _ => true) :: closing)
                (body +:+ "```" +:+ post) g
  = Some (strip body).
Proof.
  unfold strip. induction body as [|c body IH]; intros H.
  - reflexivity.
  - pose proof H as H0. unfold no_backtick in H. cbn [all_chars] in H.
    apply andb_true_iff in H. destruct H as [_ Hs].
    rewrite append_cons, match_star. cbn [lstrip].
    destruct (isspace c).
    + rewrite (IH Hs). reflexivity.
    + rewrite match_lazy, <- append_cons, (lazy_group_takes _ post "" H0).
      reflexivity.
Qed.

Lemma fenced_block_found body post :
  no_backtick body = true ->
  Re.search markdown_pattern ("```json" +:+ body +:+ "```" +:+ post)
  = Some (strip body).
Proof.
  intros H. rewrite search_step. unfold markdown_pattern.
  change (Re.match_here
            (Re.Lit "```" :: Re.Opt "json" :: Re.Star isspace
             :: Re.GroupLazy (fun _ => true) :: [Re.Star isspace; Re.Lit "```"])
            ("```json" +:+ body +:+ "```" +:+ post) "")
    with (match Re.match_here
                  (Re.Star isspace :: Re.GroupLazy (fun _ => true) :: closing)
                  (body +:+ "```" +:+ post) "" with
          | Some r => Some r
          | None =>
              Re.match_here
                (Re.Star isspace :: Re.GroupLazy (fun _ => true) :: closing)
                ("json" +:+ body +:+ "```" +:+ post) ""
          end).
  rewrite (block_matches _ _ _ H). reflexivity.
Qed.

Lemma search_skips pre s :
  no_backtick pre = true ->
  Re.search markdown_pattern (pre +:+ s) = Re.search markdown_pattern s.
Proof.
  unfold no_backtick. induction pre as [|c pre IH]; intros H;
    [reflexivity|].
  cbn [all_chars] in H. apply andb_true_iff in H. destruct H as [Hc Hs].
  apply negb_true_iff in Hc.
  rewrite append_cons, search_step. unfold markdown_pattern at 1.
  rewrite (fence_needs_backtick _ _ _ _ Hc). apply IH, Hs.
Qed.

Lemma search_finds_nothing s :
  no_backtick s = true -> Re.search markdown_pattern s = None.
Proof.
  intros H. rewrite <- (append_empty s), (search_skips _ _ H). reflexivity.
Qed.

(** X26 (fenced answers): when the model wraps its answer in a fenced
    json block, with any text before and after it, cleaning returns
    the stripped content of the block, provided no backtick occurs
    before the block or inside it. *)
Theorem clean_ai_response_unwraps_fence pre body post :
  no_backtick pre = true ->
  no_backtick body = true ->
  clean_ai_response (pre +:+ "```json" +:+ body +:+ "```" +:+ post)
  = strip body.
Proof.
  intros Hpre Hbody. unfold clean_ai_response. cbv zeta.
  assert (Hs : strip (pre +:+ "```json" +:+ body +:+ "```" +:+ post)
               = lstrip pre +:+ "```json" +:+ body +:+ "```"
                 +:+ rstrip post).
  { unfold strip.
    change ("```json" +:+ body +:+ "```" +:+ post)
      with (String "`" ("``json" +:+ body +:+ "```" +:+ post)).
    rewrite (lstrip_app pre "`" _ eq_refl).
    change (String "`" ("``json" +:+ body +:+ "```" +:+ post))
      with ("```json" +:+ body +:+ "``" +:+ String "`" post).
    rewrite <- !append_assoc.
    rewrite (rstrip_app _ "`" post eq_refl).
    rewrite !append_assoc. reflexivity. }
  rewrite Hs, (search_skips _ _ (no_backtick_lstrip _ Hpre)).
  rewrite (fenced_block_found _ _ Hbody). apply strip_idempotent.
Qed.

Lemma clean_ai_response_unwraps_fence_witness :
  clean_ai_response
    ("Here is the data: " +:+ "```json" +:+ " {} " +:+ "```" +:+ " Done.")
  = "{}".
Proof.
  apply (clean_ai_response_unwraps_fence "Here is the data: " " {} "
           " Done."); reflexivity.
Defined.

(** X27 (plain answers): an answer without any backtick is only
    stripped, and cleaning a cleaned answer changes nothing. *)
Theorem clean_ai_response_plain text :
  no_backtick text = true ->
  clean_ai_response text = strip text
  /\ clean_ai_response (clean_ai_response text) = clean_ai_response text.
Proof.
  intros H.
  assert (Hs : no_backtick (strip text) = true)
    by (apply no_backtick_rstrip, no_backtick_lstrip, H).
  assert (Hc : forall t, no_backtick t = true ->
                         clean_ai_response t = strip t).
  { intros t Ht. unfold clean_ai_response. cbv zeta.
    rewrite search_finds_nothing; [reflexivity|].
    apply no_backtick_rstrip, no_backtick_lstrip, Ht. }
  rewrite (Hc _ H), (Hc _ Hs), strip_idempotent. split; reflexivity.
Qed.

Lemma clean_ai_response_plain_witness :
  clean_ai_response "  {} " = "{}"
  /\ clean_ai_response (clean_ai_response "  {} ")
     = clean_ai_response "  {} ".
Proof. apply (clean_ai_response_plain "  {} "). reflexivity. Defined.

End Cleaning.
